(** * Hedera -> QuickBooks Online sync: a shallow embedding of
      [quickbook-sync.js] and the properties of its reconciliation core.

    The development follows the source file top to bottom:
    - [JS]: the fragment of the JavaScript built-ins the program calls
      (numbers, [Number(...)], [String.prototype.trim], [Date] and
      [toISOString]);
    - [Sync]: the program itself, as state-passing functions over the
      process state ([seenKeys], the OAuth token) and an external world
      reached through [oauthClient.makeApiCall] and [fetch];
    - the properties, one section per component. *)

From Stdlib Require Import ZArith QArith Qabs Qround Qcanon List String Ascii Bool Lia.
From Stdlib Require Import DecimalString.
Import ListNotations.

Local Open Scope string_scope.
Local Open Scope Z_scope.

(* ================================================================== *)
(** * The JavaScript fragment *)
(* ================================================================== *)

Module JS.

(** ** Numbers

    A JavaScript number is an IEEE-754 binary64 value.  [Finite q] carries
    the exact rational value of a finite double; every arithmetic
    operation computes the exact result and rounds it to the nearest
    double, ties to even ([round64]).  The two zeros are identified. *)

Inductive number : Type :=
| NaN
| Infinity (negative : bool)
| Finite (q : Q).

(** [a / d * 2^k] as a fraction of two integers, [d > 0]. *)
Definition scale2 (a d k : Z) : Z * Z :=
  if 0 <=? k then (a * 2 ^ k, d) else (a, d * 2 ^ (- k)).

(** The binary exponent [e] of a positive fraction: [2^e <= a/d < 2^(e+1)]. *)
Definition exponent2 (a d : Z) : Z :=
  let e0 := Z.log2 a - Z.log2 d in
  let '(x, y) := scale2 a d (- e0) in
  if x <? y then e0 - 1 else e0.

(** [n * 2^p] as a reduced rational. *)
Definition times2 (n p : Z) : Q :=
  if 0 <=? p then inject_Z (n * 2 ^ p) else Qred (n # Z.to_pos (2 ^ (- p))).

(** Round half to even of [x / y], [y > 0], [x >= 0]. *)
Definition div_half_even (x y : Z) : Z :=
  let n := x / y in
  let r := x mod y in
  match 2 * r ?= y with
  | Lt => n
  | Gt => n + 1
  | Eq => if Z.even n then n else n + 1
  end.

(** Round a rational to the nearest binary64 value. *)
Definition round64 (q : Q) : number :=
  let q := Qred q in
  let a := Z.abs (Qnum q) in
  let d := Zpos (Qden q) in
  if a =? 0 then Finite 0
  else
    let e := exponent2 a d in
    let p := Z.max e (-1022) - 52 in
    let '(x, y) := scale2 a d (- p) in
    let n := div_half_even x y in
    if 2 ^ 1024 <=? (if 0 <=? p then n * 2 ^ p else 0)
    then Infinity (Qnum q <? 0)
    else Finite (times2 (Z.sgn (Qnum q) * n) p).

Definition isNaN (x : number) : bool :=
  match x with NaN => true | _ => false end.

(** [Number.isFinite] *)
Definition Number_isFinite (x : number) : bool :=
  match x with Finite _ => true | _ => false end.

(** [x + y] *)
Definition add (x y : number) : number :=
  match x, y with
  | NaN, _ | _, NaN => NaN
  | Infinity s, Infinity s' => if Bool.eqb s s' then Infinity s else NaN
  | Infinity s, Finite _ | Finite _, Infinity s => Infinity s
  | Finite a, Finite b => round64 (a + b)
  end.

(** [x * y] *)
Definition mul (x y : number) : number :=
  match x, y with
  | NaN, _ | _, NaN => NaN
  | Infinity s, Infinity s' => Infinity (xorb s s')
  | Infinity s, Finite b | Finite b, Infinity s =>
      match Qnum b ?= 0 with
      | Eq => NaN
      | Lt => Infinity (negb s)
      | Gt => Infinity s
      end
  | Finite a, Finite b => round64 (a * b)
  end.

(** [x / y] *)
Definition div (x y : number) : number :=
  match x, y with
  | NaN, _ | _, NaN => NaN
  | Infinity _, Infinity _ => NaN
  | Infinity s, Finite b => Infinity (xorb s (Qnum b <? 0))
  | Finite _, Infinity _ => Finite 0
  | Finite a, Finite b =>
      match Qnum b ?= 0, Qnum a ?= 0 with
      | Eq, Eq => NaN
      | Eq, Lt => Infinity true
      | Eq, Gt => Infinity false
      | _, _ => round64 (a / b)
      end
  end.

(** [Math.abs] *)
Definition Math_abs (x : number) : number :=
  match x with
  | NaN => NaN
  | Infinity _ => Infinity false
  | Finite q => Finite (Qabs q)
  end.

(** [x === y] on numbers: [NaN] is equal to nothing. *)
Definition strict_eq (x y : number) : bool :=
  match x, y with
  | Finite a, Finite b => Qeq_bool a b
  | Infinity s, Infinity s' => Bool.eqb s s'
  | _, _ => false
  end.

(** [x > y] on numbers: every comparison with [NaN] is false. *)
Definition gt (x y : number) : bool :=
  match x, y with
  | NaN, _ | _, NaN => false
  | Infinity s, Infinity s' => negb s && s'
  | Infinity s, Finite _ => negb s
  | Finite _, Infinity s => s
  | Finite a, Finite b => negb (Qle_bool a b)
  end.

(** The number literal of an integer. *)
Definition ofZ (z : Z) : number := round64 (inject_Z z).

(** ** Strings

    A string is a sequence of code units; this development meets code
    units below 256 only. *)

(** [WhiteSpace] and [LineTerminator] code units below 256: TAB, LF, VT,
    FF, CR, SP and NBSP. *)
Definition isWhiteSpace (c : ascii) : bool :=
  let n := Z.of_nat (nat_of_ascii c) in
  ((9 <=? n) && (n <=? 13)) || (n =? 32) || (n =? 160).

Fixpoint trimStart (s : string) : string :=
  match s with
  | EmptyString => EmptyString
  | String c s' => if isWhiteSpace c then trimStart s' else s
  end.

Fixpoint trimEnd (s : string) : string :=
  match s with
  | EmptyString => EmptyString
  | String c s' =>
      match trimEnd s' with
      | EmptyString => if isWhiteSpace c then EmptyString else String c EmptyString
      | r => String c r
      end
  end.

(** [String.prototype.trim] *)
Definition trim (s : string) : string := trimEnd (trimStart s).

(** [s.replace(/\s+/g, " ")]: every maximal run of white space becomes
    one space.  [in_run] tells that the previous code unit was white
    space, already replaced. *)
Fixpoint collapse_from (in_run : bool) (s : string) : string :=
  match s with
  | EmptyString => EmptyString
  | String c s' =>
      if isWhiteSpace c
      then if in_run then collapse_from true s'
           else String " " (collapse_from true s')
      else String c (collapse_from false s')
  end.

Definition collapse_ws (s : string) : string := collapse_from false s.

(** [s.split(".")[0]]: the part of [s] before its first full stop. *)
Fixpoint before_dot (s : string) : string :=
  match s with
  | EmptyString => EmptyString
  | String c s' => if Ascii.eqb c "." then EmptyString else String c (before_dot s')
  end.

(** A truthy string is a non-empty one. *)
Definition truthy (s : string) : bool :=
  match s with EmptyString => false | _ => true end.

(** ** [Number(string)]: the StringNumericLiteral grammar *)

Definition digit_in (base : Z) (c : ascii) : option Z :=
  let n := Z.of_nat (nat_of_ascii c) in
  let v :=
    if (48 <=? n) && (n <=? 57) then n - 48
    else if (97 <=? n) && (n <=? 102) then n - 87
    else if (65 <=? n) && (n <=? 70) then n - 55
    else 99 in
  if v <? base then Some v else None.

(** The longest prefix of digits of [s] in [base], most significant
    first, and the rest of [s]. *)
Fixpoint span_digits (base : Z) (s : string) : list Z * string :=
  match s with
  | EmptyString => ([], EmptyString)
  | String c s' =>
      match digit_in base c with
      | Some d => let '(ds, r) := span_digits base s' in (d :: ds, r)
      | None => ([], s)
      end
  end.

Definition digits_value (base : Z) (ds : list Z) : Z :=
  fold_left (fun acc d => acc * base + d) ds 0.

(** A leading sign: [(negative, rest)]. *)
Definition span_sign (s : string) : bool * string :=
  match s with
  | String "+" r => (false, r)
  | String "-" r => (true, r)
  | _ => (false, s)
  end.

(** [m * 10^e] *)
Definition times10 (m e : Z) : Q :=
  if 0 <=? e then inject_Z (m * 10 ^ e) else m # Z.to_pos (10 ^ (- e)).

(** ExponentPart, when it is all that is left of the literal. *)
Definition exponent_part (s : string) : option Z :=
  match s with
  | EmptyString => Some 0
  | String c r =>
      if Ascii.eqb c "e" || Ascii.eqb c "E" then
        let '(neg, r1) := span_sign r in
        match span_digits 10 r1 with
        | ((_ :: _) as ds, EmptyString) =>
            Some (if neg then - digits_value 10 ds else digits_value 10 ds)
        | _ => None
        end
      else None
  end.

(** StrUnsignedDecimalLiteral other than [Infinity]: the exact value. *)
Definition unsigned_decimal (s : string) : option Q :=
  let '(ip, r) := span_digits 10 s in
  let '(fp, r1) :=
    match r with
    | String "." r' => span_digits 10 r'
    | _ => ([], r)
    end in
  match ip, fp with
  | [], [] => None
  | _, _ =>
      match exponent_part r1 with
      | Some e =>
          Some (times10 (digits_value 10 (ip ++ fp)%list)
                        (e - Z.of_nat (List.length fp)))
      | None => None
      end
  end.

(** NonDecimalIntegerLiteral: [0x], [0o] and [0b] literals, unsigned. *)
Definition non_decimal (s : string) : option Z :=
  match s with
  | String "0" (String c r) =>
      let base :=
        if Ascii.eqb c "x" || Ascii.eqb c "X" then 16
        else if Ascii.eqb c "o" || Ascii.eqb c "O" then 8
        else if Ascii.eqb c "b" || Ascii.eqb c "B" then 2
        else 0 in
      match span_digits base r with
      | ((_ :: _) as ds, EmptyString) => Some (digits_value base ds)
      | _ => None
      end
  | _ => None
  end.

(** [Number(s)] for a string [s]. *)
Definition StringToNumber (s : string) : number :=
  let t := trim s in
  match t with
  | EmptyString => Finite 0
  | _ =>
      match non_decimal t with
      | Some z => round64 (inject_Z z)
      | None =>
          let '(neg, u) := span_sign t in
          if String.eqb u "Infinity" then Infinity neg
          else
            match unsigned_decimal u with
            | Some q => round64 (if neg then - q else q)
            | None => NaN
            end
      end
  end.

(** ** Primitive values, [x || 0] and [Number(x)]

    The JSON values a field of a mirror-node record can hold, short of
    arrays and objects. *)

Inductive prim : Type :=
| Undefined
| Null
| Bool (b : bool)
| Num (n : number)
| Str (s : string).

(** [ToBoolean] *)
Definition ToBoolean (v : prim) : bool :=
  match v with
  | Undefined | Null => false
  | Bool b => b
  | Num NaN => false
  | Num (Finite q) => negb (Qeq_bool q 0)
  | Num (Infinity _) => true
  | Str s => truthy s
  end.

(** [v || d] *)
Definition or_else (v d : prim) : prim := if ToBoolean v then v else d.

(** [Number(v)] *)
Definition Number (v : prim) : number :=
  match v with
  | Undefined => NaN
  | Null => Finite 0
  | Bool b => if b then Finite 1 else Finite 0
  | Num n => n
  | Str s => StringToNumber s
  end.

(** [Number(x.toFixed(2))]: [x] rounded to two decimals, a tie taking
    the larger magnitude; at [1e21] and above [toFixed] prints [x]
    itself. *)
Definition toFixed2 (x : number) : number :=
  match x with
  | Finite q =>
      if Qle_bool (inject_Z (10 ^ 21)) (Qabs q) then x
      else
        let n := Qfloor (Qabs q * 100 + (1 # 2)) in
        round64 (if Qnum q <? 0 then - (n # 100) else n # 100)
  | _ => x
  end.

(** ** [Date]

    A [Date] holds a time value, milliseconds since the epoch, or is
    invalid ([None]). *)

Definition Date : Type := option Z.

(** [new Date(v)] for a number [v]: [TimeClip]. *)
Definition Date_of (v : number) : Date :=
  match v with
  | Finite q =>
      if Qle_bool (Qabs q) (inject_Z 8640000000000000)
      then Some (if Qnum q <? 0 then - Qfloor (Qabs q) else Qfloor q)
      else None
  | _ => None
  end.

Definition msPerDay : Z := 86400000.

(** Year, month and day of the proleptic Gregorian calendar for a day
    number counted from 1970-01-01. *)
Definition civil_from_days (day : Z) : Z * Z * Z :=
  let z := day + 719468 in
  let era := z / 146097 in
  let doe := z - era * 146097 in
  let yoe := (doe - doe / 1460 + doe / 36524 - doe / 146096) / 365 in
  let doy := doe - (365 * yoe + yoe / 4 - yoe / 100) in
  let mp := (5 * doy + 2) / 153 in
  let d := doy - (153 * mp + 2) / 5 + 1 in
  let m := if mp <? 10 then mp + 3 else mp - 9 in
  let y := yoe + era * 400 + (if m <=? 2 then 1 else 0) in
  (y, m, d).

Definition digit_char (d : Z) : ascii := ascii_of_nat (Z.to_nat (48 + d mod 10)).

(** The last [width] decimal digits of [n >= 0], zero padded. *)
Fixpoint pad (width : nat) (n : Z) : string :=
  match width with
  | O => EmptyString
  | S w => pad w (n / 10) ++ String (digit_char n) EmptyString
  end.

(** The year of an ISO date: four digits from 0 to 9999, otherwise a
    sign and six digits. *)
Definition iso_year (y : Z) : string :=
  if (0 <=? y) && (y <=? 9999) then pad 4 y
  else if y <? 0 then String "-" (pad 6 (- y))
  else String "+" (pad 6 y).

(** [Date.prototype.toISOString] of a valid time value. *)
Definition iso_string (t : Z) : string :=
  let '(y, m, d) := civil_from_days (t / msPerDay) in
  let ms := t mod msPerDay in
  iso_year y ++ "-" ++ pad 2 m ++ "-" ++ pad 2 d ++ "T"
    ++ pad 2 (ms / 3600000) ++ ":" ++ pad 2 (ms / 60000 mod 60) ++ ":"
    ++ pad 2 (ms / 1000 mod 60) ++ "." ++ pad 3 (ms mod 1000) ++ "Z".

(** [s.slice(0, n)] *)
Definition slice0 (n : nat) (s : string) : string := substring 0 n s.

End JS.

(* ================================================================== *)
(** * The program *)
(* ================================================================== *)

Module Sync.
Import JS.

(** ** Mirror-node records

    [{ transaction_id, consensus_timestamp, transfers: [{ account, amount }] }].
    A missing string field is [None]; a missing [amount] is [Undefined];
    a missing [transfers] is the empty list ([tx.transfers || []]).
    The identifiers are strings and an amount is a primitive value, as
    in the JSON of the mirror node. *)

Record TransferEntry : Type := {
  account : option string;
  amount : prim
}.

Record Transaction : Type := {
  transaction_id : option string;
  consensus_timestamp : option string;
  transfers : list TransferEntry
}.

(** ** Accounting-backend requests and response bodies *)

Inductive Entity : Type := Account | Deposit | Transfer.

Record AccountPayload : Type := {
  Name : string;
  AccountType : string;
  AccountSubType : option string
}.

Record DepositLine : Type := {
  line_Amount : number;
  line_DetailType : string;
  line_AccountRef : string   (* DepositLineDetail.AccountRef.value *)
}.

Record DepositPayload : Type := {
  dep_TxnDate : string;
  dep_DepositToAccountRef : string;
  dep_PrivateNote : string;
  dep_Line : list DepositLine
}.

Record TransferPayload : Type := {
  xfer_TxnDate : string;
  xfer_FromAccountRef : string;
  xfer_ToAccountRef : string;
  xfer_Amount : number;
  xfer_PrivateNote : string
}.

(** What [oauthClient.makeApiCall] is asked: the query endpoint, or a
    POST to one of the three create endpoints. *)
Inductive Request : Type :=
| Query (companyRealmId query : string)
| PostAccount (companyRealmId : string) (payload : AccountPayload)
| PostDeposit (companyRealmId : string) (payload : DepositPayload)
| PostTransfer (companyRealmId : string) (payload : TransferPayload).

Record AccountEntity : Type := { acc_Id : string }.

(** A row of a [select Id, PrivateNote ...] answer. *)
Record Candidate : Type := {
  Id : string;
  PrivateNote : option string
}.

Record QueryResponse : Type := {
  qr_Account : option (list AccountEntity);
  qr_Deposit : option (list Candidate);
  qr_Transfer : option (list Candidate)
}.

(** [JSON.parse(r.body)]: the fields of a response body the program
    reads. *)
Record Body : Type := {
  body_Fault : option string;           (* the fault object, as JSON text *)
  body_QueryResponse : option QueryResponse;
  body_Account : option AccountEntity
}.

Inductive error : Type :=
| Error (message : string)
| RangeError (message : string)
| TypeError (message : string).

(** The promise of [makeApiCall] rejects (transport or HTTP failure,
    unparseable body) or resolves with a body. *)
Inductive Reply : Type :=
| Rejects (e : error)
| Resolves (body : Body).

(** The promise of [fetch] rejects, or resolves with [r.ok], [r.status]
    and the [transactions] of [r.json()]. *)
Inductive MirrorReply : Type :=
| FetchRejects (e : error)
| FetchResolves (ok : bool) (status : Z) (transactions : list Transaction).

(** A call that left the process. *)
Inductive Call : Type :=
| ApiCall (r : Request)
| Fetch (hederaId : string) (limit : Z).

(** ** Results of a run *)

Inductive Kind : Type := SKIPPED_MEMORY | SKIPPED_QBO | CREATED.

(** One element of [results]; the fields an object literal leaves out
    are [None]. *)
Record Row : Type := {
  kind : Kind;
  type : option Entity;
  from : option string;
  to : option string;
  hbar : option number;
  txnDate : option string;
  key : string
}.

(** What the route answers: the report built from [results], or status
    500 with the error. *)
Inductive Response : Type :=
| Report (target : string) (results : list Row)
| Status500 (e : error).

(** ** Pure helpers *)

(** [a === s] for a field [a] that may be missing and a string [s]. *)
Definition eqb_opt (a : option string) (s : string) : bool :=
  match a with Some x => String.eqb x s | None => false end.

(** Truthiness of a string field that may be missing. *)
Definition truthy_opt (a : option string) : bool :=
  match a with Some x => truthy x | None => false end.

(** [a || d] *)
Definition opt_or (a : option string) (d : string) : string :=
  match a with
  | Some x => if truthy x then x else d
  | None => d
  end.

Fixpoint replace_char (c : ascii) (by_ : string) (s : string) : string :=
  match s with
  | EmptyString => EmptyString
  | String x s' =>
      if Ascii.eqb x c then by_ ++ replace_char c by_ s'
      else String x (replace_char c by_ s')
  end.

Definition qboEscape (str : string) : string :=
  replace_char "'" "\'" (replace_char "\" "\\" str).

Definition hederaWalletAccountName (hederaId : string) : string :=
  "Hedera " ++ hederaId.

Definition netTinybarFor (tx : Transaction) (hederaId : string) : number :=
  fold_left
    (fun sum t => add sum (Number (or_else (amount t) (Num (Finite 0)))))
    (filter (fun t => eqb_opt (account t) hederaId) (transfers tx))
    (Finite 0).

Record Counterparty : Type := {
  cp_account : option string;
  cp_amount : number
}.

Definition otherAccountsInTransfer (tx : Transaction) (targetId : string)
  : list Counterparty :=
  filter
    (fun t => truthy_opt (cp_account t)
              && negb (eqb_opt (cp_account t) targetId))
    (map (fun t => {| cp_account := account t;
                      cp_amount := Number (or_else (amount t) (Num (Finite 0))) |})
         (transfers tx)).

(** [new Date(v).toISOString().slice(0, 10)] *)
Definition isoDate (v : Date) : error + string :=
  match v with
  | Some t => inr (slice0 10 (iso_string t))
  | None => inl (RangeError "Invalid time value")
  end.

(** [now] is the reading of the clock, [new Date()]. *)
Definition toTxnDateFromConsensus (now : Z) (consensusTs : option string)
  : error + string :=
  match consensusTs with
  | None => isoDate (Some now)
  | Some ts =>
      if negb (truthy ts) then isoDate (Some now)
      else
        let secs := StringToNumber (before_dot ts) in
        if negb (Number_isFinite secs) then isoDate (Some now)
        else isoDate (Date_of (mul secs (Finite 1000)))
  end.

Definition makeIdempotencyKey (tx : Transaction) : string :=
  "hedera:" ++ opt_or (transaction_id tx) EmptyString ++ ":"
            ++ opt_or (consensus_timestamp tx) EmptyString.

(** ** The environment

    [HEDERA_ACCOUNT], [HEDERA_TRACKED_ACCOUNTS] and [MIRROR_NETWORK] are
    the values of the variables of [process.env], [None] when unset. *)

(** [s.split(c)] for a one-character separator. *)
Fixpoint split_on (c : ascii) (s : string) : list string :=
  match s with
  | EmptyString => [EmptyString]
  | String x s' =>
      if Ascii.eqb x c then EmptyString :: split_on c s'
      else
        match split_on c s' with
        | piece :: pieces => String x piece :: pieces
        | [] => [String x EmptyString]
        end
  end.

Definition env_TARGET_HEDERA_ACCOUNT (HEDERA_ACCOUNT : option string) : string :=
  opt_or HEDERA_ACCOUNT "0.0.6856591".

(** [.split(",").map((s) => s.trim()).filter(Boolean)] *)
Definition tracked_list (s : string) : list string :=
  filter truthy (map trim (split_on "," s)).

Definition env_TRACKED_HEDERA_ACCOUNTS
    (HEDERA_TRACKED_ACCOUNTS HEDERA_ACCOUNT : option string) : list string :=
  tracked_list (opt_or HEDERA_TRACKED_ACCOUNTS
                  (env_TARGET_HEDERA_ACCOUNT HEDERA_ACCOUNT)).

Definition env_MIRROR_BASE (MIRROR_NETWORK : option string) : string :=
  if String.eqb (opt_or MIRROR_NETWORK "testnet") "mainnet"
  then "https://mainnet.mirrornode.hedera.com/api/v1"
  else "https://testnet.mirrornode.hedera.com/api/v1".

(** ** The process and the world around it

    [seenKeys], [realmId] and the token of [oauthClient] are module-level
    state of the Node process: they live as long as the process does,
    across requests.  [ext] is everything outside the process (the
    accounting backend, the mirror node); the program reaches it only
    through [api] and [mirror], and [calls] records each call made, oldest
    first. *)

Record Token : Type := { token_realmId : option string }.

Section Program.

Variable Ext : Type.
Variable api : Request -> Ext -> Reply * Ext.
Variable mirror : string -> Z -> Ext -> MirrorReply * Ext.

(** [process.env.HEDERA_ACCOUNT] and the list read from
    [process.env.HEDERA_TRACKED_ACCOUNTS]. *)
Variable TARGET_HEDERA_ACCOUNT : string.
Variable TRACKED_HEDERA_ACCOUNTS : list string.

(** [now] is what [new Date()] reads; the program does not set it. *)
Record World : Type := {
  seenKeys : list string;
  realmId : option string;
  token : option Token;
  now : Z;
  calls : list Call;
  ext : Ext
}.

Definition set_seenKeys (ks : list string) (w : World) : World :=
  {| seenKeys := ks; realmId := realmId w; token := token w; now := now w;
     calls := calls w; ext := ext w |}.

Definition set_realmId (r : option string) (w : World) : World :=
  {| seenKeys := seenKeys w; realmId := r; token := token w; now := now w;
     calls := calls w; ext := ext w |}.

Definition after_call (c : Call) (e : Ext) (w : World) : World :=
  {| seenKeys := seenKeys w; realmId := realmId w; token := token w;
     now := now w; calls := calls w ++ [c]; ext := e |}.

(** A computation either returns or throws; the world it leaves behind
    is kept in both cases. *)
Inductive Result (A : Type) : Type :=
| Ok (a : A)
| Throw (e : error).
Arguments Ok {A} a.
Arguments Throw {A} e.

Definition M (A : Type) : Type := World -> Result A * World.

Definition ret {A} (a : A) : M A := fun w => (Ok a, w).

Definition throw {A} (e : error) : M A := fun w => (Throw e, w).

Definition bind {A C} (m : M A) (k : A -> M C) : M C :=
  fun w =>
    match m w with
    | (Ok a, w') => k a w'
    | (Throw e, w') => (Throw e, w')
    end.

Notation "x <- m ;; k" := (bind m (fun x => k))
  (at level 61, m at next level, right associativity).

Definition lift {A} (r : error + A) : M A :=
  match r with inl e => throw e | inr a => ret a end.

(** [await oauthClient.makeApiCall(...)] and [JSON.parse(r.body)] *)
Definition makeApiCall (r : Request) : M Body :=
  fun w =>
    let '(reply, e) := api r (ext w) in
    let w' := after_call (ApiCall r) e w in
    match reply with
    | Rejects err => (Throw err, w')
    | Resolves body => (Ok body, w')
    end.

(** *** De-dupe cache *)

Definition has (ks : list string) (k : string) : bool :=
  existsb (String.eqb k) ks.

Definition alreadyProcessedInMemory (key : string) : M bool :=
  fun w =>
    if has (seenKeys w) key then (Ok true, w)
    else (Ok false, set_seenKeys (seenKeys w ++ [key]) w).

(** *** Realm helper *)

Definition getCompanyRealmIdOrThrow : M string :=
  fun w =>
    match token w with
    | None => (Throw (Error "Not authenticated (no token)"), w)
    | Some tk =>
        if negb (truthy_opt (token_realmId tk))
        then (Throw (Error "Token missing realmId"), w)
        else
          let t := opt_or (token_realmId tk) EmptyString in
          if truthy_opt (realmId w) && negb (eqb_opt (realmId w) t)
          then (Throw (Error ("Realm mismatch: realmId var="
                              ++ opt_or (realmId w) EmptyString
                              ++ " vs token.realmId=" ++ t
                              ++ ". Re-authorize.")), w)
          else (Ok t, w)
    end.

(** The part of the [/callback] route that touches [seenKeys] and
    [realmId]; the token exchange that follows is not part of this
    development. *)
Definition callback_realm (newRealmId : option string) (w : World) : World :=
  let w1 :=
    if truthy_opt (realmId w) && truthy_opt newRealmId
       && negb (eqb_opt (realmId w) (opt_or newRealmId EmptyString))
    then set_seenKeys [] w else w in
  set_realmId (if truthy_opt newRealmId then newRealmId else None) w1.

(** *** QBO helpers *)

Definition qboQuery (companyRealmId query : string) : M Body :=
  makeApiCall (Query companyRealmId query).

Definition candidates_of (sel : QueryResponse -> option (list Candidate))
    (data : Body) : list Candidate :=
  match body_QueryResponse data with
  | Some qr => match sel qr with Some l => l | None => [] end
  | None => []
  end.

(** The arguments of the two duplicate checks. *)
Record TransferCheck : Type := {
  tc_txnDate : string;
  tc_amount : number;
  tc_fromAccountId : string;
  tc_toAccountId : string;
  tc_key : string
}.

Record DepositCheck : Type := {
  dc_txnDate : string;
  dc_amount : number;
  dc_depositToAccountId : string;
  dc_sourceAccountId : string;
  dc_key : string
}.

Definition LF : string := String (ascii_of_nat 10) EmptyString.

Definition transferQuery (txnDate : string) : string :=
  trim (collapse_ws
    (LF ++ "    select Id,PrivateNote from Transfer" ++
     LF ++ "    where TxnDate='" ++ txnDate ++ "'" ++
     LF ++ "    maxresults 200" ++
     LF ++ "  ")).

Definition depositQuery (txnDate : string) : string :=
  trim (collapse_ws
    (LF ++ "    select Id, PrivateNote from Deposit" ++
     LF ++ "    where TxnDate='" ++ txnDate ++ "'" ++
     LF ++ "    maxresults 200" ++
     LF ++ "  ")).

(** [for (const c of candidates) if (c.PrivateNote === key) return true] *)
Definition anyNoteIs (key : string) (candidates : list Candidate) : bool :=
  existsb (fun c => eqb_opt (PrivateNote c) key) candidates.

Definition qboExistsTransferByKey (companyRealmId : string) (p : TransferCheck)
  : M bool :=
  let amt := toFixed2 (tc_amount p) in
  let query := transferQuery (tc_txnDate p) in
  data <- qboQuery companyRealmId query ;;
  let candidates := candidates_of qr_Transfer data in
  if (List.length candidates =? 0)%nat then ret false
  else ret (anyNoteIs (tc_key p) candidates).

Definition qboExistsDepositByKey (companyRealmId : string) (p : DepositCheck)
  : M bool :=
  let query := depositQuery (dc_txnDate p) in
  data <- qboQuery companyRealmId query ;;
  let candidates := candidates_of qr_Deposit data in
  if (List.length candidates =? 0)%nat then ret false
  else ret (anyNoteIs (dc_key p) candidates).

(** [if (body?.Fault) throw new Error(JSON.stringify(body.Fault))] *)
Definition throwOnFault (body : Body) : M unit :=
  match body_Fault body with
  | Some f => throw (Error f)
  | None => ret tt
  end.

Definition getOrCreateQboAccount (companyRealmId : string) (p : AccountPayload)
  : M string :=
  let safeName := qboEscape (Name p) in
  let findQuery :=
    "select * from Account where Name='" ++ safeName ++ "' maxresults 1" in
  foundData <- qboQuery companyRealmId findQuery ;;
  let found :=
    match body_QueryResponse foundData with
    | Some qr => match qr_Account qr with Some l => hd_error l | None => None end
    | None => None
    end in
  match found with
  | Some (Build_AccountEntity (String _ _ as id)) => ret id
  | _ =>
      body <- makeApiCall (PostAccount companyRealmId p) ;;
      _ <- throwOnFault body ;;
      match body_Account body with
      | Some a => ret (acc_Id a)
      | None => throw (TypeError "Cannot read properties of undefined")
      end
  end.

Definition getOrCreateWalletBankAccount (companyRealmId hederaId : string)
  : M string :=
  getOrCreateQboAccount companyRealmId
    {| Name := hederaWalletAccountName hederaId;
       AccountType := "Bank"; AccountSubType := None |}.

Definition getOrCreateClearingAccount (companyRealmId : string) : M string :=
  getOrCreateQboAccount companyRealmId
    {| Name := "Hedera Clearing";
       AccountType := "Income"; AccountSubType := None |}.

Definition getOrCreateExternalOutflowBank (companyRealmId : string) : M string :=
  getOrCreateQboAccount companyRealmId
    {| Name := "External Hedera Outflow";
       AccountType := "Bank"; AccountSubType := None |}.

Definition createQboDeposit
    (companyRealmId depositToAccountId sourceAccountId : string)
    (amount : number) (privateNoteKey txnDate : string) : M Body :=
  let payload :=
    {| dep_TxnDate := txnDate;
       dep_DepositToAccountRef := depositToAccountId;
       dep_PrivateNote := privateNoteKey;
       dep_Line := [ {| line_Amount := toFixed2 amount;
                        line_DetailType := "DepositLineDetail";
                        line_AccountRef := sourceAccountId |} ] |} in
  body <- makeApiCall (PostDeposit companyRealmId payload) ;;
  _ <- throwOnFault body ;;
  ret body.

Definition createQboTransfer
    (companyRealmId fromAccountId toAccountId : string)
    (amount : number) (privateNoteKey txnDate : string) : M Body :=
  let payload :=
    {| xfer_TxnDate := txnDate;
       xfer_FromAccountRef := fromAccountId;
       xfer_ToAccountRef := toAccountId;
       xfer_Amount := toFixed2 amount;
       xfer_PrivateNote := privateNoteKey |} in
  body <- makeApiCall (PostTransfer companyRealmId payload) ;;
  _ <- throwOnFault body ;;
  ret body.

(** *** Hedera helpers *)

Definition show_Z (z : Z) : string := NilZero.string_of_int (Z.to_int z).

Definition fetchMirrorTransactionsForAccount (hederaId : string) (limit : Z)
  : M (list Transaction) :=
  fun w =>
    let '(reply, e) := mirror hederaId limit (ext w) in
    let w' := after_call (Fetch hederaId limit) e w in
    match reply with
    | FetchRejects err => (Throw err, w')
    | FetchResolves ok status transactions =>
        if negb ok then (Throw (Error ("Mirror node HTTP " ++ show_Z status)), w')
        else (Ok transactions, w')
    end.

(** *** The [/syncHederaToQbo] route *)

(** The constants of one run, set before the loop. *)
Record Run : Type := {
  companyRealmId : string;
  target : string;
  targetWalletId : string;
  clearingId : string;
  externalOutflowId : string
}.

(** [TRACKED_HEDERA_ACCOUNTS.includes(a)] *)
Definition includes (l : list string) (a : option string) : bool :=
  match a with Some x => existsb (String.eqb x) l | None => false end.

(** [others.find(a => TRACKED_HEDERA_ACCOUNTS.includes(a))]; [None] is
    [undefined]. *)
Definition findTracked (others : list (option string)) : option string :=
  match find (includes TRACKED_HEDERA_ACCOUNTS) others with
  | Some a => a
  | None => None
  end.

(** [results.push(r)] *)
Definition push (results : list Row) (r : Row) : list Row :=
  (results ++ [r])%list.

(** The branch [if (net > 0)] of the loop body: duplicate check, then
    the deposit. *)
Definition inbound (run : Run) (results : list Row) (hbar_ : number)
    (txnDate_ key_ : string) : M (list Row) :=
  exists_ <- qboExistsDepositByKey (companyRealmId run)
               {| dc_txnDate := txnDate_; dc_amount := hbar_;
                  dc_depositToAccountId := targetWalletId run;
                  dc_sourceAccountId := clearingId run;
                  dc_key := key_ |} ;;
  if exists_ : bool then
    ret (push results {| kind := SKIPPED_QBO; type := Some Deposit;
                         from := None; to := None; hbar := None;
                         txnDate := None; key := key_ |})
  else
    _ <- createQboDeposit (companyRealmId run) (targetWalletId run)
           (clearingId run) hbar_ key_ txnDate_ ;;
    ret (push results {| kind := CREATED; type := Some Deposit;
                         from := None; to := Some (target run);
                         hbar := Some hbar_; txnDate := Some txnDate_;
                         key := key_ |}).

(** Its [else] branch: destination account, duplicate check, then the
    transfer. *)
Definition outbound (run : Run) (tx : Transaction) (results : list Row)
    (hbar_ : number) (txnDate_ key_ : string) : M (list Row) :=
  let others := map cp_account (otherAccountsInTransfer tx (target run)) in
  let toTracked := findTracked others in
  toAccountId <-
    (if truthy_opt toTracked
     then getOrCreateWalletBankAccount (companyRealmId run)
            (opt_or toTracked EmptyString)
     else ret (externalOutflowId run)) ;;
  exists_ <- qboExistsTransferByKey (companyRealmId run)
               {| tc_txnDate := txnDate_; tc_amount := hbar_;
                  tc_fromAccountId := targetWalletId run;
                  tc_toAccountId := toAccountId;
                  tc_key := key_ |} ;;
  if exists_ : bool then
    ret (push results {| kind := SKIPPED_QBO; type := Some Transfer;
                         from := None; to := None; hbar := None;
                         txnDate := None; key := key_ |})
  else
    _ <- createQboTransfer (companyRealmId run) (targetWalletId run)
           toAccountId hbar_ key_ txnDate_ ;;
    ret (push results {| kind := CREATED; type := Some Transfer;
                         from := Some (target run);
                         to := Some (opt_or toTracked "External Wallet");
                         hbar := Some hbar_; txnDate := Some txnDate_;
                         key := key_ |}).

(** The body of [for (const tx of txs)]; [continue] hands [results]
    on to the next iteration. *)
Definition processTx (run : Run) (tx : Transaction) (results : list Row)
  : M (list Row) :=
  let net := netTinybarFor tx (target run) in
  if strict_eq net (Finite 0) then ret results
  else
    let hbar_ := div (Math_abs net) (Finite 100000000) in
    txnDate_ <- (fun w => lift (toTxnDateFromConsensus (now w)
                                  (consensus_timestamp tx)) w) ;;
    let key_ := makeIdempotencyKey tx in
    seen <- alreadyProcessedInMemory key_ ;;
    if seen : bool then
      ret (push results {| kind := SKIPPED_MEMORY; type := None; from := None;
                           to := None; hbar := None; txnDate := None;
                           key := key_ |})
    else if gt net (Finite 0) then inbound run results hbar_ txnDate_ key_
    else outbound run tx results hbar_ txnDate_ key_.

(** [for (const tx of txs) { ... }] *)
Fixpoint syncLoop (run : Run) (txs : list Transaction) (results : list Row)
  : M (list Row) :=
  match txs with
  | [] => ret results
  | tx :: rest =>
      results' <- processTx run tx results ;;
      syncLoop run rest results'
  end.

(** The statements before the loop: realm, the three ledger accounts,
    the page of transactions. *)
Definition syncSetup (query_account : option string)
  : M (Run * list Transaction) :=
  realm <- getCompanyRealmIdOrThrow ;;
  let target_ := trim (opt_or query_account TARGET_HEDERA_ACCOUNT) in
  targetWalletId_ <- getOrCreateWalletBankAccount realm target_ ;;
  clearingId_ <- getOrCreateClearingAccount realm ;;
  externalOutflowId_ <- getOrCreateExternalOutflowBank realm ;;
  txs <- fetchMirrorTransactionsForAccount target_ 25 ;;
  ret ({| companyRealmId := realm; target := target_;
          targetWalletId := targetWalletId_; clearingId := clearingId_;
          externalOutflowId := externalOutflowId_ |}, txs).

(** The handler: one [try] around everything, [catch] answers 500. *)
Definition syncHederaToQbo (query_account : option string)
  : World -> Response * World :=
  fun w =>
    match (st <- syncSetup query_account ;;
           results <- syncLoop (fst st) (snd st) [] ;;
           ret (Report (target (fst st)) results)) w with
    | (Ok r, w') => (r, w')
    | (Throw e, w') => (Status500 e, w')
    end.

(** The two counters of the report. *)
Definition createdCount (results : list Row) : nat :=
  List.length (filter (fun r => match kind r with CREATED => true | _ => false end)
                 results).

Definition skippedCount (results : list Row) : nat :=
  List.length (filter (fun r => match kind r with CREATED => false | _ => true end)
                 results).

(** *** The list routes

    Each answers a page built from the entities of one query, or status
    500 with the error.  A page is kept as the list it is built from,
    with the fields [Body] has. *)

Inductive Page : Type :=
| AccountsPage (accounts : list AccountEntity)
| TransfersPage (transfers : list Candidate)
| DepositsPage (deposits : list Candidate)
| ErrorPage (e : error).

(** [try { ... res.send(page) } catch (e) { res.status(500).send(...) }] *)
Definition answer (m : M Page) : World -> Page * World :=
  fun w =>
    match m w with
    | (Ok page, w') => (page, w')
    | (Throw e, w') => (ErrorPage e, w')
    end.

Definition listAccountsQuery : string :=
  "select * from Account order by MetaData.CreateTime desc maxresults 200".

Definition listTransfersQuery : string :=
  "select * from Transfer order by MetaData.CreateTime desc maxresults 50".

Definition listDepositsQuery : string :=
  "select * from Deposit order by MetaData.CreateTime desc maxresults 50".

Definition listAccounts : World -> Page * World :=
  answer
    (companyRealmId <- getCompanyRealmIdOrThrow ;;
     data <- qboQuery companyRealmId listAccountsQuery ;;
     ret (AccountsPage
            match body_QueryResponse data with
            | Some qr => match qr_Account qr with Some l => l | None => [] end
            | None => []
            end)).

Definition listTransfers : World -> Page * World :=
  answer
    (companyRealmId <- getCompanyRealmIdOrThrow ;;
     data <- qboQuery companyRealmId listTransfersQuery ;;
     ret (TransfersPage (candidates_of qr_Transfer data))).

Definition listDeposits : World -> Page * World :=
  answer
    (companyRealmId <- getCompanyRealmIdOrThrow ;;
     data <- qboQuery companyRealmId listDepositsQuery ;;
     ret (DepositsPage (candidates_of qr_Deposit data))).

End Program.

Arguments Ok {A} a.
Arguments Throw {A} e.
Arguments seenKeys {Ext} w.
Arguments realmId {Ext} w.
Arguments token {Ext} w.
Arguments now {Ext} w.
Arguments calls {Ext} w.
Arguments ext {Ext} w.
Arguments set_seenKeys {Ext} ks w.
Arguments set_realmId {Ext} r w.
Arguments after_call {Ext} c e w.
Arguments ret {Ext A} a w.
Arguments throw {Ext A} e w.
Arguments bind {Ext A C} m k w.
Arguments lift {Ext A} r w.
Arguments makeApiCall {Ext} api r w.
Arguments alreadyProcessedInMemory {Ext} key w.
Arguments getCompanyRealmIdOrThrow {Ext} w.
Arguments callback_realm {Ext} newRealmId w.
Arguments qboQuery {Ext} api companyRealmId query w.
Arguments qboExistsTransferByKey {Ext} api companyRealmId p w.
Arguments qboExistsDepositByKey {Ext} api companyRealmId p w.
Arguments throwOnFault {Ext} body w.
Arguments getOrCreateQboAccount {Ext} api companyRealmId p w.
Arguments getOrCreateWalletBankAccount {Ext} api companyRealmId hederaId w.
Arguments getOrCreateClearingAccount {Ext} api companyRealmId w.
Arguments getOrCreateExternalOutflowBank {Ext} api companyRealmId w.
Arguments createQboDeposit {Ext} api companyRealmId depositToAccountId
  sourceAccountId amount privateNoteKey txnDate w.
Arguments createQboTransfer {Ext} api companyRealmId fromAccountId
  toAccountId amount privateNoteKey txnDate w.
Arguments fetchMirrorTransactionsForAccount {Ext} mirror hederaId limit w.
Arguments inbound {Ext} api run results hbar_ txnDate_ key_ w.
Arguments outbound {Ext} api TRACKED_HEDERA_ACCOUNTS run tx results hbar_
  txnDate_ key_ w.
Arguments processTx {Ext} api TRACKED_HEDERA_ACCOUNTS run tx results w.
Arguments syncLoop {Ext} api TRACKED_HEDERA_ACCOUNTS run txs results w.
Arguments syncSetup {Ext} api mirror TARGET_HEDERA_ACCOUNT query_account w.
Arguments syncHederaToQbo {Ext} api mirror TARGET_HEDERA_ACCOUNT
  TRACKED_HEDERA_ACCOUNTS query_account w.
Arguments answer {Ext} m w.
Arguments listAccounts {Ext} api w.
Arguments listTransfers {Ext} api w.
Arguments listDeposits {Ext} api w.

(** ** A backend to run the program against

    An accounting backend that stores what is posted and answers the
    three kinds of query the program sends; it answers a create with a
    fault when the note of the record is listed in [sim_faulty].  The
    mirror node serves [sim_txs]. *)

Record Sim : Type := {
  sim_accounts : list (string * string);       (* Name, Id *)
  sim_deposits : list DepositPayload;
  sim_transfers : list TransferPayload;
  sim_faulty : list string;
  sim_txs : list Transaction
}.

Definition noBody : Body :=
  {| body_Fault := None; body_QueryResponse := None; body_Account := None |}.

Definition findAccountQuery (name : string) : string :=
  "select * from Account where Name='" ++ qboEscape name ++ "' maxresults 1".

Definition sim_api (r : Request) (s : Sim) : Reply * Sim :=
  match r with
  | Query _ q =>
      let accs := filter (fun a => String.eqb q (findAccountQuery (fst a)))
                         (sim_accounts s) in
      let deps := filter (fun d => String.eqb q (depositQuery (dep_TxnDate d)))
                         (sim_deposits s) in
      let xfers := filter (fun t => String.eqb q (transferQuery (xfer_TxnDate t)))
                          (sim_transfers s) in
      (Resolves
         {| body_Fault := None;
            body_QueryResponse := Some
              {| qr_Account :=
                   match accs with
                   | [] => None
                   | a :: _ => Some [ {| acc_Id := snd a |} ]
                   end;
                 qr_Deposit :=
                   match deps with
                   | [] => None
                   | _ => Some (map (fun d => {| Id := "D"; PrivateNote := Some (dep_PrivateNote d) |})
                                    (firstn 200 deps))
                   end;
                 qr_Transfer :=
                   match xfers with
                   | [] => None
                   | _ => Some (map (fun t => {| Id := "T"; PrivateNote := Some (xfer_PrivateNote t) |})
                                    (firstn 200 xfers))
                   end |};
            body_Account := None |}, s)
  | PostAccount _ p =>
      let id := "acct-" ++ Name p in
      (Resolves {| body_Fault := None; body_QueryResponse := None;
                   body_Account := Some {| acc_Id := id |} |},
       {| sim_accounts := (sim_accounts s ++ [(Name p, id)])%list;
          sim_deposits := sim_deposits s; sim_transfers := sim_transfers s;
          sim_faulty := sim_faulty s; sim_txs := sim_txs s |})
  | PostDeposit _ p =>
      if existsb (String.eqb (dep_PrivateNote p)) (sim_faulty s)
      then (Resolves {| body_Fault := Some "{ValidationFault}";
                        body_QueryResponse := None; body_Account := None |}, s)
      else (Resolves noBody,
            {| sim_accounts := sim_accounts s;
               sim_deposits := (sim_deposits s ++ [p])%list;
               sim_transfers := sim_transfers s;
               sim_faulty := sim_faulty s; sim_txs := sim_txs s |})
  | PostTransfer _ p =>
      if existsb (String.eqb (xfer_PrivateNote p)) (sim_faulty s)
      then (Resolves {| body_Fault := Some "{ValidationFault}";
                        body_QueryResponse := None; body_Account := None |}, s)
      else (Resolves noBody,
            {| sim_accounts := sim_accounts s;
               sim_deposits := sim_deposits s;
               sim_transfers := (sim_transfers s ++ [p])%list;
               sim_faulty := sim_faulty s; sim_txs := sim_txs s |})
  end.

Definition sim_mirror (hederaId : string) (limit : Z) (s : Sim)
  : MirrorReply * Sim :=
  (FetchResolves true 200 (firstn (Z.to_nat limit) (sim_txs s)), s).

(** A freshly started, authorised process in front of an empty
    company. *)
Definition start (faulty : list string) (txs : list Transaction) : World Sim :=
  {| seenKeys := []; realmId := Some "realm-1";
     token := Some {| token_realmId := Some "realm-1" |};
     now := 1767225600000;
     calls := [];
     ext := {| sim_accounts := []; sim_deposits := []; sim_transfers := [];
               sim_faulty := faulty; sim_txs := txs |} |}.

(** The route against this backend. *)
Definition simSync (tracked : list string) (account : string)
  : World Sim -> Response * World Sim :=
  syncHederaToQbo sim_api sim_mirror account tracked (Some account).

End Sync.

Import JS Sync.

(* ================================================================== *)
(** * Vocabulary of the properties and sample data *)
(* ================================================================== *)

(** [s] holds the code unit [c]. *)
Fixpoint occurs (c : ascii) (s : string) : bool :=
  match s with
  | EmptyString => false
  | String x s' => Ascii.eqb x c || occurs c s'
  end.

(** No code unit of [s] is white space. *)
Fixpoint noWhiteSpace (s : string) : bool :=
  match s with
  | EmptyString => true
  | String x s' => negb (isWhiteSpace x) && noWhiteSpace s'
  end.

(** A decimal digit. *)
Definition isDigit (c : ascii) : bool :=
  let n := Z.of_nat (nat_of_ascii c) in (48 <=? n) && (n <=? 57).

Fixpoint allDigits (s : string) : bool :=
  match s with
  | EmptyString => true
  | String c s' => isDigit c && allDigits s'
  end.

(** The value of the decimal digits [s] starts with. *)
Definition decimalValue (s : string) : Z :=
  digits_value 10 (fst (span_digits 10 s)).

(** The pair a key is derived from, a missing field read as empty. *)
Definition keyFields (tx : Transaction) : string * string :=
  (opt_or (transaction_id tx) EmptyString,
   opt_or (consensus_timestamp tx) EmptyString).

(** The entries of [tx] that [netTinybarFor] adds up. *)
Definition entriesOf (tx : Transaction) (hederaId : string) : list TransferEntry :=
  filter (fun t => eqb_opt (account t) hederaId) (transfers tx).

(** The tinybar amount of a well-formed entry: an integer, or nothing
    at all. *)
Definition tinybar (v : prim) : option Z :=
  match v with
  | Undefined | Null => Some 0
  | Num (Finite (z # 1)) => Some z
  | _ => None
  end.

Definition sumZ (zs : list Z) : Z := fold_right Z.add 0 zs.

Definition sumAbs (zs : list Z) : Z := fold_right (fun z s => Z.abs z + s) 0 zs.

(** *** Sample transactions *)

(** The fresh deposit of the scenarios: 5 hbar into 0.0.100. *)
Definition txDeposit : Transaction :=
  {| transaction_id := Some "0.0.1-1-1";
     consensus_timestamp := Some "1700000000.0";
     transfers := [ {| account := Some "0.0.100";
                       amount := Num (Finite 500000000) |} ] |}.

(** 3 hbar from 0.0.100 to 0.0.200. *)
Definition txTransfer : Transaction :=
  {| transaction_id := Some "0.0.1-1-2";
     consensus_timestamp := Some "1700000001.0";
     transfers := [ {| account := Some "0.0.100";
                       amount := Num (Finite (-300000000)) |};
                    {| account := Some "0.0.200";
                       amount := Num (Finite 300000000) |} ] |}.

(** Two transactions whose fields differ and whose keys coincide. *)
Definition txColonA : Transaction :=
  {| transaction_id := Some "a:b"; consensus_timestamp := Some "c";
     transfers := [] |}.

Definition txColonB : Transaction :=
  {| transaction_id := Some "a"; consensus_timestamp := Some "b:c";
     transfers := [] |}.

(** An entry whose amount is not a numeral. *)
Definition txBadAmount : Transaction :=
  {| transaction_id := Some "0.0.1-1-3";
     consensus_timestamp := Some "1700000002.0";
     transfers := [ {| account := Some "0.0.100"; amount := Str "abc" |} ] |}.

(** A second deposit, 1 hbar. *)
Definition txDeposit2 : Transaction :=
  {| transaction_id := Some "0.0.1-1-4";
     consensus_timestamp := Some "1700000003.0";
     transfers := [ {| account := Some "0.0.100";
                       amount := Num (Finite 100000000) |} ] |}.

(** Entries of the target that cancel out. *)
Definition txStill : Transaction :=
  {| transaction_id := Some "0.0.1-1-5";
     consensus_timestamp := Some "1700000004.0";
     transfers := [ {| account := Some "0.0.100"; amount := Num (Finite 7) |};
                    {| account := Some "0.0.100"; amount := Num (Finite (-7)) |};
                    {| account := Some "0.0.300"; amount := Num (Finite 7) |} ] |}.


(** *** Sample runs against the simulated backend *)

Definition tracked : list string := ["0.0.100"; "0.0.200"].

Definition realm1 : string := "realm-1".

(** The constants the setup of a run for 0.0.100 arrives at. *)
Definition sampleRun : Run :=
  {| companyRealmId := realm1; target := "0.0.100";
     targetWalletId := "acct-Hedera 0.0.100";
     clearingId := "acct-Hedera Clearing";
     externalOutflowId := "acct-External Hedera Outflow" |}.

(** The value of a computation that returned, else a default. *)
Definition valueOr {A : Type} (d : A) (r : Result A) : A :=
  match r with Ok a => a | Throw _ => d end.

(** Two runs in a row over the same two transactions. *)
Definition firstRun : Response * World Sim :=
  simSync tracked "0.0.100" (start [] [txDeposit; txTransfer]).

Definition secondRun : Response * World Sim :=
  simSync tracked "0.0.100" (snd firstRun).

(** The second run in a process that has lost [seenKeys]. *)
Definition secondRunFresh : Response * World Sim :=
  simSync tracked "0.0.100" (set_seenKeys [] (snd firstRun)).

(** A run in which the backend rejects the deposit of the second of
    three transactions. *)
Definition failingRun : Response * World Sim :=
  simSync tracked "0.0.100"
    (start [makeIdempotencyKey txDeposit] [txTransfer; txDeposit; txDeposit2]).

(** The run that follows it in the same process. *)
Definition retryRun : Response * World Sim :=
  simSync tracked "0.0.100" (snd failingRun).

(** A backend that answers from a list of prepared replies. *)
Definition script_api (r : Request) (s : list Reply) : Reply * list Reply :=
  match s with
  | [] => (Rejects (Error "no reply left"), [])
  | x :: s' => (x, s')
  end.

Definition script_world (replies : list Reply) : World (list Reply) :=
  {| seenKeys := []; realmId := None; token := None; now := 1767225600000;
     calls := []; ext := replies |}.

(** A response body that carries only a fault, as the backend sends
    with HTTP 200 for a query it cannot run. *)
Definition faultBody : Body :=
  {| body_Fault := Some "{QueryParserError}";
     body_QueryResponse := None; body_Account := None |}.

Definition depositCheck : DepositCheck :=
  {| dc_txnDate := "2023-11-14"; dc_amount := Finite 5;
     dc_depositToAccountId := "1"; dc_sourceAccountId := "2";
     dc_key := "hedera:0.0.1-1-1:1700000000.0" |}.

Definition transferCheck : TransferCheck :=
  {| tc_txnDate := "2023-11-14"; tc_amount := Finite 3;
     tc_fromAccountId := "1"; tc_toAccountId := "3";
     tc_key := "hedera:0.0.1-1-2:1700000001.0" |}.

(** A Transfer check for the key of the sample deposit. *)
Definition transferCheckOfDeposit : TransferCheck :=
  {| tc_txnDate := "2023-11-14"; tc_amount := Finite 5;
     tc_fromAccountId := "1"; tc_toAccountId := "3";
     tc_key := "hedera:0.0.1-1-1:1700000000.0" |}.

(** *** Observing a computation *)

Section Observing.

Variable Ext : Type.
Variable api : Request -> Ext -> Reply * Ext.

(** [k] is in [seenKeys]. *)
Definition seen (w : World Ext) (k : string) : Prop :=
  has (seenKeys w) k = true.

(** [l] are the calls made from [w] to [w']. *)
Definition made (w w' : World Ext) (l : list Call) : Prop :=
  calls w' = (calls w ++ l)%list.

(** From any world, [m] makes only calls that satisfy [P], forgets no
    seen key, leaves the clock alone, and returns only values that
    satisfy [Q]. *)
Definition Spec {A : Type} (P : Call -> Prop) (Q : A -> Prop) (m : M Ext A)
  : Prop :=
  forall w res w', m w = (res, w') ->
    (exists l, made w w' l /\ Forall P l)
    /\ (forall k, seen w k -> seen w' k)
    /\ now w' = now w
    /\ (forall a, res = Ok a -> Q a).

(** The calls of the find-or-create of the ledger account [name]. *)
Definition accountCall (realm name : string) (c : Call) : Prop :=
  match c with
  | ApiCall (Query r q) => r = realm /\ q = findAccountQuery name
  | ApiCall (PostAccount r p) => r = realm /\ Name p = name
  | _ => False
  end.

(** [id] is what the find-or-create of the wallet account of [hederaId]
    returned. *)
Definition walletIdOf (realm hederaId id : string) : Prop :=
  exists w w', getOrCreateWalletBankAccount api realm hederaId w = (Ok id, w').

(** [Math.abs(net) / 100_000_000] for the net movement of [tx]. *)
Definition hbarOf (run : Run) (tx : Transaction) : number :=
  div (Math_abs (netTinybarFor tx (target run))) (Finite 100000000).

(** The record the program posts for an inbound [tx]: into the wallet
    account of the target, one line from the clearing account. *)
Definition depositPayload (run : Run) (tx : Transaction) (d : string)
  : DepositPayload :=
  {| dep_TxnDate := d;
     dep_DepositToAccountRef := targetWalletId run;
     dep_PrivateNote := makeIdempotencyKey tx;
     dep_Line := [ {| line_Amount := toFixed2 (hbarOf run tx);
                      line_DetailType := "DepositLineDetail";
                      line_AccountRef := clearingId run |} ] |}.

(** The record the program posts for an outbound [tx]: from the wallet
    account of the target to [toId]. *)
Definition transferPayload (run : Run) (tx : Transaction) (d toId : string)
  : TransferPayload :=
  {| xfer_TxnDate := d;
     xfer_FromAccountRef := targetWalletId run;
     xfer_ToAccountRef := toId;
     xfer_Amount := toFixed2 (hbarOf run tx);
     xfer_PrivateNote := makeIdempotencyKey tx |}.

Definition skippedMemoryRow (tx : Transaction) : Row :=
  {| kind := SKIPPED_MEMORY; type := None; from := None; to := None;
     hbar := None; txnDate := None; key := makeIdempotencyKey tx |}.

Definition skippedQboRow (ty : Entity) (tx : Transaction) : Row :=
  {| kind := SKIPPED_QBO; type := Some ty; from := None; to := None;
     hbar := None; txnDate := None; key := makeIdempotencyKey tx |}.

Definition createdDepositRow (run : Run) (tx : Transaction) (d : string) : Row :=
  {| kind := CREATED; type := Some Deposit; from := None;
     to := Some (target run); hbar := Some (hbarOf run tx);
     txnDate := Some d; key := makeIdempotencyKey tx |}.

Definition createdTransferRow (run : Run) (tx : Transaction) (d : string)
    (toTracked : option string) : Row :=
  {| kind := CREATED; type := Some Transfer; from := Some (target run);
     to := Some (opt_or toTracked "External Wallet");
     hbar := Some (hbarOf run tx); txnDate := Some d;
     key := makeIdempotencyKey tx |}.

(** The first entry of a transaction, in list order, whose account is
    non-empty, is not the target and is tracked; the amounts are not
    looked at. *)
Fixpoint firstTrackedCounterparty (tracked : list string) (target : string)
    (entries : list TransferEntry) : option string :=
  match entries with
  | [] => None
  | t :: rest =>
      match account t with
      | Some a =>
          if truthy a && negb (String.eqb a target)
             && existsb (String.eqb a) tracked
          then Some a
          else firstTrackedCounterparty tracked target rest
      | None => firstTrackedCounterparty tracked target rest
      end
  end.

(** The ledger account an outbound [tx] is booked to. *)
Definition destinationIs (tracked : list string) (run : Run) (tx : Transaction)
    (toId : string) : Prop :=
  match firstTrackedCounterparty tracked (target run) (transfers tx) with
  | Some a => walletIdOf (companyRealmId run) a toId
  | None => toId = externalOutflowId run
  end.

(** Resolving that account: the wallet account of the first tracked
    counterparty, found or created, or else the external-outflow
    account. *)
Definition destination (tracked : list string) (run : Run) (tx : Transaction)
  : M Ext string :=
  match firstTrackedCounterparty tracked (target run) (transfers tx) with
  | Some a => getOrCreateWalletBankAccount api (companyRealmId run) a
  | None => ret (externalOutflowId run)
  end.

(** The calls of the inbound branch: the Deposit duplicate query and
    the creation of the Deposit. *)
Definition depositCall (run : Run) (tx : Transaction) (c : Call) : Prop :=
  match c with
  | ApiCall (Query r q) => r = companyRealmId run /\ exists d, q = depositQuery d
  | ApiCall (PostDeposit r p) =>
      r = companyRealmId run /\ exists d, p = depositPayload run tx d
  | _ => False
  end.

(** The calls of the outbound branch: the find-or-create of the wallet
    account of the tracked counterparty, the Transfer duplicate query
    and the creation of the Transfer. *)
Definition transferCall (tracked : list string) (run : Run) (tx : Transaction)
    (c : Call) : Prop :=
  match c with
  | ApiCall (Query r q) =>
      r = companyRealmId run
      /\ ((exists d, q = transferQuery d)
          \/ exists a,
               firstTrackedCounterparty tracked (target run) (transfers tx) = Some a
               /\ q = findAccountQuery (hederaWalletAccountName a))
  | ApiCall (PostAccount r p) =>
      r = companyRealmId run
      /\ exists a,
           firstTrackedCounterparty tracked (target run) (transfers tx) = Some a
           /\ Name p = hederaWalletAccountName a
  | ApiCall (PostTransfer r p) =>
      r = companyRealmId run
      /\ exists d toId,
           p = transferPayload run tx d toId /\ destinationIs tracked run tx toId
  | _ => False
  end.

(** The calls that create an accounting record, a Deposit or a
    Transfer. *)
Definition createsRecord (c : Call) : bool :=
  match c with
  | ApiCall (PostDeposit _ _) | ApiCall (PostTransfer _ _) => true
  | _ => false
  end.

(** [net < 0] *)
Definition negative (net : number) : bool := gt (Finite 0) net.

(** [net !== 0], the transactions the loop does not skip. *)
Definition moves (run : Run) (tx : Transaction) : bool :=
  negb (strict_eq (netTinybarFor tx (target run)) (Finite 0)).

(** [m] leaves [seenKeys], the realm, the token and the clock as they
    are. *)
Definition Frame {A : Type} (m : M Ext A) : Prop :=
  forall w res w', m w = (res, w') ->
    seenKeys w' = seenKeys w /\ realmId w' = realmId w
    /\ token w' = token w /\ now w' = now w.

(** The [PrivateNote] of the records a list of calls creates, in
    order. *)
Definition noteOf (c : Call) : option string :=
  match c with
  | ApiCall (PostDeposit _ p) => Some (dep_PrivateNote p)
  | ApiCall (PostTransfer _ p) => Some (xfer_PrivateNote p)
  | _ => None
  end.

Fixpoint notes (l : list Call) : list string :=
  match l with
  | [] => []
  | c :: l' =>
      match noteOf c with
      | Some n => n :: notes l'
      | None => notes l'
      end
  end.

(** [seenKeys] after the guard has looked at [k]. *)
Definition addKey (ks : list string) (k : string) : list string :=
  if has ks k then ks else (ks ++ [k])%list.

(** The session the realm helper accepts: a token with a non-empty
    realm, and a stored realm that is unset or the same. *)
Definition validSession (w : World Ext) (r : string) : Prop :=
  exists tk, token w = Some tk /\ token_realmId tk = Some r
             /\ truthy r = true
             /\ (realmId w = Some r \/ truthy_opt (realmId w) = false).

End Observing.

Arguments seen {Ext} w k.
Arguments made {Ext} w w' l.
Arguments Spec {Ext A} P Q m.
Arguments walletIdOf {Ext} api realm hederaId id.
Arguments destinationIs {Ext} api tracked run tx toId.
Arguments destination {Ext} api tracked run tx w.
Arguments transferCall {Ext} api tracked run tx c.
Arguments Frame {Ext A} m.
Arguments validSession {Ext} w r.

(** Reading a quoted literal whose opening quote is behind: up to the
    first quote that no backslash escapes, a backslash standing for the
    character after it.  The result is the text read and what follows
    the closing quote. *)
Fixpoint readLiteral (s : string) : option (string * string) :=
  match s with
  | EmptyString => None
  | String c r =>
      if Ascii.eqb c "'" then Some (EmptyString, r)
      else if Ascii.eqb c "\"
      then match r with
           | EmptyString => None
           | String c' r' =>
               match readLiteral r' with
               | Some (text, rest) => Some (String c' text, rest)
               | None => None
               end
           end
      else match readLiteral r with
           | Some (text, rest) => Some (String c text, rest)
           | None => None
           end
  end.

(** The characters of an ISO date and time. *)
Definition isoChar (c : ascii) : bool :=
  isDigit c || Ascii.eqb c "-" || Ascii.eqb c "+" || Ascii.eqb c "T"
  || Ascii.eqb c ":" || Ascii.eqb c "." || Ascii.eqb c "Z".

Fixpoint allIsoChars (s : string) : bool :=
  match s with
  | EmptyString => true
  | String c s' => isoChar c && allIsoChars s'
  end.

(** Sample worlds for the list routes and the setup. *)
Definition loggedOut : World Sim :=
  {| seenKeys := ["k"]; realmId := None; token := None; now := 0;
     calls := []; ext := {| sim_accounts := []; sim_deposits := [];
                            sim_transfers := []; sim_faulty := [];
                            sim_txs := [] |} |}.

(** An authorised process in front of the scripted backend, and a
    mirror node that is down. *)
Definition scriptSession (replies : list Reply) : World (list Reply) :=
  {| seenKeys := ["k"]; realmId := None;
     token := Some {| token_realmId := Some "realm-1" |};
     now := 1767225600000; calls := []; ext := replies |}.

Definition script_mirror (hederaId : string) (limit : Z) (s : list Reply)
  : MirrorReply * list Reply :=
  (FetchRejects (TypeError "fetch failed"), s).

(** A deposit whose timestamp lies one second past the last second a
    [Date] can hold. *)
Definition txFarFuture : Transaction :=
  {| transaction_id := Some "0.0.1-1-7";
     consensus_timestamp := Some "8640000000001.0";
     transfers := [ {| account := Some "0.0.100";
                       amount := Num (Finite 100000000) |} ] |}.

(** The candidates a reply returns: the entities listed under
    [QueryResponse.Transfer], and under [QueryResponse.Deposit]; none
    when the reply has no such list. *)
Definition returnedTransfers (data : Body) : list Candidate :=
  match body_QueryResponse data with
  | Some {| qr_Transfer := Some l |} => l
  | _ => []
  end.

Definition returnedDeposits (data : Body) : list Candidate :=
  match body_QueryResponse data with
  | Some {| qr_Deposit := Some l |} => l
  | _ => []
  end.

(** [foundData?.QueryResponse?.Account?.[0]] *)
Definition firstAccount (data : Body) : option AccountEntity :=
  match body_QueryResponse data with
  | Some qr => match qr_Account qr with Some l => hd_error l | None => None end
  | None => None
  end.

(** A body whose query response lists the accounts [l]. *)
Definition accountsBody (l : list AccountEntity) : Body :=
  {| body_Fault := None;
     body_QueryResponse :=
       Some {| qr_Account := Some l; qr_Deposit := None; qr_Transfer := None |};
     body_Account := None |}.

(* ================================================================== *)
(** * Numbers: integers up to 2^53 are exact *)
(* ================================================================== *)

Section SafeIntegers.

Lemma Qred_inject_Z (z : Z) : Qred (inject_Z z) = inject_Z z.
Proof. apply Qred_identity. simpl. apply Z.gcd_1_r. Qed.

Lemma exponent2_int (a : Z) : 0 < a -> exponent2 a 1 = Z.log2 a.
Proof.
  intros Ha. unfold exponent2. change (Z.log2 1) with 0. rewrite !Z.sub_0_r.
  pose proof (Z.log2_nonneg a) as Hl.
  pose proof (Z.log2_spec a Ha) as [Hlo _].
  unfold scale2. destruct (0 <=? - Z.log2 a) eqn:E.
  - apply Z.leb_le in E. assert (Z.log2 a = 0) as -> by lia. simpl.
    destruct (a * 1 <? 1) eqn:F; [apply Z.ltb_lt in F; lia | reflexivity].
  - rewrite Z.opp_involutive, Z.mul_1_l.
    destruct (a <? 2 ^ Z.log2 a) eqn:F; [apply Z.ltb_lt in F; lia | reflexivity].
Qed.

Lemma div_half_even_1 (x : Z) : div_half_even x 1 = x.
Proof. unfold div_half_even. rewrite Z.mod_1_r, Z.div_1_r. reflexivity. Qed.

Lemma round64_inject_Z (z : Z) :
  Z.abs z <= 2 ^ 53 -> round64 (inject_Z z) = Finite (inject_Z z).
Proof.
  intros Hz. unfold round64. rewrite Qred_inject_Z.
  cbn [Qnum Qden inject_Z].
  destruct (Z.abs z =? 0) eqn:E0.
  - apply Z.eqb_eq in E0. assert (z = 0) as -> by lia. reflexivity.
  - apply Z.eqb_neq in E0. assert (Ha : 0 < Z.abs z) by lia.
    rewrite (exponent2_int _ Ha).
    pose proof (Z.log2_nonneg (Z.abs z)) as Hl.
    assert (Hl53 : Z.log2 (Z.abs z) <= 53).
    { apply Z.log2_le_mono in Hz. rewrite Z.log2_pow2 in Hz; lia. }
    rewrite Z.max_l by lia.
    set (p := Z.log2 (Z.abs z) - 52).
    assert (Hp : p <= 0 \/ p = 1) by lia.
    destruct Hp as [Hp | Hp].
    + unfold scale2.
      replace (0 <=? - p) with true by (symmetry; apply Z.leb_le; lia).
      rewrite div_half_even_1.
      destruct (0 <=? p) eqn:Ep.
      * apply Z.leb_le in Ep. assert (p = 0) as -> by lia. simpl (- 0).
        rewrite !Z.pow_0_r, !Z.mul_1_r.
        replace (2 ^ 1024 <=? Z.abs z) with false
          by (symmetry; apply Z.leb_gt;
              assert (2 ^ 53 < 2 ^ 1024) by (apply Z.pow_lt_mono_r; lia); lia).
        unfold times2. simpl (0 <=? 0). cbv iota.
        rewrite Z.pow_0_r, Z.mul_1_r, Z.mul_comm, Z.abs_sgn. reflexivity.
      * replace (2 ^ 1024 <=? 0) with false by reflexivity.
        unfold times2. rewrite Ep. f_equal.
        rewrite <- (Qred_inject_Z z). apply Qred_complete.
        unfold Qeq, inject_Z. cbn [Qnum Qden].
        assert (0 < 2 ^ (- p)) by (apply Z.pow_pos_nonneg; lia).
        rewrite Z2Pos.id by lia.
        replace (Z.sgn z * (Z.abs z * 2 ^ (- p)) * 1)
          with ((Z.abs z * Z.sgn z) * 2 ^ (- p)) by ring.
        rewrite Z.abs_sgn. reflexivity.
    + assert (Hz2 : Z.abs z = 2 ^ 53).
      { assert (2 ^ 53 <= Z.abs z); [|lia]. apply Z.log2_le_pow2; lia. }
      rewrite Hp, Hz2. unfold scale2, times2.
      change (0 <=? Z.opp 1) with false. change (0 <=? 1) with true.
      cbv iota beta.
      replace (div_half_even (2 ^ 53) (1 * 2 ^ (Z.opp (Z.opp 1)))) with (2 ^ 52)
        by (vm_compute; reflexivity).
      replace (2 ^ 1024 <=? 2 ^ 52 * 2 ^ 1) with false by (vm_compute; reflexivity).
      replace (Z.sgn z * 2 ^ 52 * 2 ^ 1) with (Z.abs z * Z.sgn z)
        by (rewrite Hz2; ring).
      rewrite Z.abs_sgn. reflexivity.
Qed.

Lemma add_int (a b : Z) :
  Z.abs (a + b) <= 2 ^ 53 ->
  add (Finite (inject_Z a)) (Finite (inject_Z b)) = Finite (inject_Z (a + b)).
Proof.
  intros H. unfold add. rewrite <- inject_Z_plus. apply round64_inject_Z, H.
Qed.

End SafeIntegers.

(* ================================================================== *)
(** * Identity deriver *)
(* ================================================================== *)

Section IdempotencyKey.

Lemma append_colon_inj (a1 a2 b1 b2 : string) :
  occurs ":" a1 = false -> occurs ":" a2 = false ->
  a1 ++ ":" ++ b1 = a2 ++ ":" ++ b2 -> a1 = a2 /\ b1 = b2.
Proof.
  revert a2. induction a1 as [|x a1 IH]; intros [|y a2] H1 H2 E; simpl in *.
  - injection E as E. auto.
  - injection E as Ey _. subst y. simpl in H2. discriminate.
  - injection E as Ex _. subst x. simpl in H1. discriminate.
  - injection E as Exy E. subst y.
    apply orb_false_iff in H1 as [_ H1]. apply orb_false_iff in H2 as [_ H2].
    destruct (IH a2 H1 H2 E) as [-> ->]. auto.
Qed.

(** C4, as stated, fails: two transactions with distinct
    (transaction_id, consensus_timestamp) pairs and one key. *)
Lemma makeIdempotencyKey_collision :
  (transaction_id txColonA, consensus_timestamp txColonA)
    <> (transaction_id txColonB, consensus_timestamp txColonB)
  /\ makeIdempotencyKey txColonA = makeIdempotencyKey txColonB.
Proof. split; [discriminate | reflexivity]. Qed.

(** C4, amended: the key is [hedera:<transaction_id>:<consensus_timestamp>]
    with an empty component for a missing field, it is a function of
    these two fields alone, and two transactions whose transaction ids
    hold no colon and whose field pairs differ have different keys. *)
Theorem makeIdempotencyKey_stable (tx1 tx2 : Transaction) :
  makeIdempotencyKey tx1
    = "hedera:" ++ fst (keyFields tx1) ++ ":" ++ snd (keyFields tx1)
  /\ (keyFields tx1 = keyFields tx2 ->
      makeIdempotencyKey tx1 = makeIdempotencyKey tx2)
  /\ (occurs ":" (fst (keyFields tx1)) = false ->
      occurs ":" (fst (keyFields tx2)) = false ->
      keyFields tx1 <> keyFields tx2 ->
      makeIdempotencyKey tx1 <> makeIdempotencyKey tx2).
Proof.
  unfold makeIdempotencyKey, keyFields; simpl. split; [reflexivity|]. split.
  - intros E. injection E as -> ->. reflexivity.
  - intros H1 H2 N E. apply N.
    repeat (simpl in E; injection E as E).
    destruct (append_colon_inj _ _ _ _ H1 H2 E) as [-> ->]. reflexivity.
Qed.

(** The keys of two sample transactions. *)
Lemma makeIdempotencyKey_stable_witness :
  makeIdempotencyKey txDeposit = "hedera:0.0.1-1-1:1700000000.0"
  /\ makeIdempotencyKey txDeposit <> makeIdempotencyKey txTransfer.
Proof.
  split.
  - reflexivity.
  - apply (makeIdempotencyKey_stable txDeposit txTransfer);
      [reflexivity | reflexivity | discriminate].
Defined.

End IdempotencyKey.

(* ================================================================== *)
(** * Ledger transaction classifier *)
(* ================================================================== *)

Section Classifier.

Lemma contribution_tinybar (v : prim) (z : Z) :
  tinybar v = Some z ->
  Number (or_else v (Num (Finite 0))) = Finite (inject_Z z).
Proof.
  destruct v as [| |b|[| |[n d]]|s]; simpl; try discriminate.
  - intros [= <-]. reflexivity.
  - intros [= <-]. reflexivity.
  - destruct d; try discriminate. intros [= <-].
    unfold or_else, ToBoolean, Qeq_bool. cbn [Qnum Qden].
    destruct (n * 1 =? 0 * 1) eqn:E; simpl.
    + apply Z.eqb_eq in E. assert (n = 0) as -> by lia. reflexivity.
    + reflexivity.
Qed.

Lemma sumAbs_nonneg (zs : list Z) : 0 <= sumAbs zs.
Proof. induction zs; simpl; lia. Qed.

Lemma fold_tinybar (l : list TransferEntry) (zs : list Z) (acc : Z) :
  map (fun t => tinybar (amount t)) l = map Some zs ->
  Z.abs acc + sumAbs zs <= 2 ^ 53 ->
  fold_left (fun sum t => add sum (Number (or_else (amount t) (Num (Finite 0)))))
            l (Finite (inject_Z acc))
  = Finite (inject_Z (acc + sumZ zs)).
Proof.
  revert zs acc. induction l as [|t l IH]; intros [|z zs] acc E B;
    cbn [map fold_left] in *; try discriminate.
  - simpl. rewrite Z.add_0_r. reflexivity.
  - injection E as Et E. pose proof (sumAbs_nonneg zs).
    change (sumAbs (z :: zs)) with (Z.abs z + sumAbs zs) in B.
    change (sumZ (z :: zs)) with (z + sumZ zs).
    rewrite (contribution_tinybar _ _ Et), add_int by lia.
    rewrite IH with (zs := zs) by (assumption || lia).
    f_equal. f_equal. lia.
Qed.

(** On well-formed entries [netTinybarFor] is the integer sum of the
    account's entries; with no entry of the account it is 0. *)
Lemma netTinybarFor_sum (tx : Transaction) (hederaId : string) (zs : list Z) :
  map (fun t => tinybar (amount t)) (entriesOf tx hederaId) = map Some zs ->
  sumAbs zs <= 2 ^ 53 ->
  netTinybarFor tx hederaId = Finite (inject_Z (sumZ zs)).
Proof.
  intros E B. unfold netTinybarFor. fold (entriesOf tx hederaId).
  apply (fold_tinybar _ zs 0 E). simpl. exact B.
Qed.

Lemma netTinybarFor_no_entry (tx : Transaction) (hederaId : string) :
  entriesOf tx hederaId = [] -> netTinybarFor tx hederaId = Finite 0.
Proof. unfold netTinybarFor, entriesOf. intros ->. reflexivity. Qed.

(** C7, at the failing input: an entry of the account whose amount is
    the string [abc] does not contribute 0; it makes the net movement
    [NaN], which is neither [=== 0] nor [> 0], so the run books an
    outbound transfer of amount [NaN] for it. *)
Theorem netTinybarFor_malformed_amount :
  netTinybarFor txBadAmount "0.0.100" = NaN
  /\ exists rows w,
       simSync ["0.0.100"] "0.0.100" (start [] [txBadAmount])
         = (Report "0.0.100" rows, w)
       /\ map (fun r => (kind r, type r, hbar r)) rows
          = [(CREATED, Some Transfer, Some NaN)].
Proof.
  split; [reflexivity|].
  eexists. eexists. split; [vm_compute; reflexivity | reflexivity].
Qed.

End Classifier.

(* ================================================================== *)
(** * Date bucket *)
(* ================================================================== *)

Section TxnDate.

(** The scenario of the specification. *)
Lemma toTxnDateFromConsensus_scenario (now : Z) :
  toTxnDateFromConsensus now (Some "1700000000.0") = inr "2023-11-14".
Proof. reflexivity. Qed.

(** A missing or empty timestamp gives the date of the clock. *)
Lemma toTxnDateFromConsensus_missing (now : Z) :
  toTxnDateFromConsensus now None = inr (slice0 10 (iso_string now))
  /\ toTxnDateFromConsensus now (Some EmptyString)
     = inr (slice0 10 (iso_string now)).
Proof. split; reflexivity. Qed.

(** So does a timestamp whose seconds are not a numeral. *)
Lemma toTxnDateFromConsensus_unparseable (now : Z) (ts : string) :
  truthy ts = true ->
  Number_isFinite (StringToNumber (before_dot ts)) = false ->
  toTxnDateFromConsensus now (Some ts) = inr (slice0 10 (iso_string now)).
Proof.
  intros T F. unfold toTxnDateFromConsensus. rewrite T, F. reflexivity.
Qed.

(** Whether the date can be derived does not depend on the clock. *)
Lemma toTxnDateFromConsensus_clock (now now' : Z) (ts : option string) (d : string) :
  toTxnDateFromConsensus now ts = inr d ->
  exists d', toTxnDateFromConsensus now' ts = inr d'.
Proof.
  unfold toTxnDateFromConsensus, isoDate.
  destruct ts as [ts|]; [|eauto].
  destruct (negb (truthy ts)); [eauto|].
  destruct (negb (Number_isFinite (StringToNumber (before_dot ts)))); [eauto|].
  destruct (Date_of _); [eauto | discriminate].
Qed.

(** Two more inputs the guards let through: seconds made of white space
    read as 0, and a year past 9999 loses its day to the slice. *)
Lemma toTxnDateFromConsensus_edge_cases (now : Z) :
  toTxnDateFromConsensus now (Some " .5") = inr "1970-01-01"
  /\ toTxnDateFromConsensus now (Some "253402300800.0") = inr "+010000-01".
Proof. split; reflexivity. Qed.

(** C8, at the failing input: a timestamp whose seconds are a numeral
    beyond the range of [Date] (8 640 000 000 000 s) passes both guards
    and [toISOString] raises a [RangeError]. *)
Theorem toTxnDateFromConsensus_out_of_range (now : Z) :
  toTxnDateFromConsensus now (Some "8640000000001.0")
  = inl (RangeError "Invalid time value").
Proof. reflexivity. Qed.

End TxnDate.

Section Numerals.

Lemma digit_in_0 (c : ascii) : digit_in 0 c = None.
Proof.
  unfold digit_in. set (n := Z.of_nat (nat_of_ascii c)).
  destruct ((48 <=? n) && (n <=? 57)) eqn:E1.
  - apply andb_true_iff in E1 as [A _]. apply Z.leb_le in A.
    destruct (n - 48 <? 0) eqn:F; [apply Z.ltb_lt in F; lia | reflexivity].
  - destruct ((97 <=? n) && (n <=? 102)) eqn:E2.
    + apply andb_true_iff in E2 as [A _]. apply Z.leb_le in A.
      destruct (n - 87 <? 0) eqn:F; [apply Z.ltb_lt in F; lia | reflexivity].
    + destruct ((65 <=? n) && (n <=? 70)) eqn:E3; [|reflexivity].
      apply andb_true_iff in E3 as [A _]. apply Z.leb_le in A.
      destruct (n - 55 <? 0) eqn:F; [apply Z.ltb_lt in F; lia | reflexivity].
Qed.

Lemma span_digits_0 (s : string) : span_digits 0 s = ([], s).
Proof. destruct s as [|c s]; [reflexivity|]. simpl. rewrite digit_in_0. reflexivity. Qed.

(** What is needed of a decimal digit. *)
Lemma isDigit_facts (c : ascii) :
  isDigit c = true ->
  isWhiteSpace c = false
  /\ (exists v, digit_in 10 c = Some v)
  /\ Ascii.eqb c "." = false
  /\ (Ascii.eqb c "x" || Ascii.eqb c "X") = false
  /\ (Ascii.eqb c "o" || Ascii.eqb c "O") = false
  /\ (Ascii.eqb c "b" || Ascii.eqb c "B") = false
  /\ (forall r, span_sign (String c r) = (false, String c r))
  /\ (forall r, String.eqb (String c r) "Infinity" = false).
Proof.
  destruct c as [[|] [|] [|] [|] [|] [|] [|] [|]]; intros H;
    try discriminate H;
    (repeat split; try reflexivity; eexists; reflexivity).
Qed.

Lemma allDigits_noWhiteSpace (s : string) :
  allDigits s = true -> noWhiteSpace s = true.
Proof.
  induction s as [|c s IH]; [reflexivity|]. simpl.
  intros H. apply andb_true_iff in H as [Hc Hs].
  destruct (isDigit_facts c Hc) as (W & _). rewrite W, (IH Hs). reflexivity.
Qed.

Lemma trimEnd_noWhiteSpace (s : string) : noWhiteSpace s = true -> trimEnd s = s.
Proof.
  induction s as [|c s IH]; [reflexivity|]. simpl.
  intros H. apply andb_true_iff in H as [Hc Hs]. apply negb_true_iff in Hc.
  rewrite (IH Hs), Hc. destruct s; reflexivity.
Qed.

Lemma trim_noWhiteSpace (s : string) : noWhiteSpace s = true -> trim s = s.
Proof.
  intros H. unfold trim.
  assert (T : trimStart s = s).
  { destruct s as [|c s]; [reflexivity|]. simpl in *.
    apply andb_true_iff in H as [Hc _]. apply negb_true_iff in Hc.
    rewrite Hc. reflexivity. }
  rewrite T. apply trimEnd_noWhiteSpace, H.
Qed.

Lemma span_digits_all (s : string) :
  allDigits s = true -> snd (span_digits 10 s) = EmptyString.
Proof.
  induction s as [|c s IH]; [reflexivity|]. simpl.
  intros H. apply andb_true_iff in H as [Hc Hs].
  destruct (isDigit_facts c Hc) as (_ & [v ->] & _).
  specialize (IH Hs). destruct (span_digits 10 s) as [ds r]. exact IH.
Qed.

Lemma span_digits_nonempty (c : ascii) (s : string) :
  isDigit c = true -> fst (span_digits 10 (String c s)) <> [].
Proof.
  intros Hc. simpl. destruct (isDigit_facts c Hc) as (_ & [v ->] & _).
  destruct (span_digits 10 s). discriminate.
Qed.

Lemma non_decimal_digits (s : string) : allDigits s = true -> non_decimal s = None.
Proof.
  destruct s as [|c0 [|c r]]; [reflexivity | |].
  - destruct c0 as [[|] [|] [|] [|] [|] [|] [|] [|]]; reflexivity.
  - intros H. simpl in H. apply andb_true_iff in H as [H0 H].
    apply andb_true_iff in H as [Hc _].
    destruct (isDigit_facts c Hc) as (_ & _ & _ & X & O & B & _).
    destruct c0 as [[|] [|] [|] [|] [|] [|] [|] [|]]; try reflexivity.
    unfold non_decimal. rewrite X, O, B, span_digits_0. reflexivity.
Qed.

Lemma digit_in_nonneg (base : Z) (c : ascii) (v : Z) :
  digit_in base c = Some v -> 0 <= v.
Proof.
  unfold digit_in. set (n := Z.of_nat (nat_of_ascii c)).
  destruct ((48 <=? n) && (n <=? 57)) eqn:E1.
  - apply andb_true_iff in E1 as [A _]. apply Z.leb_le in A.
    destruct (_ <? _); intros [= <-]. lia.
  - destruct ((97 <=? n) && (n <=? 102)) eqn:E2.
    + apply andb_true_iff in E2 as [A _]. apply Z.leb_le in A.
      destruct (_ <? _); intros [= <-]. lia.
    + destruct ((65 <=? n) && (n <=? 70)) eqn:E3.
      * apply andb_true_iff in E3 as [A _]. apply Z.leb_le in A.
        destruct (_ <? _); intros [= <-]. lia.
      * destruct (_ <? _); intros [= <-]. lia.
Qed.

Lemma span_digits_nonneg (base : Z) (s : string) :
  Forall (fun d => 0 <= d) (fst (span_digits base s)).
Proof.
  induction s as [|c s IH]; [constructor|]. simpl.
  destruct (digit_in base c) as [v|] eqn:E; [|constructor].
  destruct (span_digits base s) as [ds r]. constructor; [|exact IH].
  eapply digit_in_nonneg, E.
Qed.

Lemma digits_value_nonneg (ds : list Z) :
  Forall (fun d => 0 <= d) ds -> 0 <= digits_value 10 ds.
Proof.
  unfold digits_value. assert (G : forall acc, 0 <= acc ->
    Forall (fun d => 0 <= d) ds -> 0 <= fold_left (fun a d => a * 10 + d) ds acc).
  { induction ds as [|d ds IH]; intros acc Ha F; [exact Ha|].
    inversion F; subst. simpl. apply IH; [lia | assumption]. }
  apply G. lia.
Qed.

Lemma decimalValue_nonneg (s : string) : 0 <= decimalValue s.
Proof. apply digits_value_nonneg, span_digits_nonneg. Qed.

(** [Number] of a string of decimal digits is its value, up to 2^53. *)
Lemma StringToNumber_digits (s : string) :
  s <> EmptyString -> allDigits s = true -> decimalValue s <= 2 ^ 53 ->
  StringToNumber s = Finite (inject_Z (decimalValue s)).
Proof.
  intros Hne Hd Hv. pose proof (decimalValue_nonneg s) as H0.
  unfold StringToNumber.
  rewrite (trim_noWhiteSpace _ (allDigits_noWhiteSpace _ Hd)).
  rewrite (non_decimal_digits _ Hd).
  destruct s as [|c s]; [contradiction|].
  pose proof Hd as Hd'. simpl in Hd'. apply andb_true_iff in Hd' as [Hc Hs].
  destruct (isDigit_facts c Hc) as (_ & _ & _ & _ & _ & _ & Sg & Inf).
  rewrite Sg, Inf. unfold unsigned_decimal.
  pose proof (span_digits_all _ Hd) as Hr.
  pose proof (span_digits_nonempty c s Hc) as Hn.
  unfold decimalValue in *.
  destruct (span_digits 10 (String c s)) as [ds r]. cbn [fst snd] in *. subst r.
  destruct ds as [|d0 ds]; [contradiction|].
  cbn [exponent_part]. rewrite app_nil_r. cbn [List.length Z.of_nat].
  unfold times10. cbn [Z.sub Z.opp Z.leb Z.compare]. cbv iota.
  rewrite Z.pow_0_r, Z.mul_1_r. apply round64_inject_Z. lia.
Qed.

(** A timestamp whose seconds are decimal digits, up to the last
    second [Date] can hold, gives the UTC date of that second. *)
Lemma toTxnDateFromConsensus_seconds (now : Z) (ts : string) :
  before_dot ts <> EmptyString ->
  allDigits (before_dot ts) = true ->
  decimalValue (before_dot ts) <= 8640000000000 ->
  toTxnDateFromConsensus now (Some ts)
  = inr (slice0 10 (iso_string (decimalValue (before_dot ts) * 1000))).
Proof.
  intros Hne Hd Hv. pose proof (decimalValue_nonneg (before_dot ts)) as H0.
  unfold toTxnDateFromConsensus.
  assert (T : truthy ts = true) by (destruct ts; [contradiction | reflexivity]).
  rewrite T. cbn [negb].
  rewrite (StringToNumber_digits _ Hne Hd) by lia.
  cbn [Number_isFinite negb]. unfold mul.
  replace (inject_Z (decimalValue (before_dot ts)) * 1000)%Q
    with (inject_Z (decimalValue (before_dot ts) * 1000))
    by (rewrite inject_Z_mult; reflexivity).
  rewrite round64_inject_Z by lia.
  unfold Date_of, isoDate.
  set (m := decimalValue (before_dot ts) * 1000).
  assert (Hm : 0 <= m <= 8640000000000000) by (unfold m; lia).
  assert (L : Qle_bool (Qabs (inject_Z m)) (inject_Z 8640000000000000) = true).
  { apply Qle_bool_iff. unfold Qle, Qabs, inject_Z. cbn [Qnum Qden]. lia. }
  rewrite L. cbn [Qnum inject_Z].
  replace (m <? 0) with false by (symmetry; apply Z.ltb_ge; lia).
  rewrite Qfloor_Z. reflexivity.
Qed.

Lemma substring_prefix (a b : string) :
  substring 0 (String.length a) (a ++ b) = a.
Proof.
  induction a as [|c a IH]; simpl.
  - destruct b; reflexivity.
  - rewrite IH. reflexivity.
Qed.

Lemma length_app (a b : string) :
  String.length (a ++ b) = (String.length a + String.length b)%nat.
Proof. induction a as [|c a IH]; simpl; [reflexivity | rewrite IH; reflexivity]. Qed.

Lemma app_assoc_string (a b c : string) : (a ++ b) ++ c = a ++ b ++ c.
Proof. induction a as [|x a IH]; simpl; [reflexivity | rewrite IH; reflexivity]. Qed.

Lemma length_pad (width : nat) (n : Z) : String.length (pad width n) = width.
Proof.
  revert n. induction width as [|w IH]; intros n; [reflexivity|].
  cbn [pad]. rewrite length_app, IH. simpl. lia.
Qed.

(** For the years 0 to 9999 the first ten characters of the ISO string
    are [YYYY-MM-DD]. *)
Lemma iso_date (t y m d : Z) :
  civil_from_days (t / msPerDay) = (y, m, d) ->
  0 <= y <= 9999 ->
  slice0 10 (iso_string t) = pad 4 y ++ "-" ++ pad 2 m ++ "-" ++ pad 2 d.
Proof.
  intros C Hy. unfold slice0, iso_string. rewrite C. unfold iso_year.
  replace ((0 <=? y) && (y <=? 9999)) with true
    by (symmetry; apply andb_true_iff; split; apply Z.leb_le; lia).
  set (rest := "T" ++ _).
  replace (pad 4 y ++ "-" ++ pad 2 m ++ "-" ++ pad 2 d ++ rest)
    with ((pad 4 y ++ "-" ++ pad 2 m ++ "-" ++ pad 2 d) ++ rest).
  - replace 10%nat with (String.length (pad 4 y ++ "-" ++ pad 2 m ++ "-" ++ pad 2 d)).
    + apply substring_prefix.
    + rewrite !length_app, !length_pad. reflexivity.
  - rewrite !app_assoc_string. reflexivity.
Qed.

End Numerals.

(* ================================================================== *)
(** * Reasoning about computations *)
(* ================================================================== *)

Section Computations.

Variable Ext : Type.
Variable api : Request -> Ext -> Reply * Ext.

Local Abbreviation M := (M Ext).
Local Abbreviation Spec := (Spec (Ext := Ext)).
Local Abbreviation makeApiCall := (makeApiCall api).

Lemma made_nil (w : World Ext) : made w w [].
Proof. unfold made. rewrite app_nil_r. reflexivity. Qed.

Lemma made_app (w1 w2 w3 : World Ext) (l1 l2 : list Call) :
  made w1 w2 l1 -> made w2 w3 l2 -> made w1 w3 (l1 ++ l2).
Proof. unfold made. intros H1 H2. rewrite H2, H1, app_assoc. reflexivity. Qed.

Lemma made_unique (w w' : World Ext) (l1 l2 : list Call) :
  made w w' l1 -> made w w' l2 -> l1 = l2.
Proof. unfold made. intros H1 H2. rewrite H1 in H2. eapply app_inv_head, H2. Qed.

Lemma Spec_ret {A} (P : Call -> Prop) (Q : A -> Prop) (a : A) :
  Q a -> Spec P Q (ret a).
Proof.
  intros HQ w res w' [= <- <-]. repeat split; auto.
  - exists []. split; [apply made_nil | constructor].
  - intros a' [= <-]. exact HQ.
Qed.

Lemma Spec_throw {A} (P : Call -> Prop) (Q : A -> Prop) (e : error) :
  Spec P Q (throw e).
Proof.
  intros w res w' [= <- <-]. repeat split; auto.
  - exists []. split; [apply made_nil | constructor].
  - discriminate.
Qed.

Lemma Spec_lift {A} (P : Call -> Prop) (Q : A -> Prop) (r : error + A) :
  (forall a, r = inr a -> Q a) -> Spec P Q (lift r).
Proof.
  destruct r as [e|a]; intros H; [apply Spec_throw | apply Spec_ret; auto].
Qed.

Lemma Spec_bind {A C} (P : Call -> Prop) (Q : A -> Prop) (Q' : C -> Prop)
    (m : M A) (k : A -> M C) :
  Spec P Q m -> (forall a, Q a -> Spec P Q' (k a)) -> Spec P Q' (bind m k).
Proof.
  intros Hm Hk w res w' E. unfold Sync.bind in E.
  destruct (m w) as [[a|e] w1] eqn:Em.
  - destruct (Hm _ _ _ Em) as ([l1 [M1 F1]] & S1 & N1 & Q1).
    destruct (Hk a (Q1 a eq_refl) _ _ _ E) as ([l2 [M2 F2]] & S2 & N2 & Q2).
    repeat split; auto.
    + exists (l1 ++ l2)%list. split; [eapply made_app; eauto | apply Forall_app; auto].
    + congruence.
  - injection E as <- <-.
    destruct (Hm _ _ _ Em) as (L1 & S1 & N1 & _).
    repeat split; auto. discriminate.
Qed.

Lemma Spec_weaken {A} (P P' : Call -> Prop) (Q Q' : A -> Prop) (m : M A) :
  Spec P Q m -> (forall c, P c -> P' c) -> (forall a, Q a -> Q' a) ->
  Spec P' Q' m.
Proof.
  intros Hm HP HQ w res w' E.
  destruct (Hm _ _ _ E) as ([l [M1 F1]] & S1 & N1 & Q1).
  repeat split; auto.
  exists l. split; [assumption|]. eapply Forall_impl; eauto.
Qed.

Lemma makeApiCall_eq (r : Request) (w : World Ext) :
  makeApiCall r w
  = (match fst (api r (ext w)) with
     | Rejects err => Throw err
     | Resolves body => Ok body
     end,
     after_call (ApiCall r) (snd (api r (ext w))) w).
Proof.
  unfold Sync.makeApiCall. destruct (api r (ext w)) as [[err|body] e]; reflexivity.
Qed.

Lemma Spec_makeApiCall (P : Call -> Prop) (r : Request) :
  P (ApiCall r) -> Spec P (fun _ => True) (makeApiCall r).
Proof.
  intros HP w res w' E. rewrite makeApiCall_eq in E. injection E as <- <-.
  repeat split; auto.
  exists [ApiCall r]. split; [reflexivity | repeat constructor; exact HP].
Qed.

Lemma Spec_throwOnFault (P : Call -> Prop) (body : Body) :
  Spec P (fun _ => body_Fault body = None) (throwOnFault body).
Proof.
  unfold throwOnFault. destruct (body_Fault body);
    [apply Spec_throw | apply Spec_ret; reflexivity].
Qed.

Lemma has_app (ks : list string) (k k' : string) :
  has ks k = true -> has (ks ++ [k']) k = true.
Proof.
  unfold has. rewrite existsb_app. intros ->. reflexivity.
Qed.

Lemma has_last (ks : list string) (k : string) : has (ks ++ [k]) k = true.
Proof.
  unfold has. rewrite existsb_app. simpl. rewrite String.eqb_refl.
  apply orb_true_iff. right. reflexivity.
Qed.

End Computations.


(* ================================================================== *)
(** * Duplicate resolver *)
(* ================================================================== *)

Section QueryText.

Lemma noWhiteSpace_app (a b : string) :
  noWhiteSpace (a ++ b) = noWhiteSpace a && noWhiteSpace b.
Proof.
  induction a as [|x a IH]; simpl; [reflexivity|].
  rewrite IH, andb_assoc. reflexivity.
Qed.

Lemma noWhiteSpace_substring (s : string) (n m : nat) :
  noWhiteSpace s = true -> noWhiteSpace (substring n m s) = true.
Proof.
  revert n m. induction s as [|x s IH]; intros n m H.
  - destruct n, m; reflexivity.
  - simpl in H. apply andb_true_iff in H as [Hx Hs].
    destruct n as [|n]; destruct m as [|m]; simpl; auto.
    rewrite Hx. simpl. apply (IH 0%nat), Hs.
Qed.

Lemma digit_char_not_space (d : Z) : isWhiteSpace (digit_char d) = false.
Proof.
  unfold digit_char.
  assert (H : 0 <= d mod 10 < 10) by (apply Z.mod_pos_bound; lia).
  assert (C : d mod 10 = 0 \/ d mod 10 = 1 \/ d mod 10 = 2 \/ d mod 10 = 3
              \/ d mod 10 = 4 \/ d mod 10 = 5 \/ d mod 10 = 6 \/ d mod 10 = 7
              \/ d mod 10 = 8 \/ d mod 10 = 9) by lia.
  repeat (destruct C as [-> | C]; [reflexivity|]). rewrite C. reflexivity.
Qed.

Lemma noWhiteSpace_pad (width : nat) (n : Z) : noWhiteSpace (pad width n) = true.
Proof.
  revert n. induction width as [|w IH]; intros n; simpl; [reflexivity|].
  rewrite noWhiteSpace_app, IH. simpl. rewrite digit_char_not_space. reflexivity.
Qed.

Lemma noWhiteSpace_iso_string (t : Z) : noWhiteSpace (iso_string t) = true.
Proof.
  unfold iso_string. destruct (civil_from_days (t / msPerDay)) as [[y m] d].
  assert (Hy : noWhiteSpace (iso_year y) = true).
  { unfold iso_year.
    destruct ((0 <=? y) && (y <=? 9999)); [apply noWhiteSpace_pad|].
    destruct (y <? 0);
      (change (noWhiteSpace (String ?c ?r))
         with (negb (isWhiteSpace c) && noWhiteSpace r);
       rewrite noWhiteSpace_pad; reflexivity). }
  repeat (rewrite noWhiteSpace_app; apply andb_true_iff; split;
          try apply noWhiteSpace_pad; try exact Hy; try reflexivity).
Qed.

(** The date of an effect never holds white space. *)
Lemma toTxnDateFromConsensus_noWhiteSpace (now : Z) (ts : option string) (d : string) :
  toTxnDateFromConsensus now ts = inr d -> noWhiteSpace d = true.
Proof.
  assert (I : forall v, isoDate v = inr d -> noWhiteSpace d = true).
  { intros [t|]; simpl; [|discriminate]. intros [= <-].
    apply noWhiteSpace_substring, noWhiteSpace_iso_string. }
  unfold toTxnDateFromConsensus. destruct ts as [ts|]; [|apply I].
  destruct (negb (truthy ts)); [apply I|].
  destruct (negb (Number_isFinite _)); apply I.
Qed.

Lemma collapse_noWhiteSpace (d rest : string) :
  noWhiteSpace d = true ->
  collapse_from false (d ++ rest) = d ++ collapse_from false rest.
Proof.
  induction d as [|x d IH]; simpl; [reflexivity|].
  intros H. apply andb_true_iff in H as [Hx Hd].
  apply negb_true_iff in Hx. rewrite Hx, (IH Hd). reflexivity.
Qed.

Lemma trimEnd_app (d rest : string) :
  trimEnd rest <> EmptyString -> trimEnd (d ++ rest) = d ++ trimEnd rest.
Proof.
  intros H. induction d as [|x d IH]; simpl; [reflexivity|].
  rewrite IH. destruct (d ++ trimEnd rest) eqn:E; [|reflexivity].
  destruct d; simpl in E; [contradiction | discriminate].
Qed.

Lemma collapse_app (b : bool) (pre rest : string) (c : ascii) :
  isWhiteSpace c = false ->
  collapse_from b ((pre ++ String c EmptyString) ++ rest)
  = collapse_from b (pre ++ String c EmptyString) ++ collapse_from false rest.
Proof.
  intros Hc. revert b. induction pre as [|x pre IH]; intros b.
  - change (collapse_from b (String c rest)
            = collapse_from b (String c EmptyString) ++ collapse_from false rest).
    cbn [collapse_from]. rewrite Hc. reflexivity.
  - change (collapse_from b (String x ((pre ++ String c EmptyString) ++ rest))
            = collapse_from b (String x (pre ++ String c EmptyString))
                ++ collapse_from false rest).
    cbn [collapse_from]. destruct (isWhiteSpace x).
    + destruct b; cbn [append]; rewrite IH; reflexivity.
    + cbn [append]. rewrite IH. reflexivity.
Qed.

Lemma trimEnd_date (a d b : string) :
  trimEnd b <> EmptyString -> trimEnd (a ++ d ++ b) = a ++ d ++ trimEnd b.
Proof.
  intros Hb.
  assert (F : trimEnd (d ++ b) = d ++ trimEnd b) by (apply trimEnd_app, Hb).
  rewrite trimEnd_app; rewrite F; [reflexivity|].
  destruct d; [exact Hb | discriminate].
Qed.

Lemma transferQuery_text (d : string) :
  noWhiteSpace d = true ->
  transferQuery d
  = "select Id,PrivateNote from Transfer where TxnDate='" ++ d
      ++ "' maxresults 200".
Proof.
  intros H. unfold transferQuery, collapse_ws.
  change (LF ++ "    select Id,PrivateNote from Transfer" ++
          LF ++ "    where TxnDate='" ++ d ++ "'" ++
          LF ++ "    maxresults 200" ++ LF ++ "  ")
    with (((LF ++ "    select Id,PrivateNote from Transfer" ++
            LF ++ "    where TxnDate=") ++ "'")
          ++ d ++ ("'" ++ LF ++ "    maxresults 200" ++ LF ++ "  ")).
  rewrite collapse_app by reflexivity.
  rewrite (collapse_noWhiteSpace _ _ H).
  change (collapse_from false
            ((LF ++ "    select Id,PrivateNote from Transfer" ++
              LF ++ "    where TxnDate=") ++ "'"))
    with " select Id,PrivateNote from Transfer where TxnDate='".
  change (collapse_from false ("'" ++ LF ++ "    maxresults 200" ++ LF ++ "  "))
    with "' maxresults 200 ".
  unfold trim.
  change (trimStart (" select Id,PrivateNote from Transfer where TxnDate='"
                       ++ d ++ "' maxresults 200 "))
    with ("select Id,PrivateNote from Transfer where TxnDate='"
            ++ d ++ "' maxresults 200 ").
  rewrite trimEnd_date; [reflexivity | discriminate].
Qed.

Lemma depositQuery_text (d : string) :
  noWhiteSpace d = true ->
  depositQuery d
  = "select Id, PrivateNote from Deposit where TxnDate='" ++ d
      ++ "' maxresults 200".
Proof.
  intros H. unfold depositQuery, collapse_ws.
  change (LF ++ "    select Id, PrivateNote from Deposit" ++
          LF ++ "    where TxnDate='" ++ d ++ "'" ++
          LF ++ "    maxresults 200" ++ LF ++ "  ")
    with (((LF ++ "    select Id, PrivateNote from Deposit" ++
            LF ++ "    where TxnDate=") ++ "'")
          ++ d ++ ("'" ++ LF ++ "    maxresults 200" ++ LF ++ "  ")).
  rewrite collapse_app by reflexivity.
  rewrite (collapse_noWhiteSpace _ _ H).
  change (collapse_from false
            ((LF ++ "    select Id, PrivateNote from Deposit" ++
              LF ++ "    where TxnDate=") ++ "'"))
    with " select Id, PrivateNote from Deposit where TxnDate='".
  change (collapse_from false ("'" ++ LF ++ "    maxresults 200" ++ LF ++ "  "))
    with "' maxresults 200 ".
  unfold trim.
  change (trimStart (" select Id, PrivateNote from Deposit where TxnDate='"
                       ++ d ++ "' maxresults 200 "))
    with ("select Id, PrivateNote from Deposit where TxnDate='"
            ++ d ++ "' maxresults 200 ").
  rewrite trimEnd_date; [reflexivity | discriminate].
Qed.

End QueryText.

Section DuplicateResolver.

Variable Ext : Type.
Variable api : Request -> Ext -> Reply * Ext.

Lemma anyNoteIs_iff (key : string) (l : list Candidate) :
  anyNoteIs key l = true <-> exists c, In c l /\ PrivateNote c = Some key.
Proof.
  unfold anyNoteIs. rewrite existsb_exists. split; intros [c [Hin Hc]]; exists c;
    (split; [exact Hin|]).
  - destruct (PrivateNote c) as [n|]; simpl in Hc; [|discriminate].
    apply String.eqb_eq in Hc. subst. reflexivity.
  - rewrite Hc. simpl. apply String.eqb_refl.
Qed.

Lemma anyNoteIs_length (key : string) (l : list Candidate) :
  (if (List.length l =? 0)%nat then false else anyNoteIs key l) = anyNoteIs key l.
Proof. destruct l; reflexivity. Qed.

Lemma qboExistsTransferByKey_eq (realm : string) (p : TransferCheck)
    (w : World Ext) :
  qboExistsTransferByKey api realm p w
  = let q := Query realm (transferQuery (tc_txnDate p)) in
    (match fst (api q (ext w)) with
     | Rejects err => Throw err
     | Resolves data => Ok (anyNoteIs (tc_key p) (candidates_of qr_Transfer data))
     end,
     after_call (ApiCall q) (snd (api q (ext w))) w).
Proof.
  unfold qboExistsTransferByKey, qboQuery, bind. rewrite makeApiCall_eq.
  destruct (fst (api _ (ext w))) as [err|data]; [reflexivity|].
  rewrite <- (anyNoteIs_length (tc_key p)).
  destruct (List.length _ =? 0)%nat; reflexivity.
Qed.

Lemma qboExistsDepositByKey_eq (realm : string) (p : DepositCheck)
    (w : World Ext) :
  qboExistsDepositByKey api realm p w
  = let q := Query realm (depositQuery (dc_txnDate p)) in
    (match fst (api q (ext w)) with
     | Rejects err => Throw err
     | Resolves data => Ok (anyNoteIs (dc_key p) (candidates_of qr_Deposit data))
     end,
     after_call (ApiCall q) (snd (api q (ext w))) w).
Proof.
  unfold qboExistsDepositByKey, qboQuery, bind. rewrite makeApiCall_eq.
  destruct (fst (api _ (ext w))) as [err|data]; [reflexivity|].
  rewrite <- (anyNoteIs_length (dc_key p)).
  destruct (List.length _ =? 0)%nat; reflexivity.
Qed.

(** The lists the two checks read from a reply are the ones it
    returns for their entity. *)
Lemma candidates_of_transfers (data : Body) :
  candidates_of qr_Transfer data = returnedTransfers data.
Proof.
  unfold candidates_of, returnedTransfers.
  destruct (body_QueryResponse data) as [[a d [t|]]|]; reflexivity.
Qed.

Lemma candidates_of_deposits (data : Body) :
  candidates_of qr_Deposit data = returnedDeposits data.
Proof.
  unfold candidates_of, returnedDeposits.
  destruct (body_QueryResponse data) as [[a [d|] t]|]; reflexivity.
Qed.

Lemma answer_iff (key : string) (l : list Candidate) :
  (Ok (anyNoteIs key l) = Ok true
   <-> exists c, In c l /\ PrivateNote c = Some key)
  /\ (Ok (anyNoteIs key l) = Ok false
      <-> ~ exists c, In c l /\ PrivateNote c = Some key).
Proof.
  pose proof (anyNoteIs_iff key l) as I.
  destruct (anyNoteIs key l); split; split.
  - intros _. apply I. reflexivity.
  - intros _. reflexivity.
  - discriminate.
  - intros N. exfalso. apply N, I. reflexivity.
  - discriminate.
  - intros H. apply I in H. discriminate.
  - intros _ H. apply I in H. discriminate.
  - intros _. reflexivity.
Qed.

Lemma qboExistsTransferByKey_returned (realm : string) (p : TransferCheck)
    (w : World Ext) :
  qboExistsTransferByKey api realm p w
  = let q := Query realm (transferQuery (tc_txnDate p)) in
    (match fst (api q (ext w)) with
     | Rejects err => Throw err
     | Resolves data => Ok (anyNoteIs (tc_key p) (returnedTransfers data))
     end,
     after_call (ApiCall q) (snd (api q (ext w))) w).
Proof.
  rewrite qboExistsTransferByKey_eq. cbv zeta.
  destruct (fst (api _ (ext w))) as [err|data]; [reflexivity|].
  rewrite candidates_of_transfers. reflexivity.
Qed.

Lemma qboExistsDepositByKey_returned (realm : string) (p : DepositCheck)
    (w : World Ext) :
  qboExistsDepositByKey api realm p w
  = let q := Query realm (depositQuery (dc_txnDate p)) in
    (match fst (api q (ext w)) with
     | Rejects err => Throw err
     | Resolves data => Ok (anyNoteIs (dc_key p) (returnedDeposits data))
     end,
     after_call (ApiCall q) (snd (api q (ext w))) w).
Proof.
  rewrite qboExistsDepositByKey_eq. cbv zeta.
  destruct (fst (api _ (ext w))) as [err|data]; [reflexivity|].
  rewrite candidates_of_deposits. reflexivity.
Qed.

(** C3: each duplicate check makes one backend call, the query
    [select Id, PrivateNote from <Entity> where TxnDate='<date>' maxresults 200]
    built from the date of the effect alone; when the call resolves it
    answers true exactly when one of the candidates the reply returns,
    the entities listed under [QueryResponse.Transfer] for the Transfer
    check and under [QueryResponse.Deposit] for the Deposit check, has a
    [PrivateNote] equal to the key, so two checks with the same date and
    key decide alike whatever their amounts and account ids. *)
Theorem duplicate_check_by_date_and_note
    (realm : string) (pT pT' : TransferCheck) (pD pD' : DepositCheck)
    (w : World Ext) :
  let qT := Query realm (transferQuery (tc_txnDate pT)) in
  let qD := Query realm (depositQuery (dc_txnDate pD)) in
  qboExistsTransferByKey api realm pT w
  = (match fst (api qT (ext w)) with
     | Rejects err => Throw err
     | Resolves data => Ok (anyNoteIs (tc_key pT) (returnedTransfers data))
     end,
     after_call (ApiCall qT) (snd (api qT (ext w))) w)
  /\ qboExistsDepositByKey api realm pD w
     = (match fst (api qD (ext w)) with
        | Rejects err => Throw err
        | Resolves data => Ok (anyNoteIs (dc_key pD) (returnedDeposits data))
        end,
        after_call (ApiCall qD) (snd (api qD (ext w))) w)
  /\ (forall key l,
        anyNoteIs key l = true <-> exists c, In c l /\ PrivateNote c = Some key)
  /\ (forall data,
        fst (api qT (ext w)) = Resolves data ->
        (fst (qboExistsTransferByKey api realm pT w) = Ok true
         <-> exists c, In c (returnedTransfers data)
                       /\ PrivateNote c = Some (tc_key pT))
        /\ (fst (qboExistsTransferByKey api realm pT w) = Ok false
            <-> ~ exists c, In c (returnedTransfers data)
                            /\ PrivateNote c = Some (tc_key pT)))
  /\ (forall data,
        fst (api qD (ext w)) = Resolves data ->
        (fst (qboExistsDepositByKey api realm pD w) = Ok true
         <-> exists c, In c (returnedDeposits data)
                       /\ PrivateNote c = Some (dc_key pD))
        /\ (fst (qboExistsDepositByKey api realm pD w) = Ok false
            <-> ~ exists c, In c (returnedDeposits data)
                            /\ PrivateNote c = Some (dc_key pD)))
  /\ (noWhiteSpace (tc_txnDate pT) = true ->
      transferQuery (tc_txnDate pT)
      = "select Id,PrivateNote from Transfer where TxnDate='" ++ tc_txnDate pT
          ++ "' maxresults 200")
  /\ (noWhiteSpace (dc_txnDate pD) = true ->
      depositQuery (dc_txnDate pD)
      = "select Id, PrivateNote from Deposit where TxnDate='" ++ dc_txnDate pD
          ++ "' maxresults 200")
  /\ (tc_txnDate pT = tc_txnDate pT' -> tc_key pT = tc_key pT' ->
      qboExistsTransferByKey api realm pT w
      = qboExistsTransferByKey api realm pT' w)
  /\ (dc_txnDate pD = dc_txnDate pD' -> dc_key pD = dc_key pD' ->
      qboExistsDepositByKey api realm pD w
      = qboExistsDepositByKey api realm pD' w).
Proof.
  cbv zeta.
  pose proof (qboExistsTransferByKey_returned realm pT w) as ET.
  pose proof (qboExistsDepositByKey_returned realm pD w) as ED.
  cbv zeta in ET, ED.
  split; [exact ET|]. split; [exact ED|]. split; [apply anyNoteIs_iff|].
  split; [|split; [|split; [|split; [|split]]]].
  - intros data Eq. rewrite ET, Eq. cbn [fst].
    apply answer_iff.
  - intros data Eq. rewrite ED, Eq. cbn [fst].
    apply answer_iff.
  - apply transferQuery_text.
  - apply depositQuery_text.
  - intros Ed Ek. rewrite !qboExistsTransferByKey_eq. cbv zeta.
    rewrite Ed, Ek. reflexivity.
  - intros Ed Ek. rewrite !qboExistsDepositByKey_eq. cbv zeta.
    rewrite Ed, Ek. reflexivity.
Qed.

(** A response body without [QueryResponse], a bare fault for one, is
    read as an empty list of candidates: the check answers false. *)
Lemma qboExists_fault_ignored (realm : string) (pT : TransferCheck)
    (pD : DepositCheck) (w : World Ext) (data : Body) :
  body_QueryResponse data = None ->
  (fst (api (Query realm (transferQuery (tc_txnDate pT))) (ext w)) = Resolves data ->
   fst (qboExistsTransferByKey api realm pT w) = Ok false)
  /\ (fst (api (Query realm (depositQuery (dc_txnDate pD))) (ext w)) = Resolves data ->
      fst (qboExistsDepositByKey api realm pD w) = Ok false).
Proof.
  intros N. split; intros E.
  - rewrite qboExistsTransferByKey_eq. cbv zeta. cbn [fst]. rewrite E.
    unfold candidates_of. rewrite N. reflexivity.
  - rewrite qboExistsDepositByKey_eq. cbv zeta. cbn [fst]. rewrite E.
    unfold candidates_of. rewrite N. reflexivity.
Qed.

(** C6, at the failing input: the backend answers the duplicate-check
    query with a body that holds only a fault. Both checks read it as
    an empty result and answer false, without raising; the create call
    raises on the same body. *)
Theorem fault_on_query_not_raised :
  fst (qboExistsDepositByKey script_api "realm-1" depositCheck
         (script_world [Resolves faultBody])) = Ok false
  /\ fst (qboExistsTransferByKey script_api "realm-1" transferCheck
            (script_world [Resolves faultBody])) = Ok false
  /\ fst (createQboDeposit script_api "realm-1" "1" "2" (Finite 5)
            "hedera:0.0.1-1-1:1700000000.0" "2023-11-14"
            (script_world [Resolves faultBody]))
     = Throw (Error "{QueryParserError}").
Proof. repeat split; reflexivity. Qed.

End DuplicateResolver.

(* ================================================================== *)
(** * Batch orchestrator *)
(* ================================================================== *)

Section Comparisons.


Lemma positive_branch (net : number) :
  gt net (Finite 0) = true -> strict_eq net (Finite 0) = false.
Proof.
  destruct net as [|s|q]; simpl; try discriminate; [reflexivity|].
  intros H. apply negb_true_iff in H.
  destruct (Qeq_bool q 0) eqn:E; [|reflexivity].
  apply Qeq_bool_iff in E.
  assert (C : Qle_bool q 0 = true) by (apply Qle_bool_iff; rewrite E; apply Qle_refl).
  congruence.
Qed.

End Comparisons.

Section Destination.

Variable TRACKED_HEDERA_ACCOUNTS : list string.

Lemma findTracked_scan (target : string) (entries : list TransferEntry) :
  findTracked TRACKED_HEDERA_ACCOUNTS
    (map cp_account
       (filter
          (fun t => truthy_opt (cp_account t)
                    && negb (eqb_opt (cp_account t) target))
          (map (fun t => {| cp_account := account t;
                            cp_amount := Number (or_else (amount t) (Num (Finite 0))) |})
               entries)))
  = firstTrackedCounterparty TRACKED_HEDERA_ACCOUNTS target entries.
Proof.
  unfold findTracked. induction entries as [|t rest IH]; [reflexivity|].
  cbn [map filter firstTrackedCounterparty cp_account].
  destruct (account t) as [a|]; cbn [truthy_opt eqb_opt]; [|exact IH].
  destruct (truthy a && negb (String.eqb a target)) eqn:E; cbn [andb].
  - cbn [map find cp_account includes].
    destruct (existsb (String.eqb a) TRACKED_HEDERA_ACCOUNTS); [reflexivity | exact IH].
  - exact IH.
Qed.

Lemma firstTrackedCounterparty_truthy (target a : string)
    (entries : list TransferEntry) :
  firstTrackedCounterparty TRACKED_HEDERA_ACCOUNTS target entries = Some a ->
  truthy a = true /\ a <> target /\ In a TRACKED_HEDERA_ACCOUNTS
  /\ exists t, In t entries /\ account t = Some a.
Proof.
  induction entries as [|t rest IH]; [discriminate|].
  cbn [firstTrackedCounterparty]. destruct (account t) as [b|] eqn:Eb.
  - destruct (truthy b && negb (String.eqb b target)
              && existsb (String.eqb b) TRACKED_HEDERA_ACCOUNTS) eqn:E.
    + intros [= <-]. apply andb_true_iff in E as [E E3].
      apply andb_true_iff in E as [E1 E2]. apply negb_true_iff in E2.
      apply String.eqb_neq in E2. apply existsb_exists in E3 as [x [Hx Ex]].
      apply String.eqb_eq in Ex. subst x.
      repeat split; auto. exists t. split; [left; reflexivity | exact Eb].
    + intros H. destruct (IH H) as (H1 & H2 & H3 & t' & Ht & Ha).
      repeat split; auto. exists t'. split; [right; exact Ht | exact Ha].
  - intros H. destruct (IH H) as (H1 & H2 & H3 & t' & Ht & Ha).
    repeat split; auto. exists t'. split; [right; exact Ht | exact Ha].
Qed.


End Destination.

Section Steps.

Variable Ext : Type.
Variable api : Request -> Ext -> Reply * Ext.
Variable TRACKED_HEDERA_ACCOUNTS : list string.

Local Abbreviation Spec := (Spec (Ext := Ext)).
Local Abbreviation processTx := (processTx api TRACKED_HEDERA_ACCOUNTS).

Lemma Spec_clock {A} (P : Call -> Prop) (f : Z -> error + A) :
  Spec P (fun a => exists clock, f clock = inr a) (fun w => lift (f (now w)) w).
Proof.
  intros w res w' E.
  apply (Spec_lift Ext P (fun a => exists clock, f clock = inr a) (f (now w))
           (fun a Ha => ex_intro _ (now w) Ha) w res w' E).
Qed.

Lemma alreadyProcessedInMemory_eq (k : string) (w : World Ext) :
  alreadyProcessedInMemory k w
  = if has (seenKeys w) k then (Ok true, w)
    else (Ok false, set_seenKeys (seenKeys w ++ [k]) w).
Proof. reflexivity. Qed.

Lemma alreadyProcessedInMemory_seen (k : string) (w : World Ext) :
  seen (snd (alreadyProcessedInMemory k w)) k.
Proof.
  rewrite alreadyProcessedInMemory_eq. unfold seen.
  destruct (has (seenKeys w) k) eqn:E; cbn [snd]; [exact E|].
  apply has_last.
Qed.

Lemma Spec_alreadyProcessedInMemory (P : Call -> Prop) (k : string) :
  Spec P (fun _ => True) (alreadyProcessedInMemory k).
Proof.
  intros w res w' E. rewrite alreadyProcessedInMemory_eq in E.
  assert (L : exists l, made w w' l /\ Forall P l).
  { exists []. split; [|constructor].
    destruct (has (seenKeys w) k); injection E as <- <-;
      unfold made; cbn [calls set_seenKeys]; rewrite app_nil_r; reflexivity. }
  destruct (has (seenKeys w) k); injection E as <- <-; repeat split; auto.
  intros k' Hk'. apply has_app, Hk'.
Qed.

Lemma Spec_qboExistsDepositByKey (P : Call -> Prop) (realm : string)
    (p : DepositCheck) :
  P (ApiCall (Query realm (depositQuery (dc_txnDate p)))) ->
  Spec P (fun _ => True) (qboExistsDepositByKey api realm p).
Proof.
  intros HP. unfold qboExistsDepositByKey, qboQuery.
  eapply Spec_bind; [apply Spec_makeApiCall, HP|].
  intros data _. destruct (_ =? _)%nat; apply Spec_ret; exact I.
Qed.

Lemma Spec_qboExistsTransferByKey (P : Call -> Prop) (realm : string)
    (p : TransferCheck) :
  P (ApiCall (Query realm (transferQuery (tc_txnDate p)))) ->
  Spec P (fun _ => True) (qboExistsTransferByKey api realm p).
Proof.
  intros HP. unfold qboExistsTransferByKey, qboQuery.
  eapply Spec_bind; [apply Spec_makeApiCall, HP|].
  intros data _. destruct (_ =? _)%nat; apply Spec_ret; exact I.
Qed.

Lemma Spec_createQboDeposit (P : Call -> Prop) (run : Run) (tx : Transaction)
    (d : string) :
  P (ApiCall (PostDeposit (companyRealmId run) (depositPayload run tx d))) ->
  Spec P (fun _ => True)
    (createQboDeposit api (companyRealmId run) (targetWalletId run)
       (clearingId run) (hbarOf run tx) (makeIdempotencyKey tx) d).
Proof.
  intros HP. unfold createQboDeposit.
  eapply Spec_bind; [apply Spec_makeApiCall, HP|]. intros body _.
  eapply Spec_bind; [apply Spec_throwOnFault|]. intros _ _.
  apply Spec_ret. exact I.
Qed.

Lemma Spec_createQboTransfer (P : Call -> Prop) (run : Run) (tx : Transaction)
    (d toId : string) :
  P (ApiCall (PostTransfer (companyRealmId run) (transferPayload run tx d toId))) ->
  Spec P (fun _ => True)
    (createQboTransfer api (companyRealmId run) (targetWalletId run) toId
       (hbarOf run tx) (makeIdempotencyKey tx) d).
Proof.
  intros HP. unfold createQboTransfer.
  eapply Spec_bind; [apply Spec_makeApiCall, HP|]. intros body _.
  eapply Spec_bind; [apply Spec_throwOnFault|]. intros _ _.
  apply Spec_ret. exact I.
Qed.

Lemma Spec_getOrCreateQboAccount (realm : string) (p : AccountPayload) :
  Spec (accountCall realm (Name p)) (fun _ => True)
    (getOrCreateQboAccount api realm p).
Proof.
  unfold getOrCreateQboAccount, qboQuery.
  eapply Spec_bind; [apply Spec_makeApiCall; split; reflexivity|].
  intros foundData _.
  assert (C : Spec (accountCall realm (Name p)) (fun _ : string => True)
                (bind (makeApiCall api (PostAccount realm p))
                   (fun body =>
                      bind (throwOnFault body)
                        (fun _ =>
                           match body_Account body with
                           | Some a => ret (acc_Id a)
                           | None => throw (TypeError "Cannot read properties of undefined")
                           end)))).
  { eapply Spec_bind; [apply Spec_makeApiCall; split; reflexivity|]. intros body _.
    eapply Spec_bind; [apply Spec_throwOnFault|]. intros _ _.
    destruct (body_Account body); [apply Spec_ret; exact I | apply Spec_throw]. }
  destruct (match body_QueryResponse foundData with
            | Some qr => match qr_Account qr with Some l => hd_error l | None => None end
            | None => None
            end) as [[[|c id]]|]; try exact C.
  apply Spec_ret. exact I.
Qed.

Lemma Spec_getOrCreateWalletBankAccount (realm hederaId : string) :
  Spec (accountCall realm (hederaWalletAccountName hederaId))
    (walletIdOf api realm hederaId)
    (getOrCreateWalletBankAccount api realm hederaId).
Proof.
  intros w res w' E. 
  destruct (Spec_getOrCreateQboAccount realm _ _ _ _ E) as (L & S & N & _).
  repeat split; auto. intros id ->. exists w, w'. exact E.
Qed.


Lemma Spec_inbound (run : Run) (tx : Transaction) (results : list Row) (d : string) :
  Spec (depositCall run tx)
    (fun rows => rows = push results (skippedQboRow Deposit tx)
                 \/ rows = push results (createdDepositRow run tx d))
    (inbound api run results (hbarOf run tx) d (makeIdempotencyKey tx)).
Proof.
  unfold inbound.
  eapply Spec_bind.
  - apply Spec_qboExistsDepositByKey. split; [reflexivity | exists d; reflexivity].
  - intros [|] _.
    + apply Spec_ret. left. reflexivity.
    + eapply Spec_bind.
      * apply Spec_createQboDeposit. split; [reflexivity | exists d; reflexivity].
      * intros _ _. apply Spec_ret. right. reflexivity.
Qed.

Lemma Spec_outbound (run : Run) (tx : Transaction) (results : list Row) (d : string) :
  Spec (transferCall api TRACKED_HEDERA_ACCOUNTS run tx)
    (fun rows =>
       rows = push results (skippedQboRow Transfer tx)
       \/ rows = push results
                   (createdTransferRow run tx d
                      (firstTrackedCounterparty TRACKED_HEDERA_ACCOUNTS
                         (target run) (transfers tx))))
    (outbound api TRACKED_HEDERA_ACCOUNTS run tx results (hbarOf run tx) d
       (makeIdempotencyKey tx)).
Proof.
  unfold outbound, otherAccountsInTransfer. rewrite findTracked_scan.
  destruct (firstTrackedCounterparty TRACKED_HEDERA_ACCOUNTS (target run)
              (transfers tx)) as [a|] eqn:F.
  - destruct (firstTrackedCounterparty_truthy _ _ _ _ F) as (Ta & _).
    cbn [truthy_opt opt_or]. rewrite Ta.
    eapply Spec_bind.
    + eapply Spec_weaken; [apply Spec_getOrCreateWalletBankAccount | | intros id H; exact H].
      intros [[r q|r p|r p|r p]|h l]; cbn [accountCall transferCall];
        try contradiction.
      * intros [-> ->]. split; [reflexivity|]. right. exists a. split; [exact F | reflexivity].
      * intros [-> Hn]. split; [reflexivity|]. exists a. split; [exact F | exact Hn].
    + intros id Hid. eapply Spec_bind.
      * apply Spec_qboExistsTransferByKey. split; [reflexivity|]. left. exists d. reflexivity.
      * intros [|] _; [apply Spec_ret; left; reflexivity|].
        eapply Spec_bind.
        -- apply Spec_createQboTransfer. split; [reflexivity|]. exists d, id.
           split; [reflexivity|]. unfold destinationIs. rewrite F. exact Hid.
        -- intros _ _. apply Spec_ret. right.
           unfold createdTransferRow. cbn [opt_or]. rewrite Ta. reflexivity.
  - cbn [truthy_opt]. eapply Spec_bind.
    + apply (Spec_ret Ext _ (fun id => id = externalOutflowId run)). reflexivity.
    + intros id ->. eapply Spec_bind.
      * apply Spec_qboExistsTransferByKey. split; [reflexivity|]. left. exists d. reflexivity.
      * intros [|] _; [apply Spec_ret; left; reflexivity|].
        eapply Spec_bind.
        -- apply Spec_createQboTransfer. split; [reflexivity|].
           exists d, (externalOutflowId run).
           split; [reflexivity|]. unfold destinationIs. rewrite F. reflexivity.
        -- intros _ _. apply Spec_ret. right. reflexivity.
Qed.

End Steps.

Section LoopBody.

Variable Ext : Type.
Variable api : Request -> Ext -> Reply * Ext.
Variable TRACKED_HEDERA_ACCOUNTS : list string.

Local Abbreviation Spec := (Spec (Ext := Ext)).
Local Abbreviation processTx := (processTx api TRACKED_HEDERA_ACCOUNTS).
Local Abbreviation syncLoop := (syncLoop api TRACKED_HEDERA_ACCOUNTS).

(** A transaction without net movement is passed over. *)
Lemma processTx_still (run : Run) (tx : Transaction) (results : list Row)
    (w : World Ext) :
  moves run tx = false -> processTx run tx results w = (Ok results, w).
Proof.
  unfold moves, Sync.processTx. intros H. apply negb_false_iff in H.
  rewrite H. reflexivity.
Qed.

(** The loop body up to the guard. *)
Lemma processTx_moving (run : Run) (tx : Transaction) (results : list Row)
    (w : World Ext) :
  moves run tx = true ->
  processTx run tx results w
  = match toTxnDateFromConsensus (now w) (consensus_timestamp tx) with
    | inl e => (Throw e, w)
    | inr d =>
        if has (seenKeys w) (makeIdempotencyKey tx)
        then (Ok (push results (skippedMemoryRow tx)), w)
        else
          (if gt (netTinybarFor tx (target run)) (Finite 0)
           then inbound api run results (hbarOf run tx) d (makeIdempotencyKey tx)
           else outbound api TRACKED_HEDERA_ACCOUNTS run tx results
                  (hbarOf run tx) d (makeIdempotencyKey tx))
            (set_seenKeys (seenKeys w ++ [makeIdempotencyKey tx]) w)
    end.
Proof.
  unfold moves, Sync.processTx. intros H. apply negb_true_iff in H.
  rewrite H. unfold bind at 1.
  destruct (toTxnDateFromConsensus (now w) (consensus_timestamp tx)) as [e|d];
    [reflexivity|].
  cbn [lift ret]. unfold bind at 1. rewrite alreadyProcessedInMemory_eq.
  destruct (has (seenKeys w) (makeIdempotencyKey tx)); [reflexivity|].
  destruct (gt _ _); reflexivity.
Qed.

Lemma Spec_processTx_inbound (run : Run) (tx : Transaction) (results : list Row) :
  gt (netTinybarFor tx (target run)) (Finite 0) = true ->
  Spec (depositCall run tx)
    (fun rows => exists row, rows = push results row
                 /\ (kind row = SKIPPED_MEMORY \/ type row = Some Deposit))
    (processTx run tx results).
Proof.
  intros G. pose proof (positive_branch _ G) as Z.
  unfold Sync.processTx. rewrite Z, G.
  eapply Spec_bind;
    [apply (Spec_clock Ext _
              (fun clock => toTxnDateFromConsensus clock (consensus_timestamp tx)))|].
  intros d _.
  eapply Spec_bind; [apply Spec_alreadyProcessedInMemory|]. intros [|] _.
  - apply Spec_ret. eexists. split; [reflexivity | left; reflexivity].
  - eapply Spec_weaken; [apply (Spec_inbound Ext api run tx results d) | auto |].
    intros rows [-> | ->]; eexists; (split; [reflexivity | right; reflexivity]).
Qed.

Lemma Spec_processTx_outbound (run : Run) (tx : Transaction) (results : list Row) :
  strict_eq (netTinybarFor tx (target run)) (Finite 0) = false ->
  gt (netTinybarFor tx (target run)) (Finite 0) = false ->
  Spec (transferCall api TRACKED_HEDERA_ACCOUNTS run tx)
    (fun rows => exists row, rows = push results row
                 /\ (kind row = SKIPPED_MEMORY \/ type row = Some Transfer))
    (processTx run tx results).
Proof.
  intros Z G. unfold Sync.processTx. rewrite Z, G.
  eapply Spec_bind;
    [apply (Spec_clock Ext _
              (fun clock => toTxnDateFromConsensus clock (consensus_timestamp tx)))|].
  intros d _.
  eapply Spec_bind; [apply Spec_alreadyProcessedInMemory|]. intros [|] _.
  - apply Spec_ret. eexists. split; [reflexivity | left; reflexivity].
  - eapply Spec_weaken;
      [apply (Spec_outbound Ext api TRACKED_HEDERA_ACCOUNTS run tx results d) | auto |].
    intros rows [-> | ->]; eexists; (split; [reflexivity | right; reflexivity]).
Qed.

(** Whatever the transaction, the loop body forgets no key. *)
Lemma Spec_processTx (run : Run) (tx : Transaction) (results : list Row) :
  Spec (fun _ => True) (fun _ => True) (processTx run tx results).
Proof.
  destruct (strict_eq (netTinybarFor tx (target run)) (Finite 0)) eqn:Z.
  - unfold Sync.processTx. rewrite Z. apply Spec_ret. exact I.
  - destruct (gt (netTinybarFor tx (target run)) (Finite 0)) eqn:G.
    + eapply Spec_weaken; [apply Spec_processTx_inbound, G | auto | auto].
    + eapply Spec_weaken; [apply Spec_processTx_outbound; assumption | auto | auto].
Qed.

Lemma Spec_syncLoop (run : Run) (txs : list Transaction) (results : list Row) :
  Spec (fun _ => True) (fun _ => True) (syncLoop run txs results).
Proof.
  revert results. induction txs as [|tx rest IH]; intros results; cbn [Sync.syncLoop].
  - apply Spec_ret. exact I.
  - eapply Spec_bind; [apply Spec_processTx|]. intros results' _. apply IH.
Qed.

(** Once the date is derived, the key of a moving transaction is in
    [seenKeys] when the loop body is left, by return or by throw. *)
Lemma processTx_marks (run : Run) (tx : Transaction) (results : list Row)
    (w : World Ext) (d : string) :
  moves run tx = true ->
  toTxnDateFromConsensus (now w) (consensus_timestamp tx) = inr d ->
  seen (snd (processTx run tx results w)) (makeIdempotencyKey tx).
Proof.
  intros Mv D. rewrite (processTx_moving _ _ _ _ Mv), D.
  destruct (has (seenKeys w) (makeIdempotencyKey tx)) eqn:H; [exact H|].
  set (w1 := set_seenKeys _ w).
  assert (S1 : seen w1 (makeIdempotencyKey tx)) by apply has_last.
  destruct (gt _ _).
  - destruct (inbound _ _ _ _ _ _ w1) as [res w'] eqn:E.
    destruct (Spec_inbound Ext api run tx results d _ _ _ E) as (_ & S & _).
    apply S, S1.
  - destruct (outbound _ _ _ _ _ _ _ _ w1) as [res w'] eqn:E.
    destruct (Spec_outbound Ext api TRACKED_HEDERA_ACCOUNTS run tx results d _ _ _ E)
      as (_ & S & _).
    apply S, S1.
Qed.

(** A moving transaction whose key is already seen is skipped without
    any call. *)
Lemma processTx_seen (run : Run) (tx : Transaction) (results : list Row)
    (w : World Ext) (d : string) :
  moves run tx = true ->
  toTxnDateFromConsensus (now w) (consensus_timestamp tx) = inr d ->
  seen w (makeIdempotencyKey tx) ->
  processTx run tx results w = (Ok (push results (skippedMemoryRow tx)), w).
Proof.
  intros Mv D S. rewrite (processTx_moving _ _ _ _ Mv), D, S. reflexivity.
Qed.

End LoopBody.

Section Branches.

Variable Ext : Type.
Variable api : Request -> Ext -> Reply * Ext.
Variable TRACKED_HEDERA_ACCOUNTS : list string.

Local Abbreviation processTx := (processTx api TRACKED_HEDERA_ACCOUNTS).

(** The inbound branch, call by call. *)
Lemma inbound_eq (run : Run) (tx : Transaction) (results : list Row)
    (d : string) (w : World Ext) :
  inbound api run results (hbarOf run tx) d (makeIdempotencyKey tx) w
  = let q := Query (companyRealmId run) (depositQuery d) in
    let w1 := after_call (ApiCall q) (snd (api q (ext w))) w in
    match fst (api q (ext w)) with
    | Rejects err => (Throw err, w1)
    | Resolves data =>
        if anyNoteIs (makeIdempotencyKey tx) (candidates_of qr_Deposit data)
        then (Ok (push results (skippedQboRow Deposit tx)), w1)
        else
          let post := PostDeposit (companyRealmId run) (depositPayload run tx d) in
          let w2 := after_call (ApiCall post) (snd (api post (ext w1))) w1 in
          match fst (api post (ext w1)) with
          | Rejects err => (Throw err, w2)
          | Resolves body =>
              match body_Fault body with
              | Some f => (Throw (Error f), w2)
              | None => (Ok (push results (createdDepositRow run tx d)), w2)
              end
          end
    end.
Proof.
  unfold inbound. unfold bind at 1. rewrite qboExistsDepositByKey_eq.
  cbv zeta. cbn [dc_txnDate dc_key].
  destruct (fst (api _ (ext w))) as [err|data]; [reflexivity|].
  destruct (anyNoteIs _ _); [reflexivity|].
  unfold createQboDeposit, bind. rewrite makeApiCall_eq.
  fold (depositPayload run tx d).
  destruct (fst (api (PostDeposit _ _) _)) as [err|body]; [reflexivity|].
  unfold throwOnFault. destruct (body_Fault body); reflexivity.
Qed.

(** The transfer of the outbound branch, once the destination account
    is known. *)
Lemma outbound_eq (run : Run) (tx : Transaction) (results : list Row)
    (d : string) (w : World Ext) :
  outbound api TRACKED_HEDERA_ACCOUNTS run tx results (hbarOf run tx) d
    (makeIdempotencyKey tx) w
  = match destination api TRACKED_HEDERA_ACCOUNTS run tx w with
    | (Throw e, w0) => (Throw e, w0)
    | (Ok toId, w0) =>
        let q := Query (companyRealmId run) (transferQuery d) in
        let w1 := after_call (ApiCall q) (snd (api q (ext w0))) w0 in
        match fst (api q (ext w0)) with
        | Rejects err => (Throw err, w1)
        | Resolves data =>
            if anyNoteIs (makeIdempotencyKey tx) (candidates_of qr_Transfer data)
            then (Ok (push results (skippedQboRow Transfer tx)), w1)
            else
              let post := PostTransfer (companyRealmId run)
                            (transferPayload run tx d toId) in
              let w2 := after_call (ApiCall post) (snd (api post (ext w1))) w1 in
              match fst (api post (ext w1)) with
              | Rejects err => (Throw err, w2)
              | Resolves body =>
                  match body_Fault body with
                  | Some f => (Throw (Error f), w2)
                  | None =>
                      (Ok (push results
                             (createdTransferRow run tx d
                                (firstTrackedCounterparty TRACKED_HEDERA_ACCOUNTS
                                   (target run) (transfers tx)))), w2)
                  end
              end
        end
    end.
Proof.
  unfold outbound, otherAccountsInTransfer, destination. rewrite findTracked_scan.
  assert (E1 : (if truthy_opt (firstTrackedCounterparty TRACKED_HEDERA_ACCOUNTS
                                 (target run) (transfers tx))
                then getOrCreateWalletBankAccount api (companyRealmId run)
                       (opt_or (firstTrackedCounterparty TRACKED_HEDERA_ACCOUNTS
                                  (target run) (transfers tx)) EmptyString)
                else ret (externalOutflowId run))
               = match firstTrackedCounterparty TRACKED_HEDERA_ACCOUNTS
                         (target run) (transfers tx) with
                 | Some a => getOrCreateWalletBankAccount api (companyRealmId run) a
                 | None => ret (externalOutflowId run)
                 end).
  { destruct (firstTrackedCounterparty _ _ _) as [a|] eqn:F; [|reflexivity].
    destruct (firstTrackedCounterparty_truthy _ _ _ _ F) as (Ta & _).
    cbn [truthy_opt opt_or]. rewrite Ta. reflexivity. }
  rewrite E1. unfold bind at 1.
  destruct (match firstTrackedCounterparty _ _ _ with
            | Some a => getOrCreateWalletBankAccount api (companyRealmId run) a
            | None => ret (externalOutflowId run)
            end w) as [[toId|e] w0]; [|reflexivity].
  unfold bind at 1. rewrite qboExistsTransferByKey_eq.
  cbv zeta. cbn [tc_txnDate tc_key].
  destruct (fst (api _ (ext w0))) as [err|data]; [reflexivity|].
  destruct (anyNoteIs _ _); [reflexivity|].
  unfold createQboTransfer, bind. rewrite makeApiCall_eq.
  fold (transferPayload run tx d toId).
  destruct (fst (api (PostTransfer _ _) _)) as [err|body]; [reflexivity|].
  unfold throwOnFault. destruct (body_Fault body); reflexivity.
Qed.

End Branches.

Section Orchestrator.

Variable Ext : Type.
Variable api : Request -> Ext -> Reply * Ext.
Variable TRACKED_HEDERA_ACCOUNTS : list string.

Local Abbreviation processTx := (processTx api TRACKED_HEDERA_ACCOUNTS).
Local Abbreviation syncLoop := (syncLoop api TRACKED_HEDERA_ACCOUNTS).





End Orchestrator.

(* ================================================================== *)
(** * Runs of the route *)
(* ================================================================== *)

Section Runs.

Variable Ext : Type.
Variable api : Request -> Ext -> Reply * Ext.
Variable mirror : string -> Z -> Ext -> MirrorReply * Ext.
Variable TARGET_HEDERA_ACCOUNT : string.
Variable TRACKED_HEDERA_ACCOUNTS : list string.

Local Abbreviation Spec := (Spec (Ext := Ext)).
Local Abbreviation processTx := (processTx api TRACKED_HEDERA_ACCOUNTS).
Local Abbreviation syncLoop := (syncLoop api TRACKED_HEDERA_ACCOUNTS).
Local Abbreviation syncSetup := (syncSetup api mirror TARGET_HEDERA_ACCOUNT).
Local Abbreviation syncHederaToQbo :=
  (syncHederaToQbo api mirror TARGET_HEDERA_ACCOUNT TRACKED_HEDERA_ACCOUNTS).

Lemma Spec_getCompanyRealmIdOrThrow (P : Call -> Prop) :
  Spec P (fun _ => True) getCompanyRealmIdOrThrow.
Proof.
  intros w res w' E. unfold getCompanyRealmIdOrThrow in E.
  assert (W : w' = w).
  { destruct (token w) as [tk|]; [|injection E as _ <-; reflexivity].
    destruct (negb _); [injection E as _ <-; reflexivity|].
    destruct (_ && _); injection E as _ <-; reflexivity. }
  subst w'. repeat split; auto.
  exists []. split; [apply made_nil | constructor].
Qed.

Lemma Spec_fetchMirrorTransactionsForAccount (P : Call -> Prop)
    (hederaId : string) (limit : Z) :
  P (Fetch hederaId limit) ->
  Spec P (fun _ => True) (fetchMirrorTransactionsForAccount mirror hederaId limit).
Proof.
  intros HP w res w' E. unfold fetchMirrorTransactionsForAccount in E.
  destruct (mirror hederaId limit (ext w)) as [reply e].
  assert (W : w' = after_call (Fetch hederaId limit) e w).
  { destruct reply as [err|ok status txs]; [injection E as _ <-; reflexivity|].
    destruct (negb ok); injection E as _ <-; reflexivity. }
  subst w'. repeat split; auto.
  exists [Fetch hederaId limit]. split; [reflexivity | repeat constructor; exact HP].
Qed.

Lemma Spec_account (realm : string) (p : AccountPayload) :
  Spec (fun c => createsRecord c = false) (fun _ => True)
    (getOrCreateQboAccount api realm p).
Proof.
  eapply Spec_weaken; [apply Spec_getOrCreateQboAccount | | auto].
  intros [[r q|r q|r q|r q]|h l]; cbn [accountCall]; try contradiction; reflexivity.
Qed.

(** The statements before the loop keep every seen key, create no
    Deposit and no Transfer, and fix the target from the query string
    and the environment alone. *)
Lemma Spec_syncSetup (query_account : option string) :
  Spec (fun c => createsRecord c = false)
    (fun st => target (fst st) = trim (opt_or query_account TARGET_HEDERA_ACCOUNT))
    (syncSetup query_account).
Proof.
  unfold Sync.syncSetup.
  eapply Spec_bind; [apply Spec_getCompanyRealmIdOrThrow|]. intros realm _.
  eapply Spec_bind; [apply Spec_account|]. intros id1 _.
  eapply Spec_bind; [apply Spec_account|]. intros id2 _.
  eapply Spec_bind; [apply Spec_account|]. intros id3 _.
  eapply Spec_bind;
    [apply Spec_fetchMirrorTransactionsForAccount; reflexivity|].
  intros txs _. apply Spec_ret. reflexivity.
Qed.

(** The [try] and its [catch]. *)
Lemma syncHederaToQbo_eq (query_account : option string) (w : World Ext) :
  syncHederaToQbo query_account w
  = match syncSetup query_account w with
    | (Throw e, wa) => (Status500 e, wa)
    | (Ok st, wa) =>
        match syncLoop (fst st) (snd st) [] wa with
        | (Ok rows, wb) => (Report (target (fst st)) rows, wb)
        | (Throw e, wb) => (Status500 e, wb)
        end
    end.
Proof.
  unfold Sync.syncHederaToQbo, bind.
  destruct (syncSetup query_account w) as [[st|e] wa]; [|reflexivity].
  destruct (syncLoop (fst st) (snd st) [] wa) as [[rows|e] wb]; reflexivity.
Qed.

Lemma syncLoop_app (run : Run) (txs1 txs2 : list Transaction)
    (results : list Row) (w : World Ext) :
  syncLoop run (txs1 ++ txs2) results w
  = match syncLoop run txs1 results w with
    | (Ok rows, w1) => syncLoop run txs2 rows w1
    | (Throw e, w1) => (Throw e, w1)
    end.
Proof.
  revert results w. induction txs1 as [|tx rest IH]; intros results w;
    [reflexivity|].
  cbn [app Sync.syncLoop]. unfold bind.
  destruct (processTx run tx results w) as [[rows|e] w1]; [apply IH | reflexivity].
Qed.

Lemma moves_target (run run' : Run) (tx : Transaction) :
  target run' = target run -> moves run' tx = moves run tx.
Proof. unfold moves. intros ->. reflexivity. Qed.

(** After a loop that ran to its end, the key of every moving
    transaction is seen, and its date was derived. *)
Lemma syncLoop_completed (run : Run) (txs : list Transaction)
    (results rows : list Row) (w w' : World Ext) :
  syncLoop run txs results w = (Ok rows, w') ->
  forall tx, In tx txs -> moves run tx = true ->
    seen w' (makeIdempotencyKey tx)
    /\ exists d, toTxnDateFromConsensus (now w) (consensus_timestamp tx) = inr d.
Proof.
  revert results w. induction txs as [|tx0 rest IH]; intros results w E tx Hin Mv;
    [contradiction|].
  cbn [Sync.syncLoop] in E. unfold bind in E.
  destruct (processTx run tx0 results w) as [[rows0|e] w1] eqn:E0; [|discriminate].
  destruct (Spec_processTx Ext api TRACKED_HEDERA_ACCOUNTS run tx0 results _ _ _ E0)
    as (_ & _ & N1 & _).
  destruct Hin as [<- | Hin].
  - assert (D : exists d, toTxnDateFromConsensus (now w) (consensus_timestamp tx0)
                          = inr d).
    { rewrite processTx_moving in E0 by exact Mv.
      destruct (toTxnDateFromConsensus _ _) as [e|d]; [discriminate | eauto]. }
    split; [|exact D]. destruct D as [d D].
    pose proof (processTx_marks Ext api TRACKED_HEDERA_ACCOUNTS run tx0 results w d
                  Mv D) as S1.
    rewrite E0 in S1. cbn [snd] in S1.
    destruct (Spec_syncLoop Ext api TRACKED_HEDERA_ACCOUNTS run rest rows0 _ _ _ E)
      as (_ & S & _).
    apply S, S1.
  - rewrite <- N1. eapply IH; eassumption.
Qed.

(** A loop over transactions whose keys are all seen only records
    in-memory skips, and touches nothing. *)
Lemma syncLoop_all_seen (run : Run) (txs : list Transaction)
    (results : list Row) (w : World Ext) :
  (forall tx, In tx txs -> moves run tx = true ->
     seen w (makeIdempotencyKey tx)
     /\ exists d, toTxnDateFromConsensus (now w) (consensus_timestamp tx) = inr d) ->
  syncLoop run txs results w
  = (Ok (results ++ map skippedMemoryRow (filter (moves run) txs))%list, w).
Proof.
  revert results. induction txs as [|tx rest IH]; intros results H.
  - cbn [Sync.syncLoop filter map]. rewrite app_nil_r. reflexivity.
  - cbn [Sync.syncLoop filter]. unfold bind.
    destruct (moves run tx) eqn:Mv.
    + destruct (H tx (or_introl eq_refl) Mv) as [S [d D]].
      rewrite (processTx_seen Ext api TRACKED_HEDERA_ACCOUNTS run tx results w d Mv D S).
      rewrite IH by (intros tx' Hin; apply H; right; exact Hin).
      unfold push. cbn [map]. rewrite <- app_assoc. reflexivity.
    + rewrite (processTx_still Ext api TRACKED_HEDERA_ACCOUNTS run tx results w Mv).
      apply IH. intros tx' Hin. apply H. right. exact Hin.
Qed.

Lemma createdCount_skipped (txs : list Transaction) :
  createdCount (map skippedMemoryRow txs) = 0%nat.
Proof. unfold createdCount. induction txs; [reflexivity | exact IHtxs]. Qed.

Lemma syncHederaToQbo_keeps_seen (query_account : option string)
    (w : World Ext) (k : string) :
  seen w k -> seen (snd (syncHederaToQbo query_account w)) k.
Proof.
  intros S. rewrite syncHederaToQbo_eq.
  destruct (syncSetup query_account w) as [[st|e] wa] eqn:E1.
  - destruct (Spec_syncSetup query_account _ _ _ E1) as (_ & S1 & _).
    destruct (syncLoop (fst st) (snd st) [] wa) as [[rows|e] wb] eqn:E2;
      destruct (Spec_syncLoop Ext api TRACKED_HEDERA_ACCOUNTS _ _ _ _ _ _ E2)
        as (_ & S2 & _);
      apply S2, S1, S.
  - destruct (Spec_syncSetup query_account _ _ _ E1) as (_ & S1 & _).
    apply S1, S.
Qed.

(** The one place that empties [seenKeys]: [/callback], when the realm
    changes. *)
Lemma callback_realm_seenKeys (newRealmId : option string) (w : World Ext) :
  seenKeys (callback_realm newRealmId w)
  = if truthy_opt (realmId w) && truthy_opt newRealmId
       && negb (eqb_opt (realmId w) (opt_or newRealmId EmptyString))
    then [] else seenKeys w.
Proof.
  unfold callback_realm.
  destruct (truthy_opt (realmId w) && truthy_opt newRealmId
            && negb (eqb_opt (realmId w) (opt_or newRealmId EmptyString)));
    reflexivity.
Qed.

(** C9, amended: the first call of [alreadyProcessedInMemory] with a key
    answers false and puts the key in [seenKeys]; every call with a key
    that is in [seenKeys] answers true; neither the guard, nor the loop,
    nor a whole run of the route takes a key out, and [/callback] keeps
    the keys unless the realm changes, so every later call answers true
    until then.  In the loop body the key goes in before the branch that
    holds every backend call is entered, and so it is in [seenKeys] when
    the body is left, by return or by throw. *)
Theorem in_memory_guard (k : string) (run : Run) (tx : Transaction)
    (txs : list Transaction) (results : list Row) (d : string)
    (query_account newRealmId : option string) (w : World Ext) :
  (has (seenKeys w) k = false ->
   alreadyProcessedInMemory k w = (Ok false, set_seenKeys (seenKeys w ++ [k]) w)
   /\ seen (set_seenKeys (seenKeys w ++ [k]) w) k)
  /\ (seen w k -> alreadyProcessedInMemory k w = (Ok true, w))
  /\ (forall k', seen w k' -> seen (snd (alreadyProcessedInMemory k w)) k')
  /\ (seen w k -> seen (snd (syncLoop run txs results w)) k)
  /\ (seen w k -> seen (snd (syncHederaToQbo query_account w)) k)
  /\ (truthy_opt (realmId w) && truthy_opt newRealmId
        && negb (eqb_opt (realmId w) (opt_or newRealmId EmptyString)) = false ->
      seen w k -> seen (callback_realm newRealmId w) k)
  /\ (moves run tx = true ->
      toTxnDateFromConsensus (now w) (consensus_timestamp tx) = inr d ->
      seen (snd (processTx run tx results w)) (makeIdempotencyKey tx)
      /\ (has (seenKeys w) (makeIdempotencyKey tx) = false ->
          processTx run tx results w
          = (if gt (netTinybarFor tx (target run)) (Finite 0)
             then inbound api run results (hbarOf run tx) d (makeIdempotencyKey tx)
             else outbound api TRACKED_HEDERA_ACCOUNTS run tx results
                    (hbarOf run tx) d (makeIdempotencyKey tx))
              (set_seenKeys (seenKeys w ++ [makeIdempotencyKey tx]) w))).
Proof.
  split; [|split; [|split; [|split; [|split; [|split]]]]].
  - intros U. split; [|apply has_last].
    rewrite alreadyProcessedInMemory_eq, U. reflexivity.
  - intros S. rewrite alreadyProcessedInMemory_eq, S. reflexivity.
  - intros k' S.
    destruct (alreadyProcessedInMemory k w) as [res w'] eqn:E.
    destruct (Spec_alreadyProcessedInMemory Ext (fun _ => True) k _ _ _ E)
      as (_ & S' & _).
    apply S', S.
  - intros S. destruct (syncLoop run txs results w) as [res w'] eqn:E.
    destruct (Spec_syncLoop Ext api TRACKED_HEDERA_ACCOUNTS run txs results _ _ _ E)
      as (_ & S' & _).
    apply S', S.
  - apply syncHederaToQbo_keeps_seen.
  - intros C S. unfold seen. rewrite callback_realm_seenKeys, C. exact S.
  - intros Mv D. split; [eapply processTx_marks; eassumption|].
    intros U. rewrite processTx_moving by assumption. rewrite D, U. reflexivity.
Qed.

(** C1, amended: when a run of the route completes, a second run in the
    same process over the same transactions, in any world where the
    keys of the first are still in [seenKeys], answers with one
    in-memory skip per moving transaction; it creates no Deposit and no
    Transfer, and makes no call at all after its setup. *)
Theorem second_run_skips_in_memory (query_account : option string)
    (w wa w1 w1' wb : World Ext) (st st' : Run * list Transaction)
    (rows : list Row) :
  syncSetup query_account w = (Ok st, wa) ->
  syncLoop (fst st) (snd st) [] wa = (Ok rows, w1) ->
  (forall k, seen w1 k -> seen w1' k) ->
  syncSetup query_account w1' = (Ok st', wb) ->
  snd st' = snd st ->
  let rows' := map skippedMemoryRow (filter (moves (fst st)) (snd st)) in
  syncHederaToQbo query_account w1' = (Report (target (fst st)) rows', wb)
  /\ Forall (fun r => kind r = SKIPPED_MEMORY) rows'
  /\ createdCount rows' = 0%nat
  /\ exists l, made w1' (snd (syncHederaToQbo query_account w1')) l
               /\ Forall (fun c => createsRecord c = false) l.
Proof.
  intros E1 L1 P E2 T. cbv zeta.
  destruct (Spec_syncSetup query_account _ _ _ E1) as (_ & _ & _ & Q1).
  destruct (Spec_syncSetup query_account _ _ _ E2) as (C2 & S2 & _ & Q2).
  specialize (Q1 st eq_refl). specialize (Q2 st' eq_refl). cbv beta in Q1, Q2.
  assert (Tg : target (fst st') = target (fst st)) by congruence.
  assert (R : syncHederaToQbo query_account w1'
              = (Report (target (fst st))
                   (map skippedMemoryRow (filter (moves (fst st)) (snd st))), wb)).
  { rewrite syncHederaToQbo_eq, E2, T.
    rewrite syncLoop_all_seen.
    + cbn [app]. rewrite Tg.
      rewrite (filter_ext _ _ (fun tx => moves_target (fst st) (fst st') tx Tg)).
      reflexivity.
    + intros tx Hin Mv. rewrite (moves_target (fst st) (fst st') tx Tg) in Mv.
      destruct (syncLoop_completed _ _ _ _ _ _ L1 tx Hin Mv) as [S [d D]].
      split; [apply S2, P, S|].
      eapply toTxnDateFromConsensus_clock, D. }
  split; [exact R|]. split; [|split].
  - apply Forall_forall. intros r Hr. apply in_map_iff in Hr as [tx [<- _]].
    reflexivity.
  - apply createdCount_skipped.
  - rewrite R. exact C2.
Qed.

(** C2, amended: when a call made for one transaction throws, the loop
    stops there and the route answers status 500 with that error; the
    transactions after it are not processed and the outcomes recorded
    before it are not reported.  What the run did before the throw
    stays done: the world is the one the throw left. *)
Theorem failure_aborts_batch (query_account : option string)
    (w wa w1 w2 : World Ext) (st : Run * list Transaction)
    (txs1 txs2 : list Transaction) (tx : Transaction) (rows : list Row)
    (e : error) :
  syncSetup query_account w = (Ok st, wa) ->
  snd st = (txs1 ++ tx :: txs2)%list ->
  syncLoop (fst st) txs1 [] wa = (Ok rows, w1) ->
  processTx (fst st) tx rows w1 = (Throw e, w2) ->
  syncLoop (fst st) (snd st) [] wa = (Throw e, w2)
  /\ syncHederaToQbo query_account w = (Status500 e, w2).
Proof.
  intros E T L1 F.
  assert (L : syncLoop (fst st) (snd st) [] wa = (Throw e, w2)).
  { rewrite T, syncLoop_app, L1. cbn [Sync.syncLoop]. unfold bind. rewrite F.
    reflexivity. }
  split; [exact L|]. rewrite syncHederaToQbo_eq, E, L. reflexivity.
Qed.

End Runs.

(* ================================================================== *)
(** * The properties on sample runs *)
(* ================================================================== *)

Section Samples.

(** C1, as stated, fails: in the second of two runs in a row the
    outcomes are the in-memory skips, not the remote-duplicate ones;
    the keys of the first run are still in [seenKeys]. *)
Lemma second_run_not_remote_duplicates :
  seenKeys (snd firstRun)
  = [makeIdempotencyKey txDeposit; makeIdempotencyKey txTransfer]
  /\ fst secondRun
     = Report "0.0.100" [skippedMemoryRow txDeposit; skippedMemoryRow txTransfer]
  /\ ~ Forall (fun r => kind r = SKIPPED_QBO)
         [skippedMemoryRow txDeposit; skippedMemoryRow txTransfer].
Proof.
  split; [vm_compute; reflexivity|]. split; [vm_compute; reflexivity|].
  intros F. inversion F as [|r l H _]. discriminate H.
Qed.

(** The remote check does find the records of the first run, in a
    process that starts with an empty [seenKeys]. *)
Lemma fresh_process_finds_remote_duplicates :
  fst secondRunFresh
  = Report "0.0.100" [skippedQboRow Deposit txDeposit;
                      skippedQboRow Transfer txTransfer]
  /\ ext (snd secondRunFresh) = ext (snd firstRun).
Proof. split; vm_compute; reflexivity. Qed.

(** The two sample runs meet the hypotheses of the theorem on second
    runs. *)
Lemma second_run_skips_in_memory_witness :
  fst secondRun
  = Report "0.0.100" [skippedMemoryRow txDeposit; skippedMemoryRow txTransfer].
Proof.
  pose (w := start [] [txDeposit; txTransfer]).
  pose (s1 := syncSetup sim_api sim_mirror "0.0.100" (Some "0.0.100") w).
  pose (st := valueOr (sampleRun, []) (fst s1)).
  pose (l1 := syncLoop sim_api tracked (fst st) (snd st) [] (snd s1)).
  pose (s2 := syncSetup sim_api sim_mirror "0.0.100" (Some "0.0.100") (snd l1)).
  pose (st' := valueOr (sampleRun, []) (fst s2)).
  destruct (second_run_skips_in_memory Sim sim_api sim_mirror "0.0.100" tracked
              (Some "0.0.100") w (snd s1) (snd l1) (snd l1) (snd s2) st st'
              (valueOr [] (fst l1))) as [R _].
  - vm_compute. reflexivity.
  - vm_compute. reflexivity.
  - intros k S. exact S.
  - vm_compute. reflexivity.
  - vm_compute. reflexivity.
  - unfold secondRun, firstRun, simSync.
    replace (snd (syncHederaToQbo sim_api sim_mirror "0.0.100" tracked
                    (Some "0.0.100") (start [] [txDeposit; txTransfer])))
      with (snd l1) by (vm_compute; reflexivity).
    rewrite R. vm_compute. reflexivity.
Defined.

(** C2, as stated, fails: the backend rejects the deposit of the second
    of three transactions; the route answers 500, the transfer created
    for the first transaction is in the backend but in no report, and
    the third transaction is never looked at. *)
Lemma failure_is_not_isolated :
  fst failingRun = Status500 (Error "{ValidationFault}")
  /\ map xfer_PrivateNote (sim_transfers (ext (snd failingRun)))
     = [makeIdempotencyKey txTransfer]
  /\ sim_deposits (ext (snd failingRun)) = []
  /\ seenKeys (snd failingRun)
     = [makeIdempotencyKey txTransfer; makeIdempotencyKey txDeposit].
Proof. repeat split; vm_compute; reflexivity. Qed.

(** The run after the failing one: the rejected deposit was marked as
    seen before its creation failed, so it is skipped in memory and
    never booked; the transaction the first run did not reach is
    created now. *)
Lemma retry_after_failure :
  fst retryRun
  = Report "0.0.100" [skippedMemoryRow txTransfer; skippedMemoryRow txDeposit;
                      createdDepositRow sampleRun txDeposit2 "2023-11-14"]
  /\ map dep_PrivateNote (sim_deposits (ext (snd retryRun)))
     = [makeIdempotencyKey txDeposit2].
Proof. split; vm_compute; reflexivity. Qed.

(** The failing sample run meets the hypotheses of the theorem on
    aborted batches. *)
Lemma failure_aborts_batch_witness :
  fst failingRun = Status500 (Error "{ValidationFault}").
Proof.
  pose (w := start [makeIdempotencyKey txDeposit] [txTransfer; txDeposit; txDeposit2]).
  pose (s1 := syncSetup sim_api sim_mirror "0.0.100" (Some "0.0.100") w).
  pose (st := valueOr (sampleRun, []) (fst s1)).
  pose (l1 := syncLoop sim_api tracked (fst st) [txTransfer] [] (snd s1)).
  pose (p := processTx sim_api tracked (fst st) txDeposit (valueOr [] (fst l1)) (snd l1)).
  destruct (failure_aborts_batch Sim sim_api sim_mirror "0.0.100" tracked
              (Some "0.0.100") w (snd s1) (snd l1) (snd p) st
              [txTransfer] [txDeposit2] txDeposit (valueOr [] (fst l1))
              (Error "{ValidationFault}")) as [_ R].
  - vm_compute. reflexivity.
  - vm_compute. reflexivity.
  - vm_compute. reflexivity.
  - vm_compute. reflexivity.
  - unfold failingRun, simSync. fold w. rewrite R. reflexivity.
Defined.

(** The two queries for 2023-11-14, and the two checks after the first
    sample run: each finds the record of its entity by its key, and the
    Transfer check does not take the Deposit of the same date for a
    Transfer. *)
Lemma duplicate_check_by_date_and_note_witness :
  transferQuery "2023-11-14"
  = "select Id,PrivateNote from Transfer where TxnDate='2023-11-14' maxresults 200"
  /\ depositQuery "2023-11-14"
     = "select Id, PrivateNote from Deposit where TxnDate='2023-11-14' maxresults 200"
  /\ fst (qboExistsDepositByKey sim_api realm1 depositCheck (snd firstRun)) = Ok true
  /\ fst (qboExistsTransferByKey sim_api realm1 transferCheck (snd firstRun)) = Ok true
  /\ fst (qboExistsTransferByKey sim_api realm1 transferCheckOfDeposit
            (snd firstRun)) = Ok false.
Proof.
  destruct (duplicate_check_by_date_and_note Sim sim_api realm1
              transferCheck transferCheck depositCheck depositCheck (snd firstRun))
    as (ET & ED & _ & _ & _ & QT & QD & _).
  destruct (duplicate_check_by_date_and_note Sim sim_api realm1
              transferCheckOfDeposit transferCheck depositCheck depositCheck
              (snd firstRun))
    as (ET' & _).
  split; [apply QT; reflexivity|]. split; [apply QD; reflexivity|].
  split; [rewrite ED; vm_compute; reflexivity|].
  split; [rewrite ET; vm_compute; reflexivity|].
  rewrite ET'. vm_compute. reflexivity.
Defined.




(** C9, as stated, fails: a call of the guard after the first one
    answers false again when [/callback] has seen the realm change in
    between. *)
Lemma guard_forgets_on_realm_change :
  fst (alreadyProcessedInMemory "k" (start [] [])) = Ok false
  /\ fst (alreadyProcessedInMemory "k"
            (callback_realm (Some "realm-2")
               (snd (alreadyProcessedInMemory "k" (start [] []))))) = Ok false.
Proof. split; reflexivity. Qed.

(** The guard on a sample key, before and after a callback for the same
    realm, and a deposit the backend rejects: the key is seen, nothing
    is stored. *)
Lemma in_memory_guard_witness :
  fst (alreadyProcessedInMemory "k" (start [] [])) = Ok false
  /\ fst (alreadyProcessedInMemory "k"
            (snd (alreadyProcessedInMemory "k" (start [] [])))) = Ok true
  /\ seen (callback_realm (Some "realm-1")
             (snd (alreadyProcessedInMemory "k" (start [] [])))) "k"
  /\ seen (snd (processTx sim_api tracked sampleRun txDeposit []
                  (start [makeIdempotencyKey txDeposit] [])))
          (makeIdempotencyKey txDeposit)
  /\ fst (processTx sim_api tracked sampleRun txDeposit []
            (start [makeIdempotencyKey txDeposit] []))
     = Throw (Error "{ValidationFault}")
  /\ sim_deposits (ext (snd (processTx sim_api tracked sampleRun txDeposit []
                              (start [makeIdempotencyKey txDeposit] [])))) = [].
Proof.
  destruct (in_memory_guard Sim sim_api sim_mirror "0.0.100" tracked "k" sampleRun
              txDeposit [] [] "2023-11-14" None (Some "realm-1") (start [] []))
    as (F & _).
  destruct (in_memory_guard Sim sim_api sim_mirror "0.0.100" tracked "k" sampleRun
              txDeposit [] [] "2023-11-14" None (Some "realm-1")
              (snd (alreadyProcessedInMemory "k" (start [] []))))
    as (_ & T & _ & _ & _ & C & _).
  destruct (in_memory_guard Sim sim_api sim_mirror "0.0.100" tracked "k" sampleRun
              txDeposit [] [] "2023-11-14" None (Some "realm-1")
              (start [makeIdempotencyKey txDeposit] []))
    as (_ & _ & _ & _ & _ & _ & Mk).
  split; [rewrite (proj1 (F eq_refl)); reflexivity|].
  split; [rewrite (T eq_refl); reflexivity|].
  split; [apply (C eq_refl eq_refl)|].
  split; [apply (Mk eq_refl eq_refl)|].
  split; vm_compute; reflexivity.
Defined.

End Samples.

(* ================================================================== *)
(** * The process state under the helpers *)
(* ================================================================== *)

Section Frames.

Variable Ext : Type.
Variable api : Request -> Ext -> Reply * Ext.
Variable mirror : string -> Z -> Ext -> MirrorReply * Ext.

Local Abbreviation Frame := (Frame (Ext := Ext)).

Lemma Frame_ret {A} (a : A) : Frame (ret a).
Proof. intros w res w' [= <- <-]. repeat split. Qed.

Lemma Frame_throw {A} (e : error) : Frame (throw (A := A) e).
Proof. intros w res w' [= <- <-]. repeat split. Qed.

Lemma Frame_bind {A C} (m : M Ext A) (k : A -> M Ext C) :
  Frame m -> (forall a, Frame (k a)) -> Frame (bind m k).
Proof.
  intros Hm Hk w res w' E. unfold bind in E.
  destruct (m w) as [[a|e] w1] eqn:Em.
  - destruct (Hm _ _ _ Em) as (S1 & R1 & T1 & N1).
    destruct (Hk a _ _ _ E) as (S2 & R2 & T2 & N2).
    repeat split; congruence.
  - injection E as <- <-. apply (Hm _ _ _ Em).
Qed.

Lemma Frame_makeApiCall (r : Request) : Frame (makeApiCall api r).
Proof.
  intros w res w' E. rewrite makeApiCall_eq in E. injection E as <- <-.
  repeat split.
Qed.

Lemma Frame_throwOnFault (body : Body) : Frame (throwOnFault body).
Proof.
  unfold throwOnFault. destruct (body_Fault body); [apply Frame_throw | apply Frame_ret].
Qed.

Lemma Frame_getCompanyRealmIdOrThrow : Frame getCompanyRealmIdOrThrow.
Proof.
  intros w res w' E.
  unfold getCompanyRealmIdOrThrow in E.
  assert (W : w' = w).
  { destruct (token w) as [tk|]; [|injection E as _ <-; reflexivity].
    destruct (negb _); [injection E as _ <-; reflexivity|].
    destruct (_ && _); injection E as _ <-; reflexivity. }
  subst w'. repeat split.
Qed.

Lemma Frame_getOrCreateQboAccount (realm : string) (p : AccountPayload) :
  Frame (getOrCreateQboAccount api realm p).
Proof.
  unfold getOrCreateQboAccount, qboQuery.
  apply Frame_bind; [apply Frame_makeApiCall|]. intros foundData.
  assert (C : Frame
                (bind (makeApiCall api (PostAccount realm p))
                   (fun body =>
                      bind (throwOnFault body)
                        (fun _ =>
                           match body_Account body with
                           | Some a => ret (acc_Id a)
                           | None => throw (TypeError "Cannot read properties of undefined")
                           end)))).
  { apply Frame_bind; [apply Frame_makeApiCall|]. intros body.
    apply Frame_bind; [apply Frame_throwOnFault|]. intros _.
    destruct (body_Account body); [apply Frame_ret | apply Frame_throw]. }
  destruct (match body_QueryResponse foundData with
            | Some qr => match qr_Account qr with Some l => hd_error l | None => None end
            | None => None
            end) as [[[|c id]]|]; try exact C.
  apply Frame_ret.
Qed.

Lemma Frame_fetchMirrorTransactionsForAccount (hederaId : string) (limit : Z) :
  Frame (fetchMirrorTransactionsForAccount mirror hederaId limit).
Proof.
  intros w res w' E. unfold fetchMirrorTransactionsForAccount in E.
  destruct (mirror hederaId limit (ext w)) as [reply e].
  assert (W : w' = after_call (Fetch hederaId limit) e w).
  { destruct reply as [err|ok status txs]; [injection E as _ <-; reflexivity|].
    destruct (negb ok); injection E as _ <-; reflexivity. }
  subst w'. repeat split.
Qed.

Lemma Frame_syncSetup (TARGET : string) (query_account : option string) :
  Frame (syncSetup api mirror TARGET query_account).
Proof.
  unfold syncSetup.
  apply Frame_bind; [apply Frame_getCompanyRealmIdOrThrow|]. intros realm.
  apply Frame_bind; [apply Frame_getOrCreateQboAccount|]. intros id1.
  apply Frame_bind; [apply Frame_getOrCreateQboAccount|]. intros id2.
  apply Frame_bind; [apply Frame_getOrCreateQboAccount|]. intros id3.
  apply Frame_bind; [apply Frame_fetchMirrorTransactionsForAccount|]. intros txs.
  apply Frame_ret.
Qed.

Lemma Frame_destination (tracked : list string) (run : Run) (tx : Transaction) :
  Frame (destination api tracked run tx).
Proof.
  unfold destination. destruct (firstTrackedCounterparty _ _ _);
    [apply Frame_getOrCreateQboAccount | apply Frame_ret].
Qed.

End Frames.

(* ================================================================== *)
(** * What a batch creates *)
(* ================================================================== *)

Section Creations.

Variable Ext : Type.
Variable api : Request -> Ext -> Reply * Ext.
Variable TRACKED_HEDERA_ACCOUNTS : list string.

Local Abbreviation processTx := (processTx api TRACKED_HEDERA_ACCOUNTS).
Local Abbreviation syncLoop := (syncLoop api TRACKED_HEDERA_ACCOUNTS).

Lemma notes_app (l1 l2 : list Call) : notes (l1 ++ l2) = (notes l1 ++ notes l2)%list.
Proof.
  induction l1 as [|c l1 IH]; [reflexivity|]. cbn [app notes].
  destruct (noteOf c); rewrite IH; reflexivity.
Qed.

Lemma notes_none (l : list Call) :
  Forall (fun c => createsRecord c = false) l -> notes l = [].
Proof.
  induction 1 as [|c l Hc _ IH]; [reflexivity|]. cbn [notes].
  destruct c as [[r q|r p|r p|r p]|h n]; cbn [noteOf createsRecord] in *;
    try discriminate; exact IH.
Qed.

Lemma createdCount_cons (row : Row) (rows : list Row) :
  createdCount (row :: rows)
  = (match kind row with CREATED => 1 | _ => 0 end + createdCount rows)%nat.
Proof. unfold createdCount. cbn [filter]. destruct (kind row); reflexivity. Qed.

Lemma counters_length (rows : list Row) :
  (createdCount rows + skippedCount rows)%nat = List.length rows.
Proof.
  unfold createdCount, skippedCount. induction rows as [|r rows IH]; [reflexivity|].
  cbn [filter]. destruct (kind r); cbn [List.length]; lia.
Qed.

Lemma Spec_destination (run : Run) (tx : Transaction) :
  Spec (fun c => createsRecord c = false) (fun _ => True)
    (destination api TRACKED_HEDERA_ACCOUNTS run tx).
Proof.
  unfold destination. destruct (firstTrackedCounterparty _ _ _).
  - eapply Spec_weaken; [apply Spec_getOrCreateQboAccount | | auto].
    intros [[r q|r q|r q|r q]|h l]; cbn [accountCall]; try contradiction; reflexivity.
  - apply Spec_ret. exact I.
Qed.

(** What one turn of the loop does to the calls, to [seenKeys] and to
    the results. *)
Lemma processTx_step (run : Run) (tx : Transaction) (results : list Row)
    (w w' : World Ext) (res : Result (list Row)) :
  processTx run tx results w = (res, w') ->
  exists l,
    made w w' l
    /\ (notes l = []
        \/ (notes l = [makeIdempotencyKey tx]
            /\ has (seenKeys w) (makeIdempotencyKey tx) = false
            /\ moves run tx = true
            /\ seenKeys w' = (seenKeys w ++ [makeIdempotencyKey tx])%list))
    /\ (seenKeys w' = seenKeys w
        \/ seenKeys w' = addKey (seenKeys w) (makeIdempotencyKey tx))
    /\ (forall rows, res = Ok rows ->
          if moves run tx
          then seenKeys w' = addKey (seenKeys w) (makeIdempotencyKey tx)
               /\ exists row,
                    rows = push results row
                    /\ key row = makeIdempotencyKey tx
                    /\ ((kind row = CREATED /\ notes l = [makeIdempotencyKey tx])
                        \/ (kind row <> CREATED /\ notes l = []))
          else rows = results /\ w' = w).
Proof.
  intros E. destruct (moves run tx) eqn:Mv.
  2:{ rewrite processTx_still in E by exact Mv. injection E as <- <-.
      exists []. split; [apply made_nil|]. split; [left; reflexivity|].
      split; [left; reflexivity|]. intros rows [= <-]. split; reflexivity. }
  rewrite processTx_moving in E by exact Mv.
  destruct (toTxnDateFromConsensus (now w) (consensus_timestamp tx)) as [e|d].
  { injection E as <- <-. exists []. split; [apply made_nil|].
    split; [left; reflexivity|]. split; [left; reflexivity|]. discriminate. }
  set (k := makeIdempotencyKey tx) in *.
  destruct (has (seenKeys w) k) eqn:H.
  { injection E as <- <-. exists []. split; [apply made_nil|].
    split; [left; reflexivity|]. split; [left; reflexivity|].
    intros rows [= <-]. unfold addKey. rewrite H. split; [reflexivity|].
    eexists. split; [reflexivity|]. split; [reflexivity|].
    right. split; [discriminate | reflexivity]. }
  assert (A : addKey (seenKeys w) k = (seenKeys w ++ [k])%list)
    by (unfold addKey; rewrite H; reflexivity).
  set (w0 := set_seenKeys (seenKeys w ++ [k]) w) in *.
  (* the tail both branches share, from a world [w1] reached from [w0] *)
  assert (Tail : forall (w1 : World Ext) (l1 : list Call) (q post : Request)
                        (skipped created : Row) (sel : Body -> bool),
             made w w1 l1 -> notes l1 = [] ->
             seenKeys w1 = (seenKeys w ++ [k])%list ->
             noteOf (ApiCall q) = None -> noteOf (ApiCall post) = Some k ->
             key skipped = k -> key created = k ->
             kind skipped <> CREATED -> kind created = CREATED ->
             (let w2 := after_call (ApiCall q) (snd (api q (ext w1))) w1 in
              match fst (api q (ext w1)) with
              | Rejects err => (Throw err, w2)
              | Resolves data =>
                  if sel data then (Ok (push results skipped), w2)
                  else
                    let w3 := after_call (ApiCall post)
                                (snd (api post (ext w2))) w2 in
                    match fst (api post (ext w2)) with
                    | Rejects err => (Throw err, w3)
                    | Resolves body =>
                        match body_Fault body with
                        | Some f => (Throw (Error f), w3)
                        | None => (Ok (push results created), w3)
                        end
                    end
              end) = (res, w') ->
             exists l,
               made w w' l
               /\ (notes l = []
                   \/ (notes l = [k] /\ false = false /\ true = true
                       /\ seenKeys w' = (seenKeys w ++ [k])%list))
               /\ (seenKeys w' = seenKeys w \/ seenKeys w' = addKey (seenKeys w) k)
               /\ (forall rows, res = Ok rows ->
                     seenKeys w' = addKey (seenKeys w) k
                     /\ exists row,
                          rows = push results row /\ key row = k
                          /\ ((kind row = CREATED /\ notes l = [k])
                              \/ (kind row <> CREATED /\ notes l = [])))).
  { intros w1 l1 q post skipped created sel M1 N1 S1 Nq Np Ks Kc Hs Hc T.
    cbv zeta in T.
    assert (Mq : made w (after_call (ApiCall q) (snd (api q (ext w1))) w1)
                   (l1 ++ [ApiCall q])).
    { unfold made in *. cbn [calls after_call]. rewrite M1, app_assoc. reflexivity. }
    assert (Nl : notes (l1 ++ [ApiCall q]) = []).
    { rewrite notes_app, N1. cbn [notes app]. rewrite Nq. reflexivity. }
    assert (Mp : forall e, made w
                   (after_call (ApiCall post) e
                      (after_call (ApiCall q) (snd (api q (ext w1))) w1))
                   (l1 ++ [ApiCall q; ApiCall post])).
    { intros e. unfold made in *. cbn [calls after_call].
      rewrite M1, <- !app_assoc. reflexivity. }
    assert (Nlp : notes (l1 ++ [ApiCall q; ApiCall post]) = [k]).
    { rewrite notes_app, N1. cbn [notes app]. rewrite Nq, Np. reflexivity. }
    destruct (fst (api q (ext w1))) as [err|data].
    - injection T as <- <-. exists (l1 ++ [ApiCall q])%list.
      split; [exact Mq|]. split; [left; exact Nl|].
      split; [right; rewrite A; exact S1 | discriminate].
    - destruct (sel data).
      + injection T as <- <-. exists (l1 ++ [ApiCall q])%list.
        split; [exact Mq|]. split; [left; exact Nl|].
        split; [right; rewrite A; exact S1|].
        intros rows [= <-]. split; [rewrite A; exact S1|].
        exists skipped. split; [reflexivity|]. split; [exact Ks|].
        right. split; [exact Hs | exact Nl].
      + destruct (fst (api post _)) as [err|body].
        * injection T as <- <-. exists (l1 ++ [ApiCall q; ApiCall post])%list.
          split; [apply Mp|]. split; [right; repeat split; [exact Nlp | exact S1]|].
          split; [right; rewrite A; exact S1 | discriminate].
        * destruct (body_Fault body).
          -- injection T as <- <-. exists (l1 ++ [ApiCall q; ApiCall post])%list.
             split; [apply Mp|]. split; [right; repeat split; [exact Nlp | exact S1]|].
             split; [right; rewrite A; exact S1 | discriminate].
          -- injection T as <- <-. exists (l1 ++ [ApiCall q; ApiCall post])%list.
             split; [apply Mp|]. split; [right; repeat split; [exact Nlp | exact S1]|].
             split; [right; rewrite A; exact S1|].
             intros rows [= <-]. split; [rewrite A; exact S1|].
             exists created. split; [reflexivity|]. split; [exact Kc|].
             left. split; [exact Hc | exact Nlp]. }
  assert (M0 : made w w0 []).
  { unfold made, w0. cbn [calls set_seenKeys]. rewrite app_nil_r. reflexivity. }
  destruct (gt (netTinybarFor tx (target run)) (Finite 0)).
  - rewrite inbound_eq in E.
    eapply (Tail w0 []) in E;
      [ | exact M0 | reflexivity | reflexivity | reflexivity | reflexivity
        | reflexivity | reflexivity | discriminate | reflexivity ].
    destruct E as (l & Ml & Nl & Sl & Rl).
    exists l. split; [exact Ml|]. split; [|split; [exact Sl | exact Rl]].
    destruct Nl as [Nl | (Nl & _ & _ & Sk)]; [left; exact Nl|].
    right. repeat split; assumption.
  - rewrite outbound_eq in E.
    destruct (destination api TRACKED_HEDERA_ACCOUNTS run tx w0)
      as [[toId|e] w1] eqn:Ed.
    + destruct (Spec_destination run tx _ _ _ Ed) as ([l1 [M1 F1]] & _).
      destruct (Frame_destination Ext api _ run tx _ _ _ Ed) as (S1 & _).
      assert (M1' : made w w1 l1).
      { unfold made in *. rewrite M1. reflexivity. }
      eapply (Tail w1 l1) in E;
        [ | exact M1' | exact (notes_none _ F1) | exact S1 | reflexivity
          | reflexivity | reflexivity | reflexivity | discriminate | reflexivity ].
      destruct E as (l & Ml & Nl & Sl & Rl).
      exists l. split; [exact Ml|]. split; [|split; [exact Sl | exact Rl]].
      destruct Nl as [Nl | (Nl & _ & _ & Sk)]; [left; exact Nl|].
      right. repeat split; assumption.
    + injection E as <- <-.
      destruct (Spec_destination run tx _ _ _ Ed) as ([l1 [M1 F1]] & _).
      destruct (Frame_destination Ext api _ run tx _ _ _ Ed) as (S1 & _).
      exists l1. split; [unfold made in *; rewrite M1; reflexivity|].
      split; [left; apply notes_none, F1|].
      split; [right; rewrite A; exact S1 | discriminate].
Qed.

(** What a whole loop does: the records it creates carry pairwise
    different keys, each new to the process, and when it runs to its end
    the rows, the counter and [seenKeys] follow the moving transactions
    one by one. *)
Lemma syncLoop_trace (run : Run) (txs : list Transaction) (results : list Row)
    (w w' : World Ext) (res : Result (list Row)) :
  syncLoop run txs results w = (res, w') ->
  exists l,
    made w w' l
    /\ NoDup (notes l)
    /\ (forall k, In k (notes l) ->
          has (seenKeys w) k = false /\ seen w' k
          /\ exists tx, In tx txs /\ moves run tx = true
                        /\ k = makeIdempotencyKey tx)
    /\ (forall rows, res = Ok rows ->
          exists new,
            rows = (results ++ new)%list
            /\ map key new = map makeIdempotencyKey (filter (moves run) txs)
            /\ createdCount new = List.length (notes l)
            /\ seenKeys w'
               = fold_left addKey (map makeIdempotencyKey (filter (moves run) txs))
                   (seenKeys w)).
Proof.
  revert results w. induction txs as [|tx rest IH]; intros results w E.
  { injection E as <- <-. exists []. split; [apply made_nil|].
    split; [constructor|]. split; [intros k []|].
    intros rows [= <-]. exists []. rewrite app_nil_r. repeat split; reflexivity. }
  cbn [Sync.syncLoop] in E. unfold bind in E.
  destruct (processTx run tx results w) as [[rows0|e] w1] eqn:E0.
  - destruct (processTx_step run tx results _ _ _ E0) as (l1 & M1 & N1 & _ & R1).
    destruct (Spec_processTx Ext api TRACKED_HEDERA_ACCOUNTS run tx results _ _ _ E0)
      as (_ & S1 & _).
    destruct (Spec_syncLoop Ext api TRACKED_HEDERA_ACCOUNTS run rest rows0 _ _ _ E)
      as (_ & S2 & _).
    destruct (IH _ _ E) as (l2 & M2 & D2 & K2 & R2).
    specialize (R1 rows0 eq_refl).
    exists (l1 ++ l2)%list. split; [eapply made_app; eassumption|].
    rewrite notes_app.
    assert (Old : forall k, has (seenKeys w1) k = false -> has (seenKeys w) k = false).
    { intros k U. destruct (has (seenKeys w) k) eqn:H; [|reflexivity].
      rewrite (S1 k H) in U. discriminate. }
    split; [|split].
    + destruct N1 as [-> | (-> & _ & _ & Sk)]; [exact D2|].
      cbn [app]. constructor; [|exact D2].
      intros Hin. destruct (K2 _ Hin) as (U & _).
      rewrite Sk, has_last in U. discriminate.
    + intros k Hin. apply in_app_or in Hin as [Hin | Hin].
      * destruct N1 as [N1 | (N1 & U & Mv & Sk)]; rewrite N1 in Hin;
          [contradiction|].
        destruct Hin as [<- | []]. split; [exact U|].
        split; [apply S2; unfold seen; rewrite Sk; apply has_last|].
        exists tx. split; [left; reflexivity|]. split; [exact Mv | reflexivity].
      * destruct (K2 _ Hin) as (U & S & tx' & Hin' & Mv' & Ek).
        split; [apply Old, U|]. split; [exact S|].
        exists tx'. split; [right; exact Hin'|]. split; assumption.
    + intros rows Er. destruct (R2 rows Er) as (new & -> & Rk & Rc & Rs).
      cbn [filter]. destruct (moves run tx).
      * destruct R1 as (Sk & row & -> & Kr & Kd).
        exists (row :: new). unfold push. rewrite <- app_assoc.
        split; [reflexivity|]. cbn [map fold_left]. rewrite Rk, Kr, Rs, Sk.
        split; [reflexivity|]. split; [|reflexivity].
        rewrite createdCount_cons, Rc, List.length_app.
        destruct Kd as [[Kc Nl] | [Nc Nl]]; rewrite Nl; cbn [List.length].
        -- rewrite Kc. reflexivity.
        -- destruct (kind row); try (exfalso; apply Nc; reflexivity); reflexivity.
      * destruct R1 as [-> ->]. exists new.
        assert (N0 : notes l1 = []).
        { destruct N1 as [N1 | (_ & _ & Mv & _)]; [exact N1 | discriminate]. }
        rewrite N0. repeat split; assumption.
  - injection E as <- <-.
    destruct (processTx_step run tx results _ _ _ E0) as (l1 & M1 & N1 & _ & _).
    exists l1. split; [exact M1|]. split; [|split; [|discriminate]].
    + destruct N1 as [-> | (-> & _)]; [constructor|].
      constructor; [intros [] | constructor].
    + intros k Hin. destruct N1 as [N1 | (N1 & U & Mv & Sk)]; rewrite N1 in Hin;
        [contradiction|].
      destruct Hin as [<- | []]. split; [exact U|].
      split; [unfold seen; rewrite Sk; apply has_last|].
      exists tx. split; [left; reflexivity|]. split; [exact Mv | reflexivity].
Qed.

End Creations.

(* ================================================================== *)
(** * Amounts *)
(* ================================================================== *)

Section Amounts.

Lemma round64_Qeq (q q' : Q) : (q == q')%Q -> round64 q = round64 q'.
Proof. intros H. unfold round64. rewrite (Qred_complete q q' H). reflexivity. Qed.

Lemma sumZ_le_sumAbs (zs : list Z) : Z.abs (sumZ zs) <= sumAbs zs.
Proof.
  induction zs as [|z zs IH]; [discriminate|].
  change (sumZ (z :: zs)) with (z + sumZ zs).
  change (sumAbs (z :: zs)) with (Z.abs z + sumAbs zs). lia.
Qed.

(** X1: when the amounts of the entries of the target are integers (or
    missing) whose absolute values add up to at most 2^53, the net
    movement is their exact integer sum; the loop skips the transaction
    exactly when the sum is 0, books a deposit exactly when it is
    positive and a transfer exactly when it is negative. *)
Theorem classification_by_integer_sum (run : Run) (tx : Transaction)
    (zs : list Z) :
  map (fun t => tinybar (amount t)) (entriesOf tx (target run)) = map Some zs ->
  sumAbs zs <= 2 ^ 53 ->
  netTinybarFor tx (target run) = Finite (inject_Z (sumZ zs))
  /\ moves run tx = negb (sumZ zs =? 0)
  /\ gt (netTinybarFor tx (target run)) (Finite 0) = (0 <? sumZ zs)
  /\ negative (netTinybarFor tx (target run)) = (sumZ zs <? 0).
Proof.
  intros E B. pose proof (netTinybarFor_sum tx (target run) zs E B) as N.
  split; [exact N|]. unfold moves, negative. rewrite N.
  unfold strict_eq, gt, Qeq_bool, Qle_bool, inject_Z. cbn [Qnum Qden].
  rewrite !Z.mul_1_r. change (0 * 1) with 0.
  split; [reflexivity|]. split.
  - destruct (Z.leb_spec (sumZ zs) 0), (Z.ltb_spec 0 (sumZ zs)); try reflexivity; lia.
  - destruct (Z.leb_spec 0 (sumZ zs)), (Z.ltb_spec (sumZ zs) 0); try reflexivity; lia.
Qed.

Lemma toFixed2_int (a : Z) :
  0 <= a <= 2 ^ 53 -> toFixed2 (Finite (inject_Z a)) = Finite (inject_Z a).
Proof.
  intros Ha. unfold toFixed2.
  assert (L : Qle_bool (inject_Z (10 ^ 21)) (Qabs (inject_Z a)) = false).
  { apply not_true_is_false. intros L. apply Qle_bool_iff in L.
    unfold Qle, Qabs, inject_Z in L. cbn [Qnum Qden] in L.
    assert (2 ^ 53 < 10 ^ 21) by reflexivity. lia. }
  rewrite L.
  replace (Qnum (inject_Z a) <? 0) with false
    by (symmetry; apply Z.ltb_ge; cbn [Qnum inject_Z]; lia).
  assert (F : Qfloor (Qabs (inject_Z a) * 100 + (1 # 2)) = a * 100).
  { unfold Qfloor, Qabs, Qplus, Qmult, inject_Z. cbn [Qnum Qden].
    rewrite Z.abs_eq by lia.
    change (Z.pos (1 * 1 * 2)) with 2. change (Z.pos (1 * 1)) with 1.
    change (Z.pos 2) with 2.
    symmetry. apply Z.div_unique with (r := 1); lia. }
  rewrite F. rewrite (round64_Qeq _ (inject_Z a)).
  - apply round64_inject_Z. lia.
  - unfold Qeq, inject_Z. cbn [Qnum Qden]. lia.
Qed.

(** X2: a net movement of a whole number [k] of hbar, in tinybar within
    2^53, is booked with the amount [|k|]: the division by 100 000 000
    and the rounding to two decimals are exact, and the sign is
    dropped.  The Deposit line and the Transfer carry this amount. *)
Theorem whole_hbar_amount (run : Run) (tx : Transaction) (zs : list Z)
    (k : Z) (d toId : string) :
  map (fun t => tinybar (amount t)) (entriesOf tx (target run)) = map Some zs ->
  sumAbs zs <= 2 ^ 53 ->
  sumZ zs = k * 100000000 ->
  hbarOf run tx = Finite (inject_Z (Z.abs k))
  /\ map line_Amount (dep_Line (depositPayload run tx d))
     = [Finite (inject_Z (Z.abs k))]
  /\ xfer_Amount (transferPayload run tx d toId) = Finite (inject_Z (Z.abs k)).
Proof.
  intros E B K. pose proof (sumZ_le_sumAbs zs) as A.
  assert (Hk : 0 <= Z.abs k <= 2 ^ 53) by lia.
  assert (H : hbarOf run tx = Finite (inject_Z (Z.abs k))).
  { unfold hbarOf. rewrite (netTinybarFor_sum tx (target run) zs E B), K.
    unfold Math_abs, div.
    change (Qnum 100000000 ?= 0) with Gt. cbv iota.
    rewrite (round64_Qeq _ (inject_Z (Z.abs k))).
    - apply round64_inject_Z. lia.
    - unfold Qeq, Qdiv, Qmult, Qinv, Qabs, inject_Z. cbn [Qnum Qden].
      rewrite Z.abs_mul. change (Z.abs 100000000) with 100000000.
      change (Z.pos (1 * 100000000)) with 100000000. lia. }
  cbn [depositPayload dep_Line transferPayload xfer_Amount map line_Amount].
  rewrite H, toFixed2_int by exact Hk. repeat split; reflexivity.
Qed.

End Amounts.

(* ================================================================== *)
(** * The text spliced into queries *)
(* ================================================================== *)

Section Literals.

Lemma allIsoChars_app (a b : string) :
  allIsoChars (a ++ b) = allIsoChars a && allIsoChars b.
Proof.
  induction a as [|x a IH]; simpl; [reflexivity|].
  rewrite IH, andb_assoc. reflexivity.
Qed.

Lemma allIsoChars_substring (s : string) (n m : nat) :
  allIsoChars s = true -> allIsoChars (substring n m s) = true.
Proof.
  revert n m. induction s as [|x s IH]; intros n m H.
  - destruct n, m; reflexivity.
  - simpl in H. apply andb_true_iff in H as [Hx Hs].
    destruct n as [|n]; destruct m as [|m]; simpl; auto.
    rewrite Hx. simpl. apply (IH 0%nat), Hs.
Qed.

Lemma isoChar_digit_char (d : Z) : isoChar (digit_char d) = true.
Proof.
  unfold digit_char.
  assert (H : 0 <= d mod 10 < 10) by (apply Z.mod_pos_bound; lia).
  assert (C : d mod 10 = 0 \/ d mod 10 = 1 \/ d mod 10 = 2 \/ d mod 10 = 3
              \/ d mod 10 = 4 \/ d mod 10 = 5 \/ d mod 10 = 6 \/ d mod 10 = 7
              \/ d mod 10 = 8 \/ d mod 10 = 9) by lia.
  repeat (destruct C as [-> | C]; [reflexivity|]). rewrite C. reflexivity.
Qed.

Lemma allIsoChars_pad (width : nat) (n : Z) : allIsoChars (pad width n) = true.
Proof.
  revert n. induction width as [|w IH]; intros n; simpl; [reflexivity|].
  rewrite allIsoChars_app, IH. simpl. rewrite isoChar_digit_char. reflexivity.
Qed.

Lemma allIsoChars_iso_string (t : Z) : allIsoChars (iso_string t) = true.
Proof.
  unfold iso_string. destruct (civil_from_days (t / msPerDay)) as [[y m] d].
  assert (Hy : allIsoChars (iso_year y) = true).
  { unfold iso_year.
    destruct ((0 <=? y) && (y <=? 9999)); [apply allIsoChars_pad|].
    destruct (y <? 0);
      (change (allIsoChars (String ?c ?r)) with (isoChar c && allIsoChars r);
       rewrite allIsoChars_pad; reflexivity). }
  repeat (rewrite allIsoChars_app; apply andb_true_iff; split;
          try apply allIsoChars_pad; try exact Hy; try reflexivity).
Qed.

Lemma toTxnDateFromConsensus_allIsoChars (now : Z) (ts : option string)
    (d : string) :
  toTxnDateFromConsensus now ts = inr d -> allIsoChars d = true.
Proof.
  assert (I : forall v, isoDate v = inr d -> allIsoChars d = true).
  { intros [t|]; simpl; [|discriminate]. intros [= <-].
    apply allIsoChars_substring, allIsoChars_iso_string. }
  unfold toTxnDateFromConsensus. destruct ts as [ts|]; [|apply I].
  destruct (negb (truthy ts)); [apply I|].
  destruct (negb (Number_isFinite _)); apply I.
Qed.

Lemma isoChar_plain (c : ascii) :
  isoChar c = true ->
  isWhiteSpace c = false /\ Ascii.eqb c "'" = false /\ Ascii.eqb c "\" = false.
Proof.
  destruct c as [[] [] [] [] [] [] [] []]; vm_compute; intros H;
    try discriminate H; repeat split; reflexivity.
Qed.

Lemma allIsoChars_plain (d : string) :
  allIsoChars d = true ->
  noWhiteSpace d = true /\ occurs "'" d = false /\ occurs "\" d = false.
Proof.
  induction d as [|c d IH]; simpl; [auto|]. intros H.
  apply andb_true_iff in H as [Hc Hd].
  destruct (isoChar_plain c Hc) as (W & Q & B).
  destruct (IH Hd) as (W' & Q' & B'). rewrite W, Q, B, W', Q', B'. auto.
Qed.

Lemma readLiteral_plain (d rest : string) :
  occurs "'" d = false -> occurs "\" d = false ->
  readLiteral (d ++ String "'" rest) = Some (d, rest).
Proof.
  induction d as [|c d IH]; intros Q B; [reflexivity|].
  simpl in Q, B. apply orb_false_iff in Q as [Qc Q].
  apply orb_false_iff in B as [Bc B].
  change (readLiteral (String c (d ++ String "'" rest)) = Some (String c d, rest)).
  cbn [readLiteral]. rewrite Qc, Bc, (IH Q B). reflexivity.
Qed.

(** X3: the date derived for a transaction, whatever its timestamp and
    the clock, is made of digits and the punctuation of an ISO date
    only: it holds no quote, no backslash and no white space.  Spliced
    unescaped into the two duplicate queries it yields exactly the
    one-line query text, and the quoted literal of that text reads back
    as the date. *)
Theorem txnDate_is_a_safe_literal (now : Z) (ts : option string) (d : string) :
  toTxnDateFromConsensus now ts = inr d ->
  allIsoChars d = true
  /\ occurs "'" d = false /\ occurs "\" d = false /\ noWhiteSpace d = true
  /\ transferQuery d
     = "select Id,PrivateNote from Transfer where TxnDate='" ++ d
         ++ "' maxresults 200"
  /\ depositQuery d
     = "select Id, PrivateNote from Deposit where TxnDate='" ++ d
         ++ "' maxresults 200"
  /\ readLiteral (d ++ "' maxresults 200") = Some (d, " maxresults 200").
Proof.
  intros E. pose proof (toTxnDateFromConsensus_allIsoChars _ _ _ E) as I.
  destruct (allIsoChars_plain d I) as (W & Q & B).
  split; [exact I|]. split; [exact Q|]. split; [exact B|]. split; [exact W|].
  split; [apply transferQuery_text, W|]. split; [apply depositQuery_text, W|].
  apply readLiteral_plain; assumption.
Qed.

(** X4: a timestamp whose seconds are decimal digits, up to the last
    second a [Date] can hold and in a year up to 9999, gives the UTC
    calendar date of that second as [YYYY-MM-DD], ten characters; the
    clock and the digits after the full stop play no part. *)
Theorem txnDate_of_seconds (now : Z) (ts : string) (y m d : Z) :
  before_dot ts <> EmptyString ->
  allDigits (before_dot ts) = true ->
  decimalValue (before_dot ts) <= 8640000000000 ->
  civil_from_days (decimalValue (before_dot ts) * 1000 / msPerDay) = (y, m, d) ->
  0 <= y <= 9999 ->
  toTxnDateFromConsensus now (Some ts)
  = inr (pad 4 y ++ "-" ++ pad 2 m ++ "-" ++ pad 2 d)
  /\ String.length (pad 4 y ++ "-" ++ pad 2 m ++ "-" ++ pad 2 d) = 10%nat.
Proof.
  intros Hne Hd Hv C Hy. split.
  - rewrite (toTxnDateFromConsensus_seconds now ts Hne Hd Hv).
    rewrite (iso_date _ y m d C Hy). reflexivity.
  - rewrite !length_app, !length_pad. reflexivity.
Qed.

Lemma qboEscape_cons (c : ascii) (s : string) :
  qboEscape (String c s)
  = (if Ascii.eqb c "\" then "\\"
     else if Ascii.eqb c "'" then "\'"
     else String c EmptyString) ++ qboEscape s.
Proof.
  unfold qboEscape. cbn [replace_char].
  destruct (Ascii.eqb c "\") eqn:B.
  - apply Ascii.eqb_eq in B. subst c. reflexivity.
  - cbn [replace_char]. destruct (Ascii.eqb c "'"); reflexivity.
Qed.

Lemma readLiteral_qboEscape (name rest : string) :
  readLiteral (qboEscape name ++ String "'" rest) = Some (name, rest).
Proof.
  induction name as [|c name IH]; [reflexivity|].
  rewrite qboEscape_cons.
  destruct (Ascii.eqb c "\") eqn:B.
  - apply Ascii.eqb_eq in B. subst c.
    change (readLiteral (String "\" (String "\" (qboEscape name ++ String "'" rest)))
            = Some (String "\" name, rest)).
    cbn [readLiteral]. change (Ascii.eqb "\" "'") with false.
    change (Ascii.eqb "\" "\") with true. cbv iota. rewrite IH. reflexivity.
  - destruct (Ascii.eqb c "'") eqn:Q.
    + apply Ascii.eqb_eq in Q. subst c.
      change (readLiteral (String "\" (String "'" (qboEscape name ++ String "'" rest)))
              = Some (String "'" name, rest)).
      cbn [readLiteral]. change (Ascii.eqb "\" "'") with false.
      change (Ascii.eqb "\" "\") with true. cbv iota. rewrite IH. reflexivity.
    + change (readLiteral (String c (qboEscape name ++ String "'" rest))
              = Some (String c name, rest)).
      cbn [readLiteral]. rewrite Q, B, IH. reflexivity.
Qed.

(** X5: [qboEscape] loses nothing and lets nothing out of the quotes.
    A reader of the quoted literal that takes a backslash as escaping
    the next character gets the name back from the escaped text, with
    exactly what follows the closing quote left over; the account
    lookup query is the fixed text around the escaped name, so lookups
    for different names send different queries. *)
Theorem qboEscape_round_trip (name name' rest : string) :
  readLiteral (qboEscape name ++ "'" ++ rest) = Some (name, rest)
  /\ findAccountQuery name
     = "select * from Account where Name='" ++ qboEscape name ++ "' maxresults 1"
  /\ (name <> name' -> findAccountQuery name <> findAccountQuery name').
Proof.
  split; [apply readLiteral_qboEscape|]. split; [reflexivity|].
  intros N E. apply N. unfold findAccountQuery in E.
  repeat (simpl in E; injection E as E).
  pose proof (readLiteral_qboEscape name " maxresults 1") as Ra.
  change (String "'" " maxresults 1") with "' maxresults 1" in Ra.
  rewrite E in Ra.
  change "' maxresults 1" with (String "'" " maxresults 1") in Ra.
  rewrite readLiteral_qboEscape in Ra. congruence.
Qed.

End Literals.

(* ================================================================== *)
(** * Sessions, batches and the read-only routes *)
(* ================================================================== *)

Section Routes.

Variable Ext : Type.
Variable api : Request -> Ext -> Reply * Ext.
Variable mirror : string -> Z -> Ext -> MirrorReply * Ext.
Variable TARGET_HEDERA_ACCOUNT : string.
Variable TRACKED_HEDERA_ACCOUNTS : list string.

Local Abbreviation processTx := (processTx api TRACKED_HEDERA_ACCOUNTS).
Local Abbreviation syncLoop := (syncLoop api TRACKED_HEDERA_ACCOUNTS).
Local Abbreviation syncSetup := (syncSetup api mirror TARGET_HEDERA_ACCOUNT).
Local Abbreviation syncHederaToQbo :=
  (syncHederaToQbo api mirror TARGET_HEDERA_ACCOUNT TRACKED_HEDERA_ACCOUNTS).

Lemma getCompanyRealmIdOrThrow_world (w : World Ext) :
  snd (getCompanyRealmIdOrThrow w) = w.
Proof.
  unfold getCompanyRealmIdOrThrow. destruct (token w) as [tk|]; [|reflexivity].
  destruct (negb _); [reflexivity|]. destruct (_ && _); reflexivity.
Qed.

Lemma getCompanyRealmIdOrThrow_valid (w : World Ext) (r : string) :
  fst (getCompanyRealmIdOrThrow w) = Ok r <-> validSession w r.
Proof.
  unfold getCompanyRealmIdOrThrow, validSession. split.
  - destruct (token w) as [tk|]; [|discriminate].
    destruct (token_realmId tk) as [t|] eqn:T; cbn [truthy_opt negb opt_or];
      [|discriminate].
    destruct (truthy t) eqn:Tt; cbn [negb]; [|discriminate].
    destruct (realmId w) as [x|]; cbn [truthy_opt eqb_opt].
    + destruct (truthy x) eqn:Tx; cbn [andb].
      * destruct (String.eqb x t) eqn:Ex; cbn [negb]; [|discriminate].
        apply String.eqb_eq in Ex. subst x. intros [= <-].
        exists tk. repeat split; auto.
      * intros [= <-]. exists tk. repeat split; auto.
    + intros [= <-]. exists tk. repeat split; auto.
  - intros (tk & -> & T & Tr & R). rewrite T. cbn [truthy_opt negb opt_or].
    rewrite Tr. cbn [negb].
    destruct R as [-> | R].
    + cbn [truthy_opt eqb_opt]. rewrite String.eqb_refl, andb_false_r. reflexivity.
    + rewrite R. reflexivity.
Qed.

(** X6: the realm helper returns [r] exactly for a session that holds a
    token whose realm [r] is non-empty while the realm kept from the
    callback is unset, empty or equal to [r]; in every case it leaves
    the process and the backend as they are. *)
Theorem realm_helper_accepts_valid_sessions (w : World Ext) (r : string) :
  (fst (getCompanyRealmIdOrThrow w) = Ok r <-> validSession w r)
  /\ snd (getCompanyRealmIdOrThrow w) = w.
Proof.
  split; [apply getCompanyRealmIdOrThrow_valid | apply getCompanyRealmIdOrThrow_world].
Qed.

Lemma getCompanyRealmIdOrThrow_refuses (w : World Ext) :
  (forall r, ~ validSession w r) ->
  exists e, getCompanyRealmIdOrThrow w = (Throw e, w).
Proof.
  intros N. pose proof (getCompanyRealmIdOrThrow_world w) as W.
  destruct (getCompanyRealmIdOrThrow w) as [[r|e] w'] eqn:E; cbn [snd] in W; subst w'.
  - exfalso. apply (N r). apply getCompanyRealmIdOrThrow_valid. rewrite E. reflexivity.
  - exists e. reflexivity.
Qed.

(** X7: without a valid session every data route answers the error of
    the realm helper and does nothing else: no call leaves the process
    and the process state is untouched. *)
Theorem no_session_no_call (query_account : option string) (w : World Ext) :
  (forall r, ~ validSession w r) ->
  exists e,
    fst (getCompanyRealmIdOrThrow w) = Throw e
    /\ syncHederaToQbo query_account w = (Status500 e, w)
    /\ listAccounts api w = (ErrorPage e, w)
    /\ listTransfers api w = (ErrorPage e, w)
    /\ listDeposits api w = (ErrorPage e, w).
Proof.
  intros N. destruct (getCompanyRealmIdOrThrow_refuses w N) as [e E].
  exists e. split; [rewrite E; reflexivity|].
  split; [|split; [|split]].
  - unfold Sync.syncHederaToQbo, Sync.syncSetup, bind. rewrite E. reflexivity.
  - unfold listAccounts, answer, bind. rewrite E. reflexivity.
  - unfold listTransfers, answer, bind. rewrite E. reflexivity.
  - unfold listDeposits, answer, bind. rewrite E. reflexivity.
Qed.

(** X8: when a statement before the loop throws (the realm helper, an
    account lookup or creation, the mirror node), the route answers 500
    with that error, [seenKeys] is what it was, and the calls made
    created no Deposit and no Transfer. *)
Theorem setup_failure_books_nothing (query_account : option string)
    (w w1 : World Ext) (e : error) :
  syncSetup query_account w = (Throw e, w1) ->
  syncHederaToQbo query_account w = (Status500 e, w1)
  /\ seenKeys w1 = seenKeys w
  /\ exists l, made w w1 l /\ Forall (fun c => createsRecord c = false) l.
Proof.
  intros E. split; [|split].
  - rewrite (syncHederaToQbo_eq Ext api mirror TARGET_HEDERA_ACCOUNT
               TRACKED_HEDERA_ACCOUNTS), E. reflexivity.
  - apply (Frame_syncSetup Ext api mirror TARGET_HEDERA_ACCOUNT query_account _ _ _ E).
  - apply (Spec_syncSetup Ext api mirror TARGET_HEDERA_ACCOUNT query_account _ _ _ E).
Qed.

(** X9: the find-or-create of a ledger account always starts with the
    lookup query for the name.  When the lookup returns a first account
    with a non-empty [Id] it answers that [Id] and posts nothing; when
    it returns none, or one whose [Id] is empty, it posts the account
    once and answers the [Id] of the created account, or throws on a
    fault.  A lookup that is rejected ends it. *)
Theorem account_found_or_created (realm : string) (p : AccountPayload)
    (w : World Ext) :
  let q := Query realm (findAccountQuery (Name p)) in
  let post := PostAccount realm p in
  let w1 := after_call (ApiCall q) (snd (api q (ext w))) w in
  let w2 := after_call (ApiCall post) (snd (api post (ext w1))) w1 in
  (forall err, fst (api q (ext w)) = Rejects err ->
     getOrCreateQboAccount api realm p w = (Throw err, w1))
  /\ (forall data c id,
        fst (api q (ext w)) = Resolves data ->
        firstAccount data = Some {| acc_Id := String c id |} ->
        getOrCreateQboAccount api realm p w = (Ok (String c id), w1))
  /\ (forall data,
        fst (api q (ext w)) = Resolves data ->
        firstAccount data = None
        \/ firstAccount data = Some {| acc_Id := EmptyString |} ->
        getOrCreateQboAccount api realm p w
        = (match fst (api post (ext w1)) with
           | Rejects err => Throw err
           | Resolves body =>
               match body_Fault body, body_Account body with
               | Some f, _ => Throw (Error f)
               | None, Some a => Ok (acc_Id a)
               | None, None =>
                   Throw (TypeError "Cannot read properties of undefined")
               end
           end, w2)).
Proof.
  cbv zeta.
  assert (C : forall w1,
             bind (makeApiCall api (PostAccount realm p))
               (fun body =>
                  bind (throwOnFault body)
                    (fun _ =>
                       match body_Account body with
                       | Some a => ret (acc_Id a)
                       | None => throw (TypeError "Cannot read properties of undefined")
                       end)) w1
             = (match fst (api (PostAccount realm p) (ext w1)) with
                | Rejects err => Throw err
                | Resolves body =>
                    match body_Fault body, body_Account body with
                    | Some f, _ => Throw (Error f)
                    | None, Some a => Ok (acc_Id a)
                    | None, None =>
                        Throw (TypeError "Cannot read properties of undefined")
                    end
                end,
                after_call (ApiCall (PostAccount realm p))
                  (snd (api (PostAccount realm p) (ext w1))) w1)).
  { intros w1. unfold bind at 1. rewrite makeApiCall_eq.
    destruct (fst (api (PostAccount realm p) (ext w1))) as [err|body];
      [reflexivity|].
    unfold bind, throwOnFault. destruct (body_Fault body); [reflexivity|].
    destruct (body_Account body); reflexivity. }
  assert (Q : getOrCreateQboAccount api realm p w
              = bind (makeApiCall api (Query realm (findAccountQuery (Name p))))
                  (fun foundData =>
                     match firstAccount foundData with
                     | Some (Build_AccountEntity (String _ _ as id)) => ret id
                     | _ =>
                         bind (makeApiCall api (PostAccount realm p))
                           (fun body =>
                              bind (throwOnFault body)
                                (fun _ =>
                                   match body_Account body with
                                   | Some a => ret (acc_Id a)
                                   | None =>
                                       throw (TypeError
                                                "Cannot read properties of undefined")
                                   end))
                     end) w) by reflexivity.
  rewrite Q. split; [|split].
  - intros err E. unfold bind at 1. rewrite makeApiCall_eq, E. reflexivity.
  - intros data c id E F. unfold bind at 1. rewrite makeApiCall_eq, E, F.
    reflexivity.
  - intros data E F. unfold bind at 1. rewrite makeApiCall_eq, E.
    destruct F as [-> | ->]; apply C.
Qed.

(** X10: a remote duplicate is not booked again.  For a moving
    transaction whose key is new to the process, when the duplicate
    query returns a candidate whose [PrivateNote] is the key, the loop
    body records [SKIPPED_QBO] for the entity of its direction and the
    query is its last call: nothing is posted. *)
Theorem remote_duplicate_is_skipped (run : Run) (tx : Transaction)
    (results : list Row) (w : World Ext) (d : string) (data : Body) :
  moves run tx = true ->
  toTxnDateFromConsensus (now w) (consensus_timestamp tx) = inr d ->
  has (seenKeys w) (makeIdempotencyKey tx) = false ->
  let w0 := set_seenKeys (seenKeys w ++ [makeIdempotencyKey tx]) w in
  (gt (netTinybarFor tx (target run)) (Finite 0) = true ->
   let q := Query (companyRealmId run) (depositQuery d) in
   fst (api q (ext w)) = Resolves data ->
   anyNoteIs (makeIdempotencyKey tx) (candidates_of qr_Deposit data) = true ->
   processTx run tx results w
   = (Ok (push results (skippedQboRow Deposit tx)),
      after_call (ApiCall q) (snd (api q (ext w))) w0))
  /\ (gt (netTinybarFor tx (target run)) (Finite 0) = false ->
      forall toId w1,
        destination api TRACKED_HEDERA_ACCOUNTS run tx w0 = (Ok toId, w1) ->
        let q := Query (companyRealmId run) (transferQuery d) in
        fst (api q (ext w1)) = Resolves data ->
        anyNoteIs (makeIdempotencyKey tx) (candidates_of qr_Transfer data) = true ->
        processTx run tx results w
        = (Ok (push results (skippedQboRow Transfer tx)),
           after_call (ApiCall q) (snd (api q (ext w1))) w1)).
Proof.
  intros Mv D H. cbv zeta. split.
  - intros G Eq Hn. rewrite processTx_moving by exact Mv.
    rewrite D, H, G, inbound_eq. cbv zeta.
    change (ext (set_seenKeys _ w)) with (ext w). rewrite Eq, Hn. reflexivity.
  - intros G toId w1 Ed Eq Hn. rewrite processTx_moving by exact Mv.
    rewrite D, H, G, outbound_eq, Ed. cbv zeta. rewrite Eq, Hn. reflexivity.
Qed.

(** X11: a loop that runs to its end appends one row for each
    transaction with a net movement, in the order of the page, with the
    key of that transaction; the rows it was given stay in front, and a
    transaction without net movement leaves no row. *)
Theorem one_row_per_moving_transaction (run : Run) (txs : list Transaction)
    (results rows : list Row) (w w' : World Ext) :
  syncLoop run txs results w = (Ok rows, w') ->
  exists new,
    rows = (results ++ new)%list
    /\ map key new = map makeIdempotencyKey (filter (moves run) txs)
    /\ List.length new = List.length (filter (moves run) txs).
Proof.
  intros E.
  destruct (syncLoop_trace Ext api TRACKED_HEDERA_ACCOUNTS run txs results _ _ _ E)
    as (l & _ & _ & _ & R).
  destruct (R rows eq_refl) as (new & Hr & Hk & _).
  exists new. split; [exact Hr|]. split; [exact Hk|].
  rewrite <- (length_map key new), Hk, length_map. reflexivity.
Qed.

Lemma fold_addKey_has (ks : list string) (old : list string) (k : string) :
  has (fold_left addKey ks old) k = has old k || existsb (String.eqb k) ks.
Proof.
  revert old. induction ks as [|x ks IH]; intros old; cbn [fold_left existsb].
  - rewrite orb_false_r. reflexivity.
  - rewrite IH. unfold addKey. destruct (has old x) eqn:Hx.
    + destruct (String.eqb k x) eqn:Ek; [|reflexivity].
      apply String.eqb_eq in Ek. subst x. rewrite Hx. reflexivity.
    + unfold has at 1. rewrite existsb_app. cbn [existsb].
      rewrite orb_false_r, orb_assoc. reflexivity.
Qed.

(** X12: after a loop that ran to its end, [seenKeys] is the set it was
    with the key of each moving transaction added in the order of the
    page, a key that was there or came earlier being added once; so a
    key is seen afterwards exactly when it was seen before or is the
    key of a moving transaction of the page. *)
Theorem cache_after_a_completed_batch (run : Run) (txs : list Transaction)
    (results rows : list Row) (w w' : World Ext) :
  syncLoop run txs results w = (Ok rows, w') ->
  seenKeys w'
  = fold_left addKey (map makeIdempotencyKey (filter (moves run) txs)) (seenKeys w)
  /\ forall k,
       seen w' k
       <-> seen w k
           \/ exists tx, In tx txs /\ moves run tx = true
                         /\ k = makeIdempotencyKey tx.
Proof.
  intros E.
  destruct (syncLoop_trace Ext api TRACKED_HEDERA_ACCOUNTS run txs results _ _ _ E)
    as (l & _ & _ & _ & R).
  destruct (R rows eq_refl) as (new & _ & _ & _ & Hs).
  split; [exact Hs|]. intros k. unfold seen. rewrite Hs, fold_addKey_has.
  rewrite orb_true_iff, existsb_exists. split.
  - intros [S | (x & Hin & Ek)]; [left; exact S | right].
    apply in_map_iff in Hin as (tx & <- & Hin).
    apply filter_In in Hin as [Hin Mv]. apply String.eqb_eq in Ek.
    exists tx. auto.
  - intros [S | (tx & Hin & Mv & ->)]; [left; exact S | right].
    exists (makeIdempotencyKey tx). split; [|apply String.eqb_refl].
    apply in_map, filter_In. auto.
Qed.

(** X13: the counters of a report.  When the route answers a report,
    [Created] is the number of Deposit and Transfer records the run
    posted, and [Created] and [Skipped] add up to the number of rows. *)
Theorem created_counter_counts_posted_records (query_account : option string)
    (w w' : World Ext) (t : string) (rows : list Row) :
  syncHederaToQbo query_account w = (Report t rows, w') ->
  (exists l, made w w' l /\ createdCount rows = List.length (notes l))
  /\ (createdCount rows + skippedCount rows)%nat = List.length rows.
Proof.
  intros E. split; [|apply counters_length].
  rewrite (syncHederaToQbo_eq Ext api mirror TARGET_HEDERA_ACCOUNT
             TRACKED_HEDERA_ACCOUNTS) in E.
  destruct (syncSetup query_account w) as [[st|e] wa] eqn:E1; [|discriminate].
  destruct (syncLoop (fst st) (snd st) [] wa) as [[rows0|e] wb] eqn:E2;
    [|discriminate].
  injection E as _ <- <-.
  destruct (Spec_syncSetup Ext api mirror TARGET_HEDERA_ACCOUNT query_account
              _ _ _ E1) as ([l1 [M1 F1]] & _).
  destruct (syncLoop_trace Ext api TRACKED_HEDERA_ACCOUNTS _ _ _ _ _ _ E2)
    as (l2 & M2 & _ & _ & R).
  destruct (R rows0 eq_refl) as (new & Hr & _ & Hc & _). cbn [app] in Hr. subst new.
  exists (l1 ++ l2)%list. split; [eapply made_app; eassumption|].
  rewrite notes_app, (notes_none _ F1). exact Hc.
Qed.

(** X14: within one run of the route, however it ends, no two records
    are posted with the same [PrivateNote], and no record is posted
    whose key was in [seenKeys] when the run began; the key of every
    record posted is in [seenKeys] when the run ends. *)
Theorem no_key_is_posted_twice (query_account : option string) (w : World Ext) :
  exists l,
    made w (snd (syncHederaToQbo query_account w)) l
    /\ NoDup (notes l)
    /\ forall k, In k (notes l) ->
         has (seenKeys w) k = false
         /\ seen (snd (syncHederaToQbo query_account w)) k.
Proof.
  rewrite (syncHederaToQbo_eq Ext api mirror TARGET_HEDERA_ACCOUNT
             TRACKED_HEDERA_ACCOUNTS).
  destruct (syncSetup query_account w) as [[st|e] wa] eqn:E1.
  - destruct (Spec_syncSetup Ext api mirror TARGET_HEDERA_ACCOUNT query_account
                _ _ _ E1) as ([l1 [M1 F1]] & _).
    destruct (Frame_syncSetup Ext api mirror TARGET_HEDERA_ACCOUNT query_account
                _ _ _ E1) as (S1 & _).
    destruct (syncLoop (fst st) (snd st) [] wa) as [res wb] eqn:E2.
    destruct (syncLoop_trace Ext api TRACKED_HEDERA_ACCOUNTS _ _ _ _ _ _ E2)
      as (l2 & M2 & D2 & K2 & _).
    assert (W : snd (match res with
                     | Ok rows => (Report (target (fst st)) rows, wb)
                     | Throw e => (Status500 e, wb)
                     end) = wb) by (destruct res; reflexivity).
    replace (let (r, wb0) := (res, wb) in
             match r with
             | Ok rows => (Report (target (fst st)) rows, wb0)
             | Throw e => (Status500 e, wb0)
             end)
      with (match res with
            | Ok rows => (Report (target (fst st)) rows, wb)
            | Throw e => (Status500 e, wb)
            end) by reflexivity.
    rewrite W. exists (l1 ++ l2)%list.
    split; [eapply made_app; eassumption|].
    rewrite notes_app, (notes_none _ F1). cbn [app].
    split; [exact D2|]. intros k Hin. destruct (K2 k Hin) as (U & S & _).
    rewrite <- S1. auto.
  - destruct (Spec_syncSetup Ext api mirror TARGET_HEDERA_ACCOUNT query_account
                _ _ _ E1) as ([l1 [M1 F1]] & _).
    exists l1. split; [exact M1|]. rewrite (notes_none _ F1).
    split; [constructor | intros k []].
Qed.

Lemma callback_realm_realmId (newRealmId : option string) (w : World Ext) :
  realmId (callback_realm newRealmId w)
  = if truthy_opt newRealmId then newRealmId else None.
Proof. reflexivity. Qed.

(** X15: [/callback] and the cache.  A second callback for the same
    company changes nothing more; a callback that carries no realm
    unsets the stored realm and keeps the cache, and the callback after
    it keeps the cache too, whatever company it is for. *)
Theorem callback_realm_twice (r r' : option string) (w : World Ext) :
  callback_realm r (callback_realm r w) = callback_realm r w
  /\ seenKeys (callback_realm None w) = seenKeys w
  /\ realmId (callback_realm None w) = None
  /\ seenKeys (callback_realm r' (callback_realm None w)) = seenKeys w.
Proof.
  split; [|split; [|split]].
  - unfold callback_realm at 1. rewrite callback_realm_realmId.
    assert (G : truthy_opt (if truthy_opt r then r else None) && truthy_opt r
                && negb (eqb_opt (if truthy_opt r then r else None)
                           (opt_or r EmptyString)) = false).
    { destruct r as [x|]; [|reflexivity]. cbn [truthy_opt opt_or].
      destruct (truthy x); [|reflexivity].
      cbn [truthy_opt eqb_opt]. rewrite String.eqb_refl, andb_false_r. reflexivity. }
    rewrite G. unfold callback_realm, set_realmId, set_seenKeys.
    destruct (_ && _ && _); reflexivity.
  - rewrite callback_realm_seenKeys. cbn [truthy_opt]. rewrite andb_false_r.
    reflexivity.
  - reflexivity.
  - rewrite callback_realm_seenKeys, callback_realm_realmId. cbn [truthy_opt andb].
    rewrite callback_realm_seenKeys. cbn [truthy_opt]. rewrite andb_false_r.
    reflexivity.
Qed.

Lemma list_route_read_only (query : string) (page : Body -> Page) (w : World Ext) :
  let route :=
    answer (bind getCompanyRealmIdOrThrow
              (fun realm =>
                 bind (qboQuery api realm query) (fun data => ret (page data)))) in
  (exists l, made w (snd (route w)) l
             /\ (l = [] \/ exists r, validSession w r /\ l = [ApiCall (Query r query)]))
  /\ seenKeys (snd (route w)) = seenKeys w
  /\ realmId (snd (route w)) = realmId w
  /\ token (snd (route w)) = token w
  /\ now (snd (route w)) = now w.
Proof.
  cbv zeta. unfold answer, bind, qboQuery.
  pose proof (getCompanyRealmIdOrThrow_world w) as W.
  pose proof (getCompanyRealmIdOrThrow_valid w) as V.
  destruct (getCompanyRealmIdOrThrow w) as [[r|e] w0]; cbn [snd] in W; subst w0.
  - rewrite makeApiCall_eq.
    destruct (fst (api (Query r query) (ext w))) as [err|data]; cbn [snd].
    + split; [|repeat split].
      exists [ApiCall (Query r query)]. split; [reflexivity|]. right.
      exists r. split; [apply V; reflexivity | reflexivity].
    + split; [|repeat split].
      exists [ApiCall (Query r query)]. split; [reflexivity|]. right.
      exists r. split; [apply V; reflexivity | reflexivity].
  - cbn [snd]. split; [|repeat split].
    exists []. split; [apply made_nil | left; reflexivity].
Qed.

(** X16: the three list routes only read.  Each makes at most one call,
    the fixed query of its entity for the realm of the session, and
    never posts; [seenKeys], the stored realm, the token and the clock
    are as before. *)
Theorem list_routes_only_read (w : World Ext) :
  let reads (route : World Ext -> Page * World Ext) (query : string) :=
    (exists l, made w (snd (route w)) l
               /\ (l = []
                   \/ exists r, validSession w r /\ l = [ApiCall (Query r query)]))
    /\ seenKeys (snd (route w)) = seenKeys w
    /\ realmId (snd (route w)) = realmId w
    /\ token (snd (route w)) = token w
    /\ now (snd (route w)) = now w in
  reads (listAccounts api) listAccountsQuery
  /\ reads (listTransfers api) listTransfersQuery
  /\ reads (listDeposits api) listDepositsQuery.
Proof.
  cbv zeta. split; [|split].
  - apply (list_route_read_only listAccountsQuery
             (fun data =>
                AccountsPage
                  match body_QueryResponse data with
                  | Some qr => match qr_Account qr with Some l => l | None => [] end
                  | None => []
                  end) w).
  - apply (list_route_read_only listTransfersQuery
             (fun data => TransfersPage (candidates_of qr_Transfer data)) w).
  - apply (list_route_read_only listDepositsQuery
             (fun data => DepositsPage (candidates_of qr_Deposit data)) w).
Qed.

(** X17: a list route shows what the query response holds and nothing
    of a fault: a body without [QueryResponse], a bare fault for one,
    gives the page with an empty table, not an error page. *)
Theorem list_routes_show_a_fault_as_empty (w : World Ext) (r : string)
    (data : Body) :
  validSession w r ->
  body_QueryResponse data = None ->
  (fst (api (Query r listAccountsQuery) (ext w)) = Resolves data ->
   fst (listAccounts api w) = AccountsPage [])
  /\ (fst (api (Query r listTransfersQuery) (ext w)) = Resolves data ->
      fst (listTransfers api w) = TransfersPage [])
  /\ (fst (api (Query r listDepositsQuery) (ext w)) = Resolves data ->
      fst (listDeposits api w) = DepositsPage []).
Proof.
  intros V N. apply getCompanyRealmIdOrThrow_valid in V.
  pose proof (getCompanyRealmIdOrThrow_world w) as W.
  destruct (getCompanyRealmIdOrThrow w) as [res w0] eqn:E.
  cbn [fst snd] in V, W. subst res w0.
  split; [|split]; intros Eq.
  - unfold listAccounts, answer, bind, qboQuery. rewrite E, makeApiCall_eq, Eq.
    cbn [fst ret]. rewrite N. reflexivity.
  - unfold listTransfers, answer, bind, qboQuery. rewrite E, makeApiCall_eq, Eq.
    unfold candidates_of. cbn [fst ret]. rewrite N. reflexivity.
  - unfold listDeposits, answer, bind, qboQuery. rewrite E, makeApiCall_eq, Eq.
    unfold candidates_of. cbn [fst ret]. rewrite N. reflexivity.
Qed.

End Routes.

(* ================================================================== *)
(** * The tracked accounts of the environment *)
(* ================================================================== *)

Section TrackedAccounts.

Lemma trimEnd_idem (s : string) : trimEnd (trimEnd s) = trimEnd s.
Proof.
  induction s as [|c s IH]; [reflexivity|]. cbn [trimEnd].
  destruct (trimEnd s) as [|x r] eqn:E.
  - destruct (isWhiteSpace c) eqn:W; [reflexivity|].
    cbn [trimEnd]. rewrite W. reflexivity.
  - cbn [trimEnd]. cbn [trimEnd] in IH. rewrite IH. reflexivity.
Qed.

Lemma trimStart_head (s : string) :
  match trimStart s with
  | EmptyString => True
  | String c _ => isWhiteSpace c = false
  end.
Proof.
  induction s as [|c s IH]; [exact I|]. cbn [trimStart].
  destruct (isWhiteSpace c) eqn:W; [exact IH | exact W].
Qed.

Lemma trimStart_trimEnd (t : string) :
  match t with
  | EmptyString => True
  | String c _ => isWhiteSpace c = false
  end ->
  trimStart (trimEnd t) = trimEnd t.
Proof.
  destruct t as [|c t]; [reflexivity|]. intros W. cbn [trimEnd].
  destruct (trimEnd t); rewrite ?W; cbn [trimStart]; rewrite W; reflexivity.
Qed.

Lemma trim_idem (s : string) : trim (trim s) = trim s.
Proof.
  unfold trim. rewrite (trimStart_trimEnd _ (trimStart_head s)).
  apply trimEnd_idem.
Qed.

Lemma occurs_trimStart (c : ascii) (s : string) :
  occurs c s = false -> occurs c (trimStart s) = false.
Proof.
  induction s as [|x s IH]; [reflexivity|]. intros H. cbn [trimStart].
  destruct (isWhiteSpace x); [|exact H].
  simpl in H. apply orb_false_iff in H as [_ H]. apply IH, H.
Qed.

Lemma occurs_trimEnd (c : ascii) (s : string) :
  occurs c s = false -> occurs c (trimEnd s) = false.
Proof.
  induction s as [|x s IH]; [reflexivity|]. intros H.
  simpl in H. apply orb_false_iff in H as [Hx H]. specialize (IH H).
  cbn [trimEnd]. destruct (trimEnd s) as [|y r].
  - destruct (isWhiteSpace x); [reflexivity|]. simpl. rewrite Hx. reflexivity.
  - change (occurs c (String x (String y r)))
      with (Ascii.eqb x c || occurs c (String y r)).
    rewrite Hx, IH. reflexivity.
Qed.

Lemma split_on_pieces (c : ascii) (s : string) :
  exists piece pieces, split_on c s = piece :: pieces.
Proof.
  induction s as [|x s (piece & pieces & IH)]; cbn [split_on]; [eauto|].
  destruct (Ascii.eqb x c); [eauto|]. rewrite IH. eauto.
Qed.

Lemma split_on_free (c : ascii) (s : string) :
  Forall (fun x => occurs c x = false) (split_on c s).
Proof.
  induction s as [|x s IH]; cbn [split_on]; [repeat constructor|].
  destruct (Ascii.eqb x c) eqn:E; [constructor; [reflexivity | exact IH]|].
  destruct (split_on c s) as [|piece pieces]; [repeat constructor; simpl; rewrite E; reflexivity|].
  inversion IH as [|? ? Hp Hps]; subst. constructor; [|exact Hps].
  simpl. rewrite E, Hp. reflexivity.
Qed.

Lemma split_on_app (c : ascii) (a b : string) :
  split_on c (a ++ String c b) = (split_on c a ++ split_on c b)%list.
Proof.
  induction a as [|x a IH].
  - change (split_on c (String c b) = (EmptyString :: split_on c b)%list).
    cbn [split_on]. rewrite Ascii.eqb_refl. reflexivity.
  - change (split_on c (String x (a ++ String c b))
            = (split_on c (String x a) ++ split_on c b)%list).
    cbn [split_on]. destruct (Ascii.eqb x c); [rewrite IH; reflexivity|].
    rewrite IH. destruct (split_on_pieces c a) as (piece & pieces & ->).
    reflexivity.
Qed.

Lemma split_on_whole (c : ascii) (s : string) :
  occurs c s = false -> split_on c s = [s].
Proof.
  induction s as [|x s IH]; [reflexivity|]. intros H.
  simpl in H. apply orb_false_iff in H as [Hx H].
  cbn [split_on]. rewrite Hx, (IH H). reflexivity.
Qed.

(** X18: the list of tracked accounts read from the environment.  Each
    element is non-empty, has no white space at either end and holds no
    comma; the list of [a,b] is the list of [a] followed by the list of
    [b], so empty and blank items drop out wherever they stand; and a
    single trimmed name without a comma, as the default target is,
    gives the list of that name alone. *)
Theorem tracked_accounts_parsing
    (HEDERA_TRACKED_ACCOUNTS HEDERA_ACCOUNT : option string) (a b x : string) :
  Forall (fun x => x <> EmptyString /\ trim x = x /\ occurs "," x = false)
    (env_TRACKED_HEDERA_ACCOUNTS HEDERA_TRACKED_ACCOUNTS HEDERA_ACCOUNT)
  /\ tracked_list (a ++ "," ++ b) = (tracked_list a ++ tracked_list b)%list
  /\ (x <> EmptyString -> trim x = x -> occurs "," x = false ->
      tracked_list x = [x])
  /\ env_TRACKED_HEDERA_ACCOUNTS None None = ["0.0.6856591"].
Proof.
  split; [|split; [|split]].
  - unfold env_TRACKED_HEDERA_ACCOUNTS, tracked_list.
    apply Forall_forall. intros y Hin.
    apply filter_In in Hin as [Hin Ty]. apply in_map_iff in Hin as (s & <- & Hin).
    split; [intros E; rewrite E in Ty; discriminate|].
    split; [apply trim_idem|].
    pose proof (split_on_free "," (opt_or HEDERA_TRACKED_ACCOUNTS
                                    (env_TARGET_HEDERA_ACCOUNT HEDERA_ACCOUNT))) as F.
    rewrite Forall_forall in F. unfold trim.
    apply occurs_trimEnd, occurs_trimStart, F, Hin.
  - unfold tracked_list.
    change (a ++ "," ++ b) with (a ++ String "," b).
    rewrite split_on_app, map_app, filter_app. reflexivity.
  - intros Hne Ht Hc. unfold tracked_list.
    rewrite (split_on_whole _ _ Hc). cbn [map filter]. rewrite Ht.
    destruct x; [contradiction | reflexivity].
  - reflexivity.
Qed.

End TrackedAccounts.

(* ================================================================== *)
(** * When the date cannot be derived *)
(* ================================================================== *)

Section DateFailures.

Variable Ext : Type.
Variable api : Request -> Ext -> Reply * Ext.
Variable TRACKED_HEDERA_ACCOUNTS : list string.

(** X19: deriving the date fails in one case only: the seconds before
    the full stop read as a finite number whose milliseconds no [Date]
    can hold; the error is the [RangeError] of [toISOString].  A
    missing, empty or unparseable timestamp never fails, whatever the
    clock.  For a transaction with a net movement the failure ends the
    loop body at once: nothing is called and [seenKeys] is not
    touched. *)
Theorem txnDate_fails_only_out_of_range (run : Run) (tx : Transaction)
    (results : list Row) (w : World Ext) (e : error) :
  toTxnDateFromConsensus (now w) (consensus_timestamp tx) = inl e ->
  e = RangeError "Invalid time value"
  /\ (exists s,
        consensus_timestamp tx = Some s /\ s <> EmptyString
        /\ Number_isFinite (StringToNumber (before_dot s)) = true
        /\ Date_of (mul (StringToNumber (before_dot s)) (Finite 1000)) = None)
  /\ (moves run tx = true ->
      processTx api TRACKED_HEDERA_ACCOUNTS run tx results w = (Throw e, w)).
Proof.
  intros E. split; [|split].
  - unfold toTxnDateFromConsensus, isoDate in E.
    destruct (consensus_timestamp tx) as [s|]; [|discriminate].
    destruct (negb (truthy s)); [discriminate|].
    destruct (negb (Number_isFinite _)); [discriminate|].
    destruct (Date_of _); [discriminate|]. injection E as <-. reflexivity.
  - unfold toTxnDateFromConsensus, isoDate in E.
    destruct (consensus_timestamp tx) as [s|]; [|discriminate].
    exists s. split; [reflexivity|].
    destruct s as [|c s]; [discriminate|]. split; [discriminate|].
    cbn [truthy negb] in E.
    destruct (Number_isFinite _); [|discriminate]. split; [reflexivity|].
    cbn [negb] in E. destruct (Date_of _); [discriminate | reflexivity].
  - intros Mv. rewrite processTx_moving by exact Mv. rewrite E. reflexivity.
Qed.

End DateFailures.

(* ================================================================== *)
(** * The statements before the loop *)
(* ================================================================== *)

Section Setup.

Variable Ext : Type.
Variable api : Request -> Ext -> Reply * Ext.
Variable mirror : string -> Z -> Ext -> MirrorReply * Ext.
Variable TARGET_HEDERA_ACCOUNT : string.

Lemma fetchMirrorTransactionsForAccount_world (hederaId : string) (limit : Z)
    (w : World Ext) :
  snd (fetchMirrorTransactionsForAccount mirror hederaId limit w)
  = after_call (Fetch hederaId limit) (snd (mirror hederaId limit (ext w))) w.
Proof.
  unfold fetchMirrorTransactionsForAccount.
  destruct (mirror hederaId limit (ext w)) as [[err|ok status txs] e];
    [reflexivity|].
  destruct (negb ok); reflexivity.
Qed.

(** X20: a setup that succeeds has made, in this order, the lookups
    and creations of the wallet account of the target, of the clearing
    account and of the external-outflow account, and then one fetch
    from the mirror node: of the target, with limit 25.  The target is
    the account of the query string, or else of the environment,
    trimmed; the realm is the one of the valid session. *)
Theorem setup_calls_in_order (query_account : option string)
    (w wa : World Ext) (st : Run * list Transaction) :
  syncSetup api mirror TARGET_HEDERA_ACCOUNT query_account w = (Ok st, wa) ->
  let t := trim (opt_or query_account TARGET_HEDERA_ACCOUNT) in
  let r := companyRealmId (fst st) in
  validSession w r
  /\ target (fst st) = t
  /\ exists l1 l2 l3,
       made w wa (l1 ++ l2 ++ l3 ++ [Fetch t 25])
       /\ Forall (accountCall r (hederaWalletAccountName t)) l1
       /\ Forall (accountCall r "Hedera Clearing") l2
       /\ Forall (accountCall r "External Hedera Outflow") l3.
Proof.
  intros E. cbv zeta. unfold syncSetup in E. unfold bind at 1 in E.
  pose proof (getCompanyRealmIdOrThrow_world Ext w) as W0.
  pose proof (getCompanyRealmIdOrThrow_valid Ext w) as V.
  destruct (getCompanyRealmIdOrThrow w) as [[r|e] w0]; [|discriminate].
  cbn [snd] in W0. subst w0. specialize (V r). cbn [fst] in V.
  set (t := trim (opt_or query_account TARGET_HEDERA_ACCOUNT)) in *.
  unfold bind at 1 in E.
  destruct (getOrCreateWalletBankAccount api r t w) as [[id1|e] w1] eqn:E1;
    [|discriminate].
  unfold bind at 1 in E.
  destruct (getOrCreateClearingAccount api r w1) as [[id2|e] w2] eqn:E2;
    [|discriminate].
  unfold bind at 1 in E.
  destruct (getOrCreateExternalOutflowBank api r w2) as [[id3|e] w3] eqn:E3;
    [|discriminate].
  unfold bind at 1 in E.
  pose proof (fetchMirrorTransactionsForAccount_world t 25 w3) as W4.
  destruct (fetchMirrorTransactionsForAccount mirror t 25 w3) as [[txs|e] w4];
    [|discriminate].
  cbn [snd] in W4. injection E as <- <-. cbn [fst companyRealmId target].
  split; [apply V; reflexivity|]. split; [reflexivity|].
  destruct (Spec_getOrCreateQboAccount Ext api _ _ _ _ _ E1) as ([l1 [M1 F1]] & _).
  destruct (Spec_getOrCreateQboAccount Ext api _ _ _ _ _ E2) as ([l2 [M2 F2]] & _).
  destruct (Spec_getOrCreateQboAccount Ext api _ _ _ _ _ E3) as ([l3 [M3 F3]] & _).
  exists l1, l2, l3. split; [|split; [exact F1 | split; [exact F2 | exact F3]]].
  unfold made in *. rewrite W4. cbn [calls after_call].
  rewrite M3, M2, M1, <- !app_assoc. reflexivity.
Qed.

End Setup.

(* ================================================================== *)
(** * The further properties on sample runs *)
(* ================================================================== *)

Section MoreSamples.

(** Entries that cancel out, and an outflow of 3 hbar. *)
Lemma classification_by_integer_sum_witness :
  moves sampleRun txStill = false
  /\ negative (netTinybarFor txTransfer (target sampleRun)) = true.
Proof.
  split.
  - destruct (classification_by_integer_sum sampleRun txStill [7; -7])
      as (_ & M & _); [reflexivity | vm_compute; discriminate | exact M].
  - destruct (classification_by_integer_sum sampleRun txTransfer [-300000000])
      as (_ & _ & _ & N); [reflexivity | vm_compute; discriminate | exact N].
Defined.

(** The deposit of 500 000 000 tinybar is booked as 5. *)
Lemma whole_hbar_amount_witness :
  map line_Amount (dep_Line (depositPayload sampleRun txDeposit "2023-11-14"))
  = [Finite 5].
Proof.
  destruct (whole_hbar_amount sampleRun txDeposit [500000000] 5 "2023-11-14" "1")
    as (_ & A & _);
    [reflexivity | vm_compute; discriminate | reflexivity | exact A].
Defined.

(** The date of the scenario in the Deposit query. *)
Lemma txnDate_is_a_safe_literal_witness :
  depositQuery "2023-11-14"
  = "select Id, PrivateNote from Deposit where TxnDate='2023-11-14' maxresults 200".
Proof.
  destruct (txnDate_is_a_safe_literal 0 (Some "1700000000.0") "2023-11-14")
    as (_ & _ & _ & _ & _ & D & _); [reflexivity | exact D].
Defined.

Lemma txnDate_of_seconds_witness :
  toTxnDateFromConsensus 0 (Some "1700000000.123456789") = inr "2023-11-14".
Proof.
  destruct (txnDate_of_seconds 0 "1700000000.123456789" 2023 11 14) as [D _];
    [discriminate | reflexivity | vm_compute; discriminate | reflexivity | lia
    | exact D].
Defined.

(** A name with a quote and a backslash, and the name its escaped text
    spells. *)
Lemma qboEscape_round_trip_witness :
  readLiteral (qboEscape "O'Brien \ Co" ++ "' maxresults 1")
  = Some ("O'Brien \ Co", " maxresults 1")
  /\ findAccountQuery "a'" <> findAccountQuery "a\'".
Proof.
  split.
  - apply (qboEscape_round_trip "O'Brien \ Co" "O'Brien \ Co" " maxresults 1").
  - apply (qboEscape_round_trip "a'" "a\'" EmptyString). discriminate.
Defined.

(** The session of a freshly started process is valid for its realm. *)
Lemma realm_helper_accepts_valid_sessions_witness :
  validSession (start [] []) "realm-1".
Proof.
  destruct (realm_helper_accepts_valid_sessions Sim (start [] []) "realm-1")
    as [[V _] _].
  apply V. reflexivity.
Defined.

(** A process without a token. *)
Lemma no_session_no_call_witness :
  exists e, simSync tracked "0.0.100" loggedOut = (Status500 e, loggedOut)
            /\ listDeposits sim_api loggedOut = (ErrorPage e, loggedOut).
Proof.
  destruct (no_session_no_call Sim sim_api sim_mirror "0.0.100" tracked
              (Some "0.0.100") loggedOut) as (e & _ & S & _ & _ & D).
  - intros r (tk & T & _). discriminate T.
  - exists e. split; [exact S | exact D].
Defined.

(** The lookup of the first account finds nothing and its creation is
    rejected. *)
Lemma setup_failure_books_nothing_witness :
  fst (syncHederaToQbo script_api script_mirror "0.0.100" tracked None
         (scriptSession [Resolves noBody; Rejects (Error "503")]))
  = Status500 (Error "503")
  /\ seenKeys (snd (syncSetup script_api script_mirror "0.0.100" None
                      (scriptSession [Resolves noBody; Rejects (Error "503")])))
     = ["k"].
Proof.
  pose (w := scriptSession [Resolves noBody; Rejects (Error "503")]).
  pose (s := syncSetup script_api script_mirror "0.0.100" None w).
  destruct (setup_failure_books_nothing (list Reply) script_api script_mirror
              "0.0.100" tracked None w (snd s) (Error "503")) as (R & S & _).
  - vm_compute. reflexivity.
  - split; [fold w; rewrite R; reflexivity | exact S].
Defined.

(** A lookup that finds account 42. *)
Lemma account_found_or_created_witness :
  getOrCreateClearingAccount script_api "realm-1"
    (scriptSession [Resolves (accountsBody [ {| acc_Id := "42" |} ])])
  = (Ok "42",
     after_call (ApiCall (Query "realm-1" (findAccountQuery "Hedera Clearing"))) []
       (scriptSession [Resolves (accountsBody [ {| acc_Id := "42" |} ])])).
Proof.
  destruct (account_found_or_created (list Reply) script_api "realm-1"
              {| Name := "Hedera Clearing"; AccountType := "Income";
                 AccountSubType := None |}
              (scriptSession [Resolves (accountsBody [ {| acc_Id := "42" |} ])]))
    as (_ & F & _).
  apply (F (accountsBody [ {| acc_Id := "42" |} ]) "4"%char "2");
    reflexivity.
Defined.

(** The deposit of the first sample run, met again by a process that
    has lost its cache. *)
Lemma remote_duplicate_is_skipped_witness :
  fst (processTx sim_api tracked sampleRun txDeposit []
         (set_seenKeys [] (snd firstRun)))
  = Ok [skippedQboRow Deposit txDeposit].
Proof.
  pose (w := set_seenKeys [] (snd firstRun)).
  pose (q := Query realm1 (depositQuery "2023-11-14")).
  pose (data := match fst (sim_api q (ext w)) with
                | Resolves b => b
                | Rejects _ => noBody
                end).
  destruct (remote_duplicate_is_skipped Sim sim_api tracked sampleRun txDeposit []
              w "2023-11-14" data) as [D _].
  - reflexivity.
  - reflexivity.
  - reflexivity.
  - fold w. rewrite D; [reflexivity | reflexivity | vm_compute; reflexivity
                       | vm_compute; reflexivity].
Defined.

(** A page of three transactions, the second without net movement. *)
Lemma one_row_per_moving_transaction_witness :
  map key (valueOr [] (fst (syncLoop sim_api tracked sampleRun
                              [txDeposit; txStill; txTransfer] []
                              (start [] []))))
  = [makeIdempotencyKey txDeposit; makeIdempotencyKey txTransfer].
Proof.
  pose (l := syncLoop sim_api tracked sampleRun [txDeposit; txStill; txTransfer] []
               (start [] [])).
  destruct (one_row_per_moving_transaction Sim sim_api tracked sampleRun
              [txDeposit; txStill; txTransfer] [] (valueOr [] (fst l))
              (start [] []) (snd l)) as (new & Hr & Hk & _).
  - vm_compute. reflexivity.
  - fold l. rewrite Hr. exact Hk.
Defined.

Lemma cache_after_a_completed_batch_witness :
  seenKeys (snd (syncLoop sim_api tracked sampleRun
                   [txDeposit; txStill; txTransfer; txDeposit] []
                   (start [] [])))
  = [makeIdempotencyKey txDeposit; makeIdempotencyKey txTransfer].
Proof.
  pose (l := syncLoop sim_api tracked sampleRun
               [txDeposit; txStill; txTransfer; txDeposit] [] (start [] [])).
  destruct (cache_after_a_completed_batch Sim sim_api tracked sampleRun
              [txDeposit; txStill; txTransfer; txDeposit] [] (valueOr [] (fst l))
              (start [] []) (snd l)) as (S & _).
  - vm_compute. reflexivity.
  - fold l. rewrite S. reflexivity.
Defined.

(** The first sample run created two records. *)
Lemma created_counter_counts_posted_records_witness :
  exists l, made (start [] [txDeposit; txTransfer]) (snd firstRun) l
            /\ List.length (notes l) = 2%nat.
Proof.
  destruct (created_counter_counts_posted_records Sim sim_api sim_mirror "0.0.100"
              tracked (Some "0.0.100") (start [] [txDeposit; txTransfer])
              (snd firstRun) "0.0.100"
              [createdDepositRow sampleRun txDeposit "2023-11-14";
               createdTransferRow sampleRun txTransfer "2023-11-14"
                 (Some "0.0.200")])
    as ((l & M & C) & _).
  - vm_compute. reflexivity.
  - exists l. split; [exact M | rewrite <- C; reflexivity].
Defined.

(** A bare fault in answer to the query of [/listDeposits]. *)
Lemma list_routes_show_a_fault_as_empty_witness :
  fst (listDeposits script_api (scriptSession [Resolves faultBody]))
  = DepositsPage [].
Proof.
  destruct (list_routes_show_a_fault_as_empty (list Reply) script_api
              (scriptSession [Resolves faultBody]) "realm-1" faultBody)
    as (_ & _ & D).
  - exists {| token_realmId := Some "realm-1" |}.
    repeat split. right. reflexivity.
  - reflexivity.
  - apply D. reflexivity.
Defined.

(** Blank and empty items drop out; a single name stays. *)
Lemma tracked_accounts_parsing_witness :
  env_TRACKED_HEDERA_ACCOUNTS (Some " 0.0.100 ,, 0.0.200,") None
  = ["0.0.100"; "0.0.200"]
  /\ tracked_list "0.0.100" = ["0.0.100"].
Proof.
  destruct (tracked_accounts_parsing None None " 0.0.100 ," " 0.0.200," "0.0.100")
    as (_ & A & W & _).
  split.
  - change (env_TRACKED_HEDERA_ACCOUNTS (Some " 0.0.100 ,, 0.0.200,") None)
      with (tracked_list (" 0.0.100 ," ++ "," ++ " 0.0.200,")).
    rewrite A. reflexivity.
  - apply W; [discriminate | reflexivity | reflexivity].
Defined.

(** A deposit whose timestamp is one second past the range of [Date]. *)
Lemma txnDate_fails_only_out_of_range_witness :
  processTx sim_api tracked sampleRun txFarFuture [] (start [] [])
  = (Throw (RangeError "Invalid time value"), start [] []).
Proof.
  destruct (txnDate_fails_only_out_of_range Sim sim_api tracked sampleRun
              txFarFuture [] (start [] []) (RangeError "Invalid time value"))
    as (_ & _ & P); [reflexivity | apply P; reflexivity].
Defined.

(** The setup of the first sample run, which finds an empty company and
    creates the three accounts. *)
Lemma setup_calls_in_order_witness :
  validSession (start [] [txDeposit; txTransfer]) realm1
  /\ List.length
       (calls (snd (syncSetup sim_api sim_mirror "0.0.100" (Some " 0.0.100 ")
                      (start [] [txDeposit; txTransfer]))))
     = 7%nat.
Proof.
  pose (w := start [] [txDeposit; txTransfer]).
  pose (s := syncSetup sim_api sim_mirror "0.0.100" (Some " 0.0.100 ") w).
  destruct (setup_calls_in_order Sim sim_api sim_mirror "0.0.100"
              (Some " 0.0.100 ") w (snd s) (sampleRun, [txDeposit; txTransfer]))
    as (V & _ & _).
  - vm_compute. reflexivity.
  - split; [exact V | vm_compute; reflexivity].
Defined.

End MoreSamples.
